(** * Strategy evaluation engine of the PAXG trading bot

    A shallow embedding of the indicator engine, the two signal generators,
    the trade simulation loop, the metrics aggregator, the parameter
    optimizer and the live double-confirm state machine, with the
    properties of the specification stated and settled against them.

    Numbers.  Python ints are [Z].  Prices and the risk parameters are
    finite floats and are embedded as exact rationals [Q]; values that can
    be NaN or infinite (the oscillator, a realised return) are embedded as
    [fl], which adds the three special values to [Q].  Rounding is not
    modelled: finite arithmetic is exact. *)

From Stdlib Require Import String ZArith QArith Qabs List Bool Lia Lqa.
Import ListNotations.

Open Scope Q_scope.

(** ** Floats with NaN and infinities *)

Module Fl.

Inductive fl : Type :=
| NaN
| PInf
| NInf
| Fin (q : Q).

(** Equality of float values: rationals up to [Qeq], the special values
    syntactically (a NaN is only related to itself here; the comparisons
    below are the IEEE ones, all false on NaN). *)
Definition feq (a b : fl) : Prop :=
  match a, b with
  | NaN, NaN => True
  | PInf, PInf => True
  | NInf, NInf => True
  | Fin x, Fin y => x == y
  | _, _ => False
  end.

Definition Qltb (a b : Q) : bool := negb (Qle_bool b a).

(** [a < b], [a <= b], [a > b], [a >= b]: false as soon as one side is NaN. *)
Definition flt (a b : fl) : bool :=
  match a, b with
  | NaN, _ | _, NaN => false
  | PInf, _ => false
  | _, NInf => false
  | NInf, _ => true
  | Fin _, PInf => true
  | Fin x, Fin y => Qltb x y
  end.

Definition fle (a b : fl) : bool :=
  match a, b with
  | NaN, _ | _, NaN => false
  | NInf, _ => true
  | _, PInf => true
  | PInf, _ => false
  | Fin _, NInf => false
  | Fin x, Fin y => Qle_bool x y
  end.

Definition fgt (a b : fl) : bool := flt b a.
Definition fge (a b : fl) : bool := fle b a.

Definition fne (a b : fl) : bool :=
  match a, b with
  | NaN, _ | _, NaN => true
  | PInf, PInf => false
  | NInf, NInf => false
  | Fin x, Fin y => negb (Qeq_bool x y)
  | _, _ => true
  end.

Definition is_nan (a : fl) : bool :=
  match a with NaN => true | _ => false end.

Definition fneg (a : fl) : fl :=
  match a with
  | NaN => NaN
  | PInf => NInf
  | NInf => PInf
  | Fin x => Fin (- x)
  end.

Definition fabs (a : fl) : fl :=
  match a with
  | NaN => NaN
  | PInf | NInf => PInf
  | Fin x => Fin (Qabs x)
  end.

Definition fadd (a b : fl) : fl :=
  match a, b with
  | NaN, _ | _, NaN => NaN
  | PInf, NInf | NInf, PInf => NaN
  | PInf, _ | _, PInf => PInf
  | NInf, _ | _, NInf => NInf
  | Fin x, Fin y => Fin (x + y)
  end.

Definition fsub (a b : fl) : fl := fadd a (fneg b).

(** Sign of a rational as a float infinity or NaN: the value of [x / 0.0]. *)
Definition inf_of_sign (x : Q) : fl :=
  if Qltb 0 x then PInf else if Qltb x 0 then NInf else NaN.

Definition fmul (a b : fl) : fl :=
  match a, b with
  | NaN, _ | _, NaN => NaN
  | Fin x, Fin y => Fin (x * y)
  | Fin x, PInf | PInf, Fin x => inf_of_sign x
  | Fin x, NInf | NInf, Fin x => inf_of_sign (- x)
  | PInf, PInf | NInf, NInf => PInf
  | PInf, NInf | NInf, PInf => NInf
  end.

(** Division.  A zero divisor is the positive zero unless [negzero] is
    set; numpy returns an infinity or NaN there and does not raise. *)
Definition fdiv_gen (negzero : bool) (a b : fl) : fl :=
  match a, b with
  | NaN, _ | _, NaN => NaN
  | Fin x, Fin y =>
      if Qeq_bool y 0
      then inf_of_sign (if negzero then - x else x)
      else Fin (x / y)
  | Fin _, (PInf | NInf) => Fin 0
  | PInf, Fin y => if Qltb y 0 then NInf else if negzero then NInf else PInf
  | NInf, Fin y => if Qltb y 0 then PInf else if negzero then PInf else NInf
  | _, _ => NaN
  end.

Definition fdiv : fl -> fl -> fl := fdiv_gen false.

(** The value lies in the closed interval [[lo, hi]]. *)
Definition in_range (lo hi : Q) (a : fl) : Prop :=
  match a with
  | Fin x => lo <= x /\ x <= hi
  | _ => False
  end.

End Fl.
Import Fl.

(** ** Indicator engine: [calculate_rsi]

    The same body appears in [RSIAlgorithm], in
    [RSI1MinDoubleConfirmAlgorithm] and (returning the last value only) in
    [PAXGPanel]. *)

(** [prices.diff()]: NaN at the first index, then successive differences. *)
Fixpoint diff_from (prev : Q) (ps : list Q) : list fl :=
  match ps with
  | [] => []
  | p :: ps' => Fin (p - prev) :: diff_from p ps'
  end.

Definition diff (prices : list Q) : list fl :=
  match prices with
  | [] => []
  | p0 :: ps => NaN :: diff_from p0 ps
  end.

(** [s.where(cond, 0)]: keep the entry where the condition holds, put 0
    elsewhere (also where the entry is NaN, the comparison being false). *)
Definition where_or_zero (cond : fl -> bool) (s : list fl) : list fl :=
  map (fun d => if cond d then d else Fin 0) s.

(** [s.ewm(span=span, adjust=False).mean()]: [y0 = x0] and
    [y_t = (1 - alpha) * y_(t-1) + alpha * x_t] with [alpha = 2/(span+1)].
    pandas leaves the running value untouched on a NaN input and restarts
    from the first observation after a NaN start. *)
Definition ewm_alpha (span : Z) : Q := 2 / (inject_Z span + 1).

Definition ewm_step (alpha : Q) (weighted cur : fl) : fl :=
  if is_nan weighted then cur
  else if is_nan cur then weighted
  else if fne weighted cur
       then fadd (fmul (Fin (1 - alpha)) weighted) (fmul (Fin alpha) cur)
       else weighted.

Fixpoint ewm_from (alpha : Q) (weighted : fl) (xs : list fl) : list fl :=
  match xs with
  | [] => []
  | x :: xs' =>
      let w := ewm_step alpha weighted x in
      w :: ewm_from alpha w xs'
  end.

Definition ewm_mean (span : Z) (xs : list fl) : list fl :=
  match xs with
  | [] => []
  | x0 :: xs' => x0 :: ewm_from (ewm_alpha span) x0 xs'
  end.

(** [rs = avg_gain / avg_loss].  [loss] is the negation of a series whose
    zero entries are [0.0], so a zero average loss is the negative zero. *)
Definition rs_of (avg_gain avg_loss : fl) : fl := fdiv_gen true avg_gain avg_loss.

Definition rsi_of_rs (rs : fl) : fl :=
  fsub (Fin 100) (fdiv (Fin 100) (fadd (Fin 1) rs)).

Fixpoint map2 {A B C} (f : A -> B -> C) (l1 : list A) (l2 : list B) : list C :=
  match l1, l2 with
  | a :: l1', b :: l2' => f a b :: map2 f l1' l2'
  | _, _ => []
  end.

(** [calculate_rsi]: [None] is the ValueError that [ewm] raises for a
    span below 1. *)
Definition calculate_rsi (period : Z) (prices : list Q) : option (list fl) :=
  let delta := diff prices in
  let gain := where_or_zero (fun d => fgt d (Fin 0)) delta in
  let loss := map fneg (where_or_zero (fun d => flt d (Fin 0)) delta) in
  if (period <? 1)%Z then None
  else
    let avg_gain := ewm_mean period gain in
    let avg_loss := ewm_mean period loss in
    let rs := map2 rs_of avg_gain avg_loss in
    Some (map rsi_of_rs rs).

(** ** Signal generator, threshold-crossing variant: [RSIAlgorithm] *)

(** [s.shift(1)]: every entry moves one index on, NaN enters at index 0. *)
Definition shift1 (s : list fl) : list fl :=
  match s with
  | [] => []
  | _ :: _ => NaN :: removelast s
  end.

(** [pd.Series(v, index=data.index)] *)
Definition full {A B} (v : A) (index : list B) : list A := map (fun _ => v) index.

(** [signals[cond] = v]: boolean-mask assignment. *)
Fixpoint set_where (signals : list Z) (cond : list bool) (v : Z) : list Z :=
  match signals, cond with
  | s :: signals', c :: cond' => (if c then v else s) :: set_where signals' cond' v
  | _, _ => signals
  end.

Record RSIAlgorithm : Type := {
  rsi_period : Z;
  rsi_oversold_threshold : Z;
  rsi_overbought_threshold : Z
}.

Definition thr (t : Z) : fl := Fin (inject_Z t).

Definition rsi_buy_condition (a : RSIAlgorithm) (rsi : list fl) : list bool :=
  map2 andb
    (map (fun r => fgt r (thr (rsi_oversold_threshold a))) rsi)
    (map (fun r => fle r (thr (rsi_oversold_threshold a))) (shift1 rsi)).

Definition rsi_sell_condition (a : RSIAlgorithm) (rsi : list fl) : list bool :=
  map2 andb
    (map (fun r => flt r (thr (rsi_overbought_threshold a))) rsi)
    (map (fun r => fge r (thr (rsi_overbought_threshold a))) (shift1 rsi)).

Definition rsi_generate_signals (a : RSIAlgorithm) (prices : list Q)
  : option (list Z) :=
  match calculate_rsi (rsi_period a) prices with
  | None => None
  | Some rsi =>
      let signals := full 0%Z prices in
      let signals := set_where signals (rsi_buy_condition a rsi) 1%Z in
      let signals := set_where signals (rsi_sell_condition a rsi) (-1)%Z in
      Some signals
  end.

(** ** Signal generator, double-confirm variant:
       [RSI1MinDoubleConfirmAlgorithm] *)

Record RSI1MinDoubleConfirmAlgorithm : Type := {
  dc_period : Z;
  dc_oversold_threshold : Z;
  dc_overbought_threshold : Z
}.

(** [s.iloc[lo:hi]] for [0 <= lo]. *)
Definition slice {A} (lo hi : nat) (s : list A) : list A :=
  firstn (hi - lo) (skipn lo s).

(** pandas [Series.max()] and [Series.min()]: NaN entries are skipped,
    and the result is NaN when nothing is left. *)
Definition pd_max (s : list fl) : fl :=
  fold_left (fun m x => if is_nan x then m
                        else if is_nan m then x
                        else if fgt x m then x else m) s NaN.

Definition pd_min (s : list fl) : fl :=
  fold_left (fun m x => if is_nan x then m
                        else if is_nan m then x
                        else if flt x m then x else m) s NaN.

Definition nthf (s : list fl) (i : nat) : fl := nth i s NaN.

(** The body of the top-detection loop at index [i] (run for [2 <= i]). *)
Definition dc_topped_at (a : RSI1MinDoubleConfirmAlgorithm) (rsi : list fl)
  (i : nat) : bool :=
  let recent_high := pd_max (slice (Nat.max 0 (i - 10)) i rsi) in
  if fge recent_high (thr (dc_overbought_threshold a)) then true
  else if (2 <=? i)%nat
          && fgt (nthf rsi (i - 1)) (nthf rsi (i - 2))
          && fgt (nthf rsi (i - 1)) (nthf rsi i)
       then (if fgt (nthf rsi (i - 1)) (Fin 60) then true else false)
       else false.

(** [rsi_topped] after the loop [for i in range(2, len(rsi))]. *)
Definition dc_rsi_topped (a : RSI1MinDoubleConfirmAlgorithm) (rsi : list fl)
  : list bool :=
  map (fun i => if (2 <=? i)%nat then dc_topped_at a rsi i else false)
      (seq 0 (length rsi)).

(** [support_levels] after the loop [for i in range(10, len(prices))];
    the series is created empty, that is NaN everywhere. *)
Definition dc_support_levels (prices : list Q) : list fl :=
  map (fun i => if (10 <=? i)%nat
                then pd_min (map Fin (slice (i - 10) i prices))
                else NaN)
      (seq 0 (length prices)).

(** The condition of the SHORT loop at index [i] (run for [11 <= i]). *)
Definition dc_short_at (rsi_topped : list bool) (rsi : list fl)
  (prices : list Q) (support_levels : list fl) (i : nat) : bool :=
  nth i rsi_topped false
  && flt (nthf rsi i) (Fin 50)
  && fge (nthf rsi (i - 1)) (Fin 50)
  && flt (Fin (nth i prices 0)) (nthf support_levels i).

Definition dc_short_signals (signals : list Z) (rsi_topped : list bool)
  (rsi : list fl) (prices : list Q) (support_levels : list fl) : list Z :=
  map (fun i => if (11 <=? i)%nat
                   && dc_short_at rsi_topped rsi prices support_levels i
                then (-1)%Z else nth i signals 0%Z)
      (seq 0 (length signals)).

Definition dc_cover_condition (a : RSI1MinDoubleConfirmAlgorithm)
  (rsi : list fl) : list bool :=
  map2 andb
    (map (fun r => fle r (thr (dc_oversold_threshold a))) rsi)
    (map (fun r => fgt r (thr (dc_oversold_threshold a))) (shift1 rsi)).

Definition dc_generate_signals (a : RSI1MinDoubleConfirmAlgorithm)
  (prices : list Q) : option (list Z) :=
  match calculate_rsi (dc_period a) prices with
  | None => None
  | Some rsi =>
      let signals := full 0%Z prices in
      let rsi_topped := dc_rsi_topped a rsi in
      let support_levels := dc_support_levels prices in
      let signals := dc_short_signals signals rsi_topped rsi prices support_levels in
      Some (set_where signals (dc_cover_condition a rsi) 1%Z)
  end.

(** ** Trade simulation engine: [BacktestEngine] *)

(** One row of the candle frame: its index entry (a timestamp, in
    seconds), the close ([price]) and the candle low. *)
Record Row : Type := {
  timestamp : Z;
  price : Q;
  low : Q
}.

Definition DataFrame : Type := list Row.

Definition prices_of (data : DataFrame) : list Q := map price data.

Inductive Algorithm : Type :=
| AlgRSI (a : RSIAlgorithm)
| AlgDoubleConfirm (a : RSI1MinDoubleConfirmAlgorithm).

(** [algorithm.generate_signals(data)], dispatched on the class. *)
Definition generate_signals (alg : Algorithm) (data : DataFrame)
  : option (list Z) :=
  match alg with
  | AlgRSI a => rsi_generate_signals a (prices_of data)
  | AlgDoubleConfirm a => dc_generate_signals a (prices_of data)
  end.

Record BacktestEngine : Type := {
  algorithm : Algorithm;
  take_profit : Q;
  stop_loss : Q;
  commission : Q
}.

Inductive Side : Type := long | short.

Inductive ExitReason : Type := exit_take_profit | exit_stop_loss | exit_market_close.

Definition is_long_side (s : Side) : bool :=
  match s with long => true | short => false end.

Definition calculate_exit_price (e : BacktestEngine) (entry_price : Q)
  (is_long : bool) : Q * Q :=
  if is_long
  then (entry_price * (1 + take_profit e), entry_price * (1 + stop_loss e))
  else (entry_price * (1 - take_profit e), entry_price * (1 - stop_loss e)).

(** The [for i in range(entry_idx + 1, len(prices))] loop of
    [simulate_trade]; [rest] is [prices[i:]]. *)
Fixpoint scan_exit (e : BacktestEngine) (is_long : bool) (tp_price sl_price : Q)
  (i : nat) (rest : list Q) : option (nat * Q * ExitReason) :=
  match rest with
  | [] => None
  | current_price :: rest' =>
      if is_long then
        if Qle_bool tp_price current_price
        then Some (i, take_profit e - commission e * 2, exit_take_profit)
        else if Qle_bool current_price sl_price
        then Some (i, stop_loss e - commission e * 2, exit_stop_loss)
        else scan_exit e is_long tp_price sl_price (S i) rest'
      else
        if Qle_bool current_price tp_price
        then Some (i, take_profit e - commission e * 2, exit_take_profit)
        else if Qle_bool sl_price current_price
        then Some (i, - stop_loss e - commission e * 2, exit_stop_loss)
        else scan_exit e is_long tp_price sl_price (S i) rest'
  end.

(** [simulate_trade]: (exit_index, profit, exit_reason); [None] is the
    IndexError of [prices.iloc[entry_idx]] out of range. *)
Definition simulate_trade (e : BacktestEngine) (prices : list Q)
  (entry_idx : nat) (is_long : bool) : option (nat * fl * ExitReason) :=
  match nth_error prices entry_idx with
  | None => None
  | Some entry_price =>
      let '(tp_price, sl_price) := calculate_exit_price e entry_price is_long in
      match scan_exit e is_long tp_price sl_price (S entry_idx)
                      (skipn (S entry_idx) prices) with
      | Some (i, profit, reason) => Some (i, Fin profit, reason)
      | None =>
          let final_profit :=
            fdiv (Fin (last prices 0 - entry_price)) (Fin entry_price) in
          let final_profit := if is_long then final_profit else fneg final_profit in
          let final_profit := fsub final_profit (Fin (commission e * 2)) in
          Some ((length prices - 1)%nat, final_profit, exit_market_close)
      end
  end.

(** The trade being built ([current_trade] before it is completed). *)
Record OpenTrade : Type := {
  o_entry_time : Z;
  o_entry_price : Q;
  o_type : Side;
  o_entry_idx : nat
}.

Record Trade : Type := {
  entry_time : Z;
  entry_price : Q;
  type : Side;
  entry_idx : nat;
  exit_time : Z;
  exit_price : Q;
  profit_pct : fl;
  exit_reason : ExitReason
}.

Definition complete (t : OpenTrade) (xt : Z) (xp : Q) (pp : fl) (r : ExitReason)
  : Trade :=
  {| entry_time := o_entry_time t; entry_price := o_entry_price t;
     type := o_type t; entry_idx := o_entry_idx t;
     exit_time := xt; exit_price := xp; profit_pct := pp; exit_reason := r |}.

(** State of the [while i < len(data)] loop of [backtest]. *)
Record LoopState : Type := {
  trades_list : list Trade;
  current_trade : option OpenTrade;
  loop_i : nat
}.

(** One iteration of the loop body, for [i < len(data)]; [None] is an
    exception (an index out of range). *)
Definition backtest_body (e : BacktestEngine) (data : DataFrame)
  (signals : list Z) (st : LoopState) : option LoopState :=
  let i := loop_i st in
  match nth_error data i, nth_error signals i with
  | Some row, Some signal =>
      match current_trade st with
      | None =>
          let opened :=
            if (signal =? 1)%Z
            then Some {| o_entry_time := timestamp row; o_entry_price := price row;
                         o_type := long; o_entry_idx := i |}
            else if (signal =? -1)%Z
            then Some {| o_entry_time := timestamp row; o_entry_price := price row;
                         o_type := short; o_entry_idx := i |}
            else None in
          Some {| trades_list := trades_list st; current_trade := opened;
                  loop_i := S i |}
      | Some t =>
          match simulate_trade e (prices_of data) (o_entry_idx t)
                               (is_long_side (o_type t)) with
          | None => None
          | Some (exit_idx, profit, reason) =>
              match nth_error data exit_idx with
              | None => None
              | Some xrow =>
                  let done := complete t (timestamp xrow) (price xrow)
                                       (fmul profit (Fin 100)) reason in
                  Some {| trades_list := trades_list st ++ [done];
                          current_trade := None;
                          loop_i := S exit_idx |}
              end
          end
      end
  | _, _ => None
  end.

(** The loop, with [fuel] bounding the number of iterations; [None] also
    when the fuel runs out before the loop condition fails. *)
Fixpoint backtest_loop (fuel : nat) (e : BacktestEngine) (data : DataFrame)
  (signals : list Z) (st : LoopState) : option LoopState :=
  if (loop_i st <? length data)%nat
  then match fuel with
       | O => None
       | S fuel' =>
           match backtest_body e data signals st with
           | None => None
           | Some st' => backtest_loop fuel' e data signals st'
           end
       end
  else Some st.

(** "Handle any open trade at the end". *)
Definition close_open_trade (e : BacktestEngine) (data : DataFrame)
  (st : LoopState) : option (list Trade) :=
  match current_trade st with
  | None => Some (trades_list st)
  | Some t =>
      match data with
      | [] => None
      | _ :: _ =>
          let final_price := last (prices_of data) 0 in
          let entry_price := o_entry_price t in
          let final_profit :=
            if is_long_side (o_type t)
            then fdiv (Fin (final_price - entry_price)) (Fin entry_price)
            else fdiv (Fin (entry_price - final_price)) (Fin entry_price) in
          let final_profit := fsub final_profit (Fin (commission e * 2)) in
          let done := complete t (last (map timestamp data) 0%Z) final_price
                               (fmul final_profit (Fin 100)) exit_market_close in
          Some (trades_list st ++ [done])
      end
  end.

(** The trade list of [backtest] for a given signal series. *)
Definition backtest_trades (e : BacktestEngine) (data : DataFrame)
  (signals : list Z) : option (list Trade) :=
  match backtest_loop (length data) e data signals
          {| trades_list := []; current_trade := None; loop_i := 1 |} with
  | None => None
  | Some st => close_open_trade e data st
  end.

(** ** Metrics aggregator: [calculate_performance_metrics] *)

Record Metrics : Type := {
  total_trades : nat;
  win_rate : Q;
  avg_profit : fl;
  total_profit : fl;
  max_drawdown : fl;
  profit_factor : fl;
  long_trades : nat;
  short_trades : nat;
  avg_trade_duration : Q;
  take_profit_exits : nat;
  stop_loss_exits : nat;
  market_close_exits : nat
}.

Definition zero_metrics : Metrics :=
  {| total_trades := 0; win_rate := 0; avg_profit := Fin 0;
     total_profit := Fin 0; max_drawdown := Fin 0; profit_factor := Fin 0;
     long_trades := 0; short_trades := 0; avg_trade_duration := 0;
     take_profit_exits := 0; stop_loss_exits := 0; market_close_exits := 0 |}.

(** pandas [sum()], [mean()], [cumsum()], [cummax()]: NaN entries are
    skipped; the cumulative ones leave NaN in their place. *)
Definition pd_sum (s : list fl) : fl :=
  fold_left (fun acc x => if is_nan x then acc else fadd acc x) s (Fin 0).

Definition pd_count (s : list fl) : nat :=
  length (filter (fun x => negb (is_nan x)) s).

Definition Qnat (n : nat) : Q := inject_Z (Z.of_nat n).

Definition pd_mean (s : list fl) : fl :=
  match pd_count s with
  | O => NaN
  | S _ => fdiv (pd_sum s) (Fin (Qnat (pd_count s)))
  end.

Fixpoint cumsum_from (acc : fl) (s : list fl) : list fl :=
  match s with
  | [] => []
  | x :: s' =>
      let acc' := fadd acc (if is_nan x then Fin 0 else x) in
      (if is_nan x then NaN else acc') :: cumsum_from acc' s'
  end.

Definition cumsum (s : list fl) : list fl := cumsum_from (Fin 0) s.

(** [np.maximum]: the larger value, NaN if either is NaN. *)
Definition np_maximum (a b : fl) : fl :=
  if is_nan a || is_nan b then NaN else if fgt b a then b else a.

Fixpoint cummax_from (acc : fl) (s : list fl) : list fl :=
  match s with
  | [] => []
  | x :: s' =>
      let acc' := np_maximum acc (if is_nan x then NInf else x) in
      (if is_nan x then NaN else acc') :: cummax_from acc' s'
  end.

Definition cummax (s : list fl) : list fl := cummax_from NInf s.

Definition side_eqb (a b : Side) : bool :=
  match a, b with
  | long, long | short, short => true
  | _, _ => false
  end.

Definition reason_eqb (a b : ExitReason) : bool :=
  match a, b with
  | exit_take_profit, exit_take_profit
  | exit_stop_loss, exit_stop_loss
  | exit_market_close, exit_market_close => true
  | _, _ => false
  end.

Definition count_reason (r : ExitReason) (trades_df : list Trade) : nat :=
  length (filter (fun t => reason_eqb (exit_reason t) r) trades_df).

Definition winning_trades (trades_df : list Trade) : list Trade :=
  filter (fun t => fgt (profit_pct t) (Fin 0)) trades_df.

Definition losing_trades (trades_df : list Trade) : list Trade :=
  filter (fun t => fle (profit_pct t) (Fin 0)) trades_df.

Definition calculate_performance_metrics (trades_df : list Trade) : Metrics :=
  match trades_df with
  | [] => zero_metrics
  | _ :: _ =>
      let profits := map profit_pct trades_df in
      let winning := winning_trades trades_df in
      let losing := losing_trades trades_df in
      let total := pd_sum profits in
      let cumulative_profits := cumsum profits in
      let drawdown :=
        pd_max (map2 fsub (cummax cumulative_profits) cumulative_profits) in
      let losing_sum := pd_sum (map profit_pct losing) in
      let factor :=
        if (0 <? length losing)%nat && fne losing_sum (Fin 0)
        then fdiv (fabs (pd_sum (map profit_pct winning))) (fabs losing_sum)
        else PInf in
      let durations :=
        map (fun t => (exit_time t - entry_time t)%Z) trades_df in
      {| total_trades := length trades_df;
         win_rate := Qnat (length winning) / Qnat (length trades_df) * 100;
         avg_profit := pd_mean profits;
         total_profit := total;
         max_drawdown := drawdown;
         profit_factor := factor;
         long_trades := length (filter (fun t => side_eqb (type t) long) trades_df);
         short_trades := length (filter (fun t => side_eqb (type t) short) trades_df);
         avg_trade_duration :=
           inject_Z (fold_left Z.add durations 0%Z)
             / Qnat (length trades_df) / 60;
         take_profit_exits := count_reason exit_take_profit trades_df;
         stop_loss_exits := count_reason exit_stop_loss trades_df;
         market_close_exits := count_reason exit_market_close trades_df |}
  end.

(** [BacktestEngine.backtest]: the trades and their metrics. *)
Definition backtest (e : BacktestEngine) (data : DataFrame)
  : option (list Trade * Metrics) :=
  match generate_signals (algorithm e) data with
  | None => None
  | Some signals =>
      match backtest_trades e data signals with
      | None => None
      | Some trades_df =>
          Some (trades_df, calculate_performance_metrics trades_df)
      end
  end.

(** ** Parameter optimizer: [ParameterOptimizer] *)

Record ParamSet : Type := {
  p_period : Z;
  p_oversold_threshold : Z;
  p_overbought_threshold : Z;
  p_take_profit : Q;
  p_stop_loss : Q
}.

(** The ranges a strategy offers ([get_parameter_ranges]). *)
Record AlgoRanges : Type := {
  r_period : list Z;
  r_oversold_threshold : list Z;
  r_overbought_threshold : list Z
}.

(** The risk entries of a [settings.*_PARAMS] dictionary. *)
Record RiskRanges : Type := {
  r_take_profit : list Q;
  r_stop_loss : list Q
}.

Definition get_parameter_ranges (alg : Algorithm) : AlgoRanges :=
  match alg with
  | AlgRSI _ =>
      {| r_period := [10; 12; 14; 16; 18; 20]%Z;
         r_oversold_threshold := [20; 25; 30; 35]%Z;
         r_overbought_threshold := [65; 70; 75; 80]%Z |}
  | AlgDoubleConfirm _ =>
      {| r_period := [10; 12; 14; 16; 18; 20]%Z;
         r_oversold_threshold := [15; 20; 25; 30; 35]%Z;
         r_overbought_threshold := [65; 70; 75; 80; 85]%Z |}
  end.

(** [AlgorithmFactory.create_algorithm(name, **params)]; an absent
    keyword takes the constructor's default; [None] is the ValueError for
    an unknown name. *)
Definition create_algorithm (name : string)
  (period oversold overbought : option Z) : option Algorithm :=
  let pe := match period with Some v => v | None => 14%Z end in
  let os := match oversold with Some v => v | None => 30%Z end in
  let ob := match overbought with Some v => v | None => 70%Z end in
  if String.eqb name "RSI"
  then Some (AlgRSI {| rsi_period := pe; rsi_oversold_threshold := os;
                       rsi_overbought_threshold := ob |})
  else if String.eqb name "RSI_1MIN_DOUBLE_CONFIRM"
  then Some (AlgDoubleConfirm {| dc_period := pe; dc_oversold_threshold := os;
                                 dc_overbought_threshold := ob |})
  else None.

(** [itertools.product] over the five ranges, in the order of the keys. *)
Definition product_combinations (a : AlgoRanges) (r : RiskRanges) : list ParamSet :=
  flat_map (fun pe =>
  flat_map (fun os =>
  flat_map (fun ob =>
  flat_map (fun tp =>
  map (fun sl =>
         {| p_period := pe; p_oversold_threshold := os;
            p_overbought_threshold := ob;
            p_take_profit := tp; p_stop_loss := sl |})
      (r_stop_loss r))
    (r_take_profit r))
    (r_overbought_threshold a))
    (r_oversold_threshold a))
    (r_period a).

(** A row of [self.results]. *)
Record ResultRow : Type := {
  row_params : ParamSet;
  row_win_rate : Q;
  row_total_trades : nat;
  row_total_profit : fl;
  row_profit_factor : fl;
  row_max_drawdown : fl;
  row_avg_profit : fl
}.

Record BestResult : Type := {
  best_total_profit : fl;
  best_parameters : option ParamSet;
  best_metrics : option Metrics;
  best_trades_df : option (list Trade)
}.

Definition initial_best : BestResult :=
  {| best_total_profit := NInf; best_parameters := None;
     best_metrics := None; best_trades_df := None |}.

Section Optimizer.

(** Constants of the settings module that the optimizer reads. *)
Variable RSI_PARAMS MACD_PARAMS SUPPORT_VOLUME_PARAMS VOL24_PARAMS SMA_PARAMS
  : RiskRanges.
Variable COMMISSION_RATE : Q.
Variable MIN_TRADES_THRESHOLD : Z.

(** [get_parameter_combinations]; [None] is a ValueError, raised for a
    name without settings or by the factory.  The MACD and SMA filters
    are never reached: the factory knows neither name. *)
Definition get_parameter_combinations (algorithm_name : string)
  : option (list ParamSet) :=
  let param_ranges :=
    if String.eqb algorithm_name "RSI" then Some RSI_PARAMS
    else if String.eqb algorithm_name "MACD" then Some MACD_PARAMS
    else if String.eqb algorithm_name "SUPPORT_VOLUME" then Some SUPPORT_VOLUME_PARAMS
    else if String.eqb algorithm_name "VOL24" then Some VOL24_PARAMS
    else if String.eqb algorithm_name "SMA" then Some SMA_PARAMS
    else None in
  match param_ranges with
  | None => None
  | Some param_ranges =>
      match create_algorithm algorithm_name None None None with
      | None => None
      | Some algorithm =>
          Some (product_combinations (get_parameter_ranges algorithm) param_ranges)
      end
  end.

(** The body of the [try] block for one combination: the backtest of the
    strategy built from it; [None] is an exception, which the loop skips. *)
Definition evaluate (algorithm_name : string) (data : DataFrame)
  (params : ParamSet) : option (list Trade * Metrics) :=
  match create_algorithm algorithm_name (Some (p_period params))
          (Some (p_oversold_threshold params))
          (Some (p_overbought_threshold params)) with
  | None => None
  | Some algorithm =>
      backtest {| algorithm := algorithm;
                  take_profit := p_take_profit params;
                  stop_loss := p_stop_loss params;
                  commission := COMMISSION_RATE |} data
  end.

Definition result_row (params : ParamSet) (metrics : Metrics) : ResultRow :=
  {| row_params := params;
     row_win_rate := win_rate metrics;
     row_total_trades := total_trades metrics;
     row_total_profit := total_profit metrics;
     row_profit_factor := profit_factor metrics;
     row_max_drawdown := max_drawdown metrics;
     row_avg_profit := avg_profit metrics |}.

(** One iteration of [for i, params in enumerate(combinations)] on the
    pair ([self.results], [best_result]). *)
Definition optimize_step (algorithm_name : string) (data : DataFrame)
  (acc : list ResultRow * BestResult) (params : ParamSet)
  : list ResultRow * BestResult :=
  let '(results, best_result) := acc in
  match evaluate algorithm_name data params with
  | None => (results, best_result)
  | Some (trades_df, metrics) =>
      let results := results ++ [result_row params metrics] in
      if fgt (total_profit metrics) (best_total_profit best_result)
         && (MIN_TRADES_THRESHOLD <=? Z.of_nat (total_trades metrics))%Z
      then (results,
            {| best_total_profit := total_profit metrics;
               best_parameters := Some params;
               best_metrics := Some metrics;
               best_trades_df := Some trades_df |})
      else (results, best_result)
  end.

Definition optimize_loop (algorithm_name : string) (data : DataFrame)
  (combinations : list ParamSet) (results : list ResultRow)
  : list ResultRow * BestResult :=
  fold_left (optimize_step algorithm_name data) combinations
            (results, initial_best).

(** [optimize]: [self.results] afterwards (it is empty in a fresh
    optimizer) and the returned best result. *)
Definition optimize (algorithm_name : string) (data : DataFrame)
  : option (list ResultRow * BestResult) :=
  match get_parameter_combinations algorithm_name with
  | None => None
  | Some combinations => Some (optimize_loop algorithm_name data combinations [])
  end.

End Optimizer.

(** ** Live double-confirm state machine: [PAXGPanel] *)

Module Panel.

Record PAXGPanel : Type := {
  rsi_period : Z;
  oversold_threshold : Z;
  overbought_threshold : Z;
  last_rsi_values : list fl;
  rsi_topped : bool;
  support_level : option fl;
  rsi_value : option fl
}.

(** The panel as [__init__] leaves it, with the three values it loads
    from the settings module. *)
Definition init (period oversold overbought : Z) : PAXGPanel :=
  {| rsi_period := period; oversold_threshold := oversold;
     overbought_threshold := overbought;
     last_rsi_values := []; rsi_topped := false; support_level := None;
     rsi_value := None |}.

(** [settings.BOT_RSI_PERIOD], [BOT_RSI_OVERSOLD], [BOT_RSI_OVERBOUGHT]. *)
Definition BOT_RSI_PERIOD : Z := 10.
Definition BOT_RSI_OVERSOLD : Z := 20.
Definition BOT_RSI_OVERBOUGHT : Z := 65.

(** The panel's [calculate_rsi]: the last value of the series,
    [Some None] for fewer than [rsi_period + 1] prices; the outer [None]
    is the ValueError of a span below 1. *)
Definition calculate_rsi (p : PAXGPanel) (prices : list Q) : option (option fl) :=
  if (Z.of_nat (length prices) <? rsi_period p + 1)%Z then Some None
  else match calculate_rsi (rsi_period p) prices with
       | None => None
       | Some rsi => Some (Some (last rsi NaN))
       end.

(** Python's builtin [max] on a non-empty list: the first element unless
    a later one compares greater. *)
Definition py_max (l : list fl) : fl :=
  match l with
  | [] => NaN
  | x :: l' => fold_left (fun m y => if fgt y m then y else m) l' x
  end.

(** [l[-k:]] and [l[-k]]. *)
Definition lastn {A} (k : nat) (l : list A) : list A := skipn (length l - k) l.
Definition from_end (l : list fl) (k : nat) : fl := nth (length l - k) l NaN.

Definition update_rsi_state (p : PAXGPanel) (current_rsi : fl) (df : DataFrame)
  : PAXGPanel :=
  let values := last_rsi_values p ++ [current_rsi] in
  let values := if (10 <? length values)%nat then tl values else values in
  let topped :=
    if (3 <=? length values)%nat then
      let recent_high := py_max (lastn 10 values) in
      if fge recent_high (thr (overbought_threshold p)) then true
      else if (3 <=? length values)%nat
              && fgt (from_end values 2) (from_end values 3)
              && fgt (from_end values 2) (from_end values 1)
              && fgt (from_end values 2) (Fin 60)
           then true
           else rsi_topped p
    else rsi_topped p in
  let support :=
    if (10 <=? length df)%nat
    then Some (pd_min (map Fin (lastn 10 (map low df))))
    else support_level p in
  {| rsi_period := rsi_period p; oversold_threshold := oversold_threshold p;
     overbought_threshold := overbought_threshold p;
     last_rsi_values := values; rsi_topped := topped;
     support_level := support; rsi_value := rsi_value p |}.

Definition check_short_signal (p : PAXGPanel) (current_rsi : fl)
  (current_price : Q) : bool :=
  match support_level p with
  | None => false
  | Some support =>
      if negb (rsi_topped p) then false
      else
        let rsi_crossed_below_50 :=
          if (2 <=? length (last_rsi_values p))%nat
          then flt (from_end (last_rsi_values p) 1) (Fin 50)
               && fge (from_end (last_rsi_values p) 2) (Fin 50)
          else flt current_rsi (Fin 50) in
        let price_broke_support := flt (Fin current_price) support in
        rsi_crossed_below_50 && price_broke_support
  end.

Definition check_cover_signal (p : PAXGPanel) (current_rsi : fl) : bool :=
  if (2 <=? length (last_rsi_values p))%nat
  then fle current_rsi (thr (oversold_threshold p))
       && fgt (from_end (last_rsi_values p) 2) (thr (oversold_threshold p))
  else fle current_rsi (thr (oversold_threshold p)).

(** The end of [close_position]: the flag is cleared when the exchange
    reports the closing order as done. *)
Definition close_position (p : PAXGPanel) (order_ok : bool) : PAXGPanel :=
  if order_ok
  then {| rsi_period := rsi_period p; oversold_threshold := oversold_threshold p;
          overbought_threshold := overbought_threshold p;
          last_rsi_values := last_rsi_values p; rsi_topped := false;
          support_level := support_level p; rsi_value := rsi_value p |}
  else p.

Definition set_rsi_value (p : PAXGPanel) (v : option fl) : PAXGPanel :=
  {| rsi_period := rsi_period p; oversold_threshold := oversold_threshold p;
     overbought_threshold := overbought_threshold p;
     last_rsi_values := last_rsi_values p; rsi_topped := rsi_topped p;
     support_level := support_level p; rsi_value := v |}.

(** The oscillator part of [update_data], [df] being the candles just
    fetched.  An exception is swallowed by the enclosing [try] and leaves
    the panel as it was. *)
Definition update_data (p : PAXGPanel) (df : DataFrame) : PAXGPanel :=
  if (rsi_period p + 1 <=? Z.of_nat (length df))%Z
  then match calculate_rsi p (prices_of df) with
       | None => p
       | Some None => set_rsi_value p None
       | Some (Some v) => update_rsi_state (set_rsi_value p (Some v)) v df
       end
  else p.

End Panel.

(** [get_recent_candles(limit)]: the request to the exchange, whose body
    is not part of the sources; the exchange answers with the latest
    [limit] one-minute candles of the [history] it has, all of them when
    it has fewer. *)
Definition get_recent_candles (limit : Z) (history : DataFrame) : DataFrame :=
  Panel.lastn (Z.to_nat limit) history.

(** States of the panel after each candle of [data] has arrived.  At each
    update the exchange has the candles received so far, and
    [update_data] computes on the frame that
    [get_recent_candles(limit=self.rsi_period + 50)] returns: the latest
    [rsi_period + 50] of them. *)
Fixpoint feed_from (p : Panel.PAXGPanel) (seen rest : DataFrame)
  : list Panel.PAXGPanel :=
  match rest with
  | [] => []
  | row :: rest' =>
      let history := seen ++ [row] in
      let df := get_recent_candles (Panel.rsi_period p + 50) history in
      let p' := Panel.update_data p df in
      p' :: feed_from p' history rest'
  end.

Definition feed (p : Panel.PAXGPanel) (data : DataFrame) : list Panel.PAXGPanel :=
  feed_from p [] data.

(** [AlgorithmFactory.get_available_algorithms] *)
Definition get_available_algorithms : list string :=
  ["RSI"; "RSI_1MIN_DOUBLE_CONFIRM"]%string.

(** [fetch_binance_data]: the number of one-minute candles requested
    for [days] days. *)
Definition candle_limit (days : Z) : Z := Z.min (days * 24 * 60) 1000.

(** [PAXGPanel.add_log], [timestamp] being the formatted time of the
    call. *)
Definition add_log (max_logs : nat) (bot_logs : list string)
  (timestamp message : string) : list string :=
  let logs := bot_logs ++ [("[" ++ timestamp ++ "] " ++ message)%string] in
  if (max_logs <? length logs)%nat then tl logs else logs.

(** * Notions used in the statements, and sample inputs *)

(** A finite, non-negative value. *)
Definition nonneg (a : fl) : Prop :=
  match a with Fin x => 0 <= x | _ => False end.

Definition nan_or_fin (a : fl) : Prop :=
  match a with NaN | Fin _ => True | _ => False end.

Definition nan_or_in_range (lo hi : Q) (a : fl) : Prop :=
  a = NaN \/ in_range lo hi a.

Definition crosses_up (level prev cur : fl) : Prop :=
  fle prev level = true /\ fgt cur level = true.

Definition crosses_down (level prev cur : fl) : Prop :=
  fge prev level = true /\ flt cur level = true.

(** The frame's index is strictly increasing. *)
Definition increasing_index (data : DataFrame) : Prop :=
  forall i j ri rj,
    nth_error data i = Some ri -> nth_error data j = Some rj ->
    (i < j)%nat -> (timestamp ri < timestamp rj)%Z.

Definition at_row (data : DataFrame) (idx : nat) (time : Z) (p : Q) : Prop :=
  exists row, nth_error data idx = Some row /\ timestamp row = time /\ price row = p.

(** The trade was completed inside the loop, by [simulate_trade], at
    index [x]. *)
Definition closed_by_scan (e : BacktestEngine) (data : DataFrame) (t : Trade)
  (x : nat) : Prop :=
  exists profit,
    simulate_trade e (prices_of data) (entry_idx t) (is_long_side (type t))
      = Some (x, profit, exit_reason t) /\
    profit_pct t = fmul profit (Fin 100) /\
    at_row data x (exit_time t) (exit_price t) /\
    (entry_idx t < x)%nat.

Definition forced_profit_pct (e : BacktestEngine) (data : DataFrame) (t : Trade) : fl :=
  let final_price := last (prices_of data) 0 in
  let final_profit :=
    if is_long_side (type t)
    then fdiv (Fin (final_price - entry_price t)) (Fin (entry_price t))
    else fdiv (Fin (entry_price t - final_price)) (Fin (entry_price t)) in
  fmul (fsub final_profit (Fin (commission e * 2))) (Fin 100).

(** The trade was opened at the last index and completed after the loop. *)
Definition closed_at_end (e : BacktestEngine) (data : DataFrame) (t : Trade)
  (x : nat) : Prop :=
  S (entry_idx t) = length data /\ x = entry_idx t /\
  exit_reason t = exit_market_close /\
  at_row data x (exit_time t) (exit_price t) /\
  profit_pct t = forced_profit_pct e data t.

(** What is known of a finished trade: where it was opened and how it was
    closed, at an index below [bound]. *)
Definition trade_ok (e : BacktestEngine) (data : DataFrame) (bound : nat)
  (t : Trade) : Prop :=
  exists x, (x < bound)%nat /\
    at_row data (entry_idx t) (entry_time t) (entry_price t) /\
    (closed_by_scan e data t x \/ closed_at_end e data t x).

(** Consecutive trades do not overlap: each exit is strictly before the
    next entry. *)
Inductive chain : list Trade -> Prop :=
| chain_nil : chain []
| chain_one t : chain [t]
| chain_cons t1 t2 l :
    (exit_time t1 < entry_time t2)%Z -> chain (t2 :: l) -> chain (t1 :: t2 :: l).

Definition scan_bound (st : LoopState) : nat :=
  match current_trade st with
  | Some t => o_entry_idx t
  | None => loop_i st
  end.

Definition loop_inv (e : BacktestEngine) (data : DataFrame) (st : LoopState) : Prop :=
  (1 <= loop_i st)%nat /\
  chain (trades_list st) /\
  Forall (trade_ok e data (scan_bound st)) (trades_list st) /\
  match current_trade st with
  | Some t => S (o_entry_idx t) = loop_i st /\
              at_row data (o_entry_idx t) (o_entry_time t) (o_entry_price t)
  | None => True
  end.

(** What a finished trade list looks like. *)
Definition trades_ok (e : BacktestEngine) (data : DataFrame) (trades : list Trade)
  : Prop :=
  chain trades /\ Forall (trade_ok e data (length data)) trades.

Definition non_overlapping (trades : list Trade) : Prop :=
  forall i t1 t2,
    nth_error trades i = Some t1 -> nth_error trades (S i) = Some t2 ->
    (exit_time t1 < entry_time t2)%Z.

Fixpoint increasing_timestamps (l : list Z) : bool :=
  match l with
  | a :: (b :: _) as l' => (a <? b)%Z && increasing_timestamps l'
  | _ => true
  end.

(** A candle frame from (timestamp, close) pairs, the low equal to the
    close. *)
Definition candles (l : list (Z * Q)) : DataFrame :=
  map (fun tp => {| timestamp := fst tp; price := snd tp; low := snd tp |}) l.

Definition sample_rsi : Algorithm :=
  AlgRSI {| rsi_period := 1; rsi_oversold_threshold := 30;
            rsi_overbought_threshold := 70 |}.

(** The default risk parameters of [BacktestEngine]. *)
Definition sample_engine : BacktestEngine :=
  {| algorithm := sample_rsi; take_profit := 1 # 100;
     stop_loss := - (5 # 1000); commission := 1 # 1000 |}.

Definition sample_two_trades : DataFrame :=
  candles [(0%Z, 10); (60%Z, 9); (120%Z, 10); (180%Z, 9); (240%Z, 10); (300%Z, 11)].

Definition sample_entry_at_end : DataFrame :=
  candles [(0%Z, 10); (60%Z, 9); (120%Z, 10)].

(** The take-profit, respectively stop-loss, level is reached at price [p]. *)
Definition tp_reached (is_long : bool) (tp_price p : Q) : Prop :=
  if is_long then tp_price <= p else p <= tp_price.

Definition sl_reached (is_long : bool) (sl_price p : Q) : Prop :=
  if is_long then p <= sl_price else sl_price <= p.

(** The profit [simulate_trade] reports for each bracket exit. *)
Definition bracket_profit (e : BacktestEngine) (is_long : bool) (r : ExitReason)
  (profit : Q) : Prop :=
  match r with
  | exit_take_profit => profit = take_profit e - commission e * 2
  | exit_stop_loss =>
      profit = (if is_long then stop_loss e else - stop_loss e) - commission e * 2
  | exit_market_close => False
  end.

Definition sample_short_stopped : DataFrame :=
  candles [(0%Z, 10); (60%Z, 11); (120%Z, 10); (180%Z, 11)].

Definition sample_winner : Trade :=
  {| entry_time := 240; entry_price := 10; type := long; entry_idx := 4;
     exit_time := 300; exit_price := 11; profit_pct := Fin (8 # 10);
     exit_reason := exit_take_profit |}.

Definition sample_dc : RSI1MinDoubleConfirmAlgorithm :=
  {| dc_period := 1; dc_oversold_threshold := 30; dc_overbought_threshold := 70 |}.

(** Twelve rising closes, then a fall below the lowest of the last ten. *)
Definition sample_rise_then_break : list Q :=
  [10; 11; 12; 13; 14; 15; 16; 17; 18; 19; 20; 21; 5].

(** A panel with the bot's settings whose flag is set, the last ten
    oscillator values all far below the overbought threshold. *)
Definition sample_topped_panel : Panel.PAXGPanel :=
  {| Panel.rsi_period := Panel.BOT_RSI_PERIOD;
     Panel.oversold_threshold := Panel.BOT_RSI_OVERSOLD;
     Panel.overbought_threshold := Panel.BOT_RSI_OVERBOUGHT;
     Panel.last_rsi_values := map Fin [40; 40; 40; 40; 40; 40; 40; 40; 40; 40];
     Panel.rsi_topped := true;
     Panel.support_level := None;
     Panel.rsi_value := Some (Fin 40) |}.

(** Closes that rise once and then fall for eleven samples. *)
Definition sample_rise_then_slide : list Q :=
  [10; 11; 10; 9; 8; 7; 6; 5; 4; 3; 2; 1; 1 # 2].

(** The oscillator value the live panel computes when candle [i] of
    [data] arrives: the last value of the oscillator of the frame it
    fetches then. *)
Definition live_rsi_at (period : Z) (data : DataFrame) (i : nat) : fl :=
  match calculate_rsi period
          (prices_of (get_recent_candles (period + 50) (firstn (S i) data))) with
  | Some rsi => last rsi NaN
  | None => NaN
  end.

Definition live_rsi (period : Z) (data : DataFrame) : list fl :=
  map (live_rsi_at period data) (seq 0 (length data)).

(** The oscillator values the live panel holds after [k] candles of a
    series, [rsi] being the values it computed candle by candle: the
    last ten of those from index [period] on. *)
Definition fed_values (period : Z) (rsi : list fl) (k : nat) : list fl :=
  Panel.lastn 10 (skipn (Z.to_nat period) (firstn k rsi)).

Definition panel_tracks (a : RSI1MinDoubleConfirmAlgorithm) (rsi : list fl)
  (p : Panel.PAXGPanel) (k : nat) : Prop :=
  Panel.rsi_period p = dc_period a /\
  Panel.oversold_threshold p = dc_oversold_threshold a /\
  Panel.overbought_threshold p = dc_overbought_threshold a /\
  Panel.last_rsi_values p = fed_values (dc_period a) rsi k.

Definition bot_dc : RSI1MinDoubleConfirmAlgorithm :=
  {| dc_period := Panel.BOT_RSI_PERIOD;
     dc_oversold_threshold := Panel.BOT_RSI_OVERSOLD;
     dc_overbought_threshold := Panel.BOT_RSI_OVERBOUGHT |}.

Definition bot_panel : Panel.PAXGPanel :=
  Panel.init Panel.BOT_RSI_PERIOD Panel.BOT_RSI_OVERSOLD Panel.BOT_RSI_OVERBOUGHT.

(** Eleven flat closes at 100, a jump to 110, a fall to 99. *)
Definition sample_jump_then_break : DataFrame :=
  candles [(0%Z, 100); (60%Z, 100); (120%Z, 100); (180%Z, 100); (240%Z, 100);
           (300%Z, 100); (360%Z, 100); (420%Z, 100); (480%Z, 100); (540%Z, 100);
           (600%Z, 100); (660%Z, 110); (720%Z, 99)].

(** Sixty-one candles: a close of 1, fifty-nine closes of 100001, a
    close of 100000. *)
Definition sample_early_jump : DataFrame :=
  candles (map (fun k => ((Z.of_nat k * 60)%Z,
                          if (k =? 0)%nat then 1
                          else if (k =? 60)%nat then 100000 else 100001))
               (seq 0 61)).

Definition positive_prices (data : DataFrame) : Prop :=
  forall row, In row data -> 0 < price row.

Definition is_fin (a : fl) : Prop := exists q, a = Fin q.

Definition sample_risk : RiskRanges :=
  {| r_take_profit := [1 # 100]; r_stop_loss := [- (5 # 1000)] |}.

Section OptimizerNotions.

Variable COMMISSION_RATE : Q.
Variable MIN_TRADES_THRESHOLD : Z.
Variable algorithm_name : string.
Variable data : DataFrame.

(** The combinations whose evaluation did not raise, in order, with their
    metrics. *)
Definition evaluated (combinations : list ParamSet) : list (ParamSet * Metrics) :=
  flat_map (fun params =>
              match evaluate COMMISSION_RATE algorithm_name data params with
              | Some (_, metrics) => [(params, metrics)]
              | None => []
              end) combinations.

Definition meets_threshold (metrics : Metrics) : Prop :=
  (MIN_TRADES_THRESHOLD <= Z.of_nat (total_trades metrics))%Z.

(** [best] is the right answer for the evaluated combinations [E]. *)
Definition best_of (E : list (ParamSet * Metrics)) (best : BestResult) : Prop :=
  match best_parameters best with
  | None =>
      best = initial_best /\
      forall pm, In pm E -> ~ meets_threshold (snd pm)
  | Some params =>
      exists metrics,
        best_metrics best = Some metrics /\
        In (params, metrics) E /\
        meets_threshold metrics /\
        best_total_profit best = total_profit metrics /\
        forall pm, In pm E -> meets_threshold (snd pm) ->
                   fle (total_profit (snd pm)) (total_profit metrics) = true
  end.

End OptimizerNotions.

(** ** Notions used in the further properties *)

(** The [gain] and [loss] series of [calculate_rsi]. *)
Definition gain_series (prices : list Q) : list fl :=
  where_or_zero (fun d => fgt d (Fin 0)) (diff prices).

Definition loss_series (prices : list Q) : list fl :=
  map fneg (where_or_zero (fun d => flt d (Fin 0)) (diff prices)).

(** A finite, strictly positive value. *)
Definition positive (a : fl) : Prop :=
  match a with Fin x => 0 < x | _ => False end.

Definition is_signal (z : Z) : Prop := z = (-1)%Z \/ z = 0%Z \/ z = 1%Z.

(** The signal on which a position of this side is opened. *)
Definition entry_signal (s : Side) : Z :=
  match s with long => 1%Z | short => (-1)%Z end.

Definition opened_on (signals : list Z) (idx : nat) (s : Side) : Prop :=
  (1 <= idx)%nat /\ nth_error signals idx = Some (entry_signal s).

Definition origin_inv (signals : list Z) (st : LoopState) : Prop :=
  (1 <= loop_i st)%nat /\
  Forall (fun t => opened_on signals (entry_idx t) (type t)) (trades_list st) /\
  match current_trade st with
  | Some t => opened_on signals (o_entry_idx t) (o_type t)
  | None => True
  end.

Definition flat_prices (data : DataFrame) : Prop :=
  forall i, (i < length data)%nat ->
            nth i (prices_of data) 0 == nth 0 (prices_of data) 0.

Definition algorithm_period (alg : Algorithm) : Z :=
  match alg with
  | AlgRSI a => rsi_period a
  | AlgDoubleConfirm a => dc_period a
  end.

Definition sample_flat : DataFrame :=
  candles [(0%Z, 100); (60%Z, 100); (120%Z, 100); (180%Z, 100)].

Definition nonpos_fin (a : fl) : Prop := exists q, a = Fin q /\ q <= 0.

Definition sample_break_even : Trade :=
  {| entry_time := 60; entry_price := 10; type := long; entry_idx := 1;
     exit_time := 120; exit_price := 10; profit_pct := Fin 0;
     exit_reason := exit_market_close |}.

Section OptimizerTieNotions.

Variable MIN_TRADES_THRESHOLD : Z.

(** The selected combination sits in the evaluated list after
    qualifying combinations of strictly smaller total_profit only, and
    before qualifying combinations of at most its total_profit. *)
Definition first_best_of (E : list (ParamSet * Metrics)) (best : BestResult) : Prop :=
  match best_parameters best with
  | None =>
      best = initial_best /\
      forall pm, In pm E -> ~ meets_threshold MIN_TRADES_THRESHOLD (snd pm)
  | Some params =>
      exists metrics E1 E2,
        E = E1 ++ (params, metrics) :: E2 /\
        best_metrics best = Some metrics /\
        meets_threshold MIN_TRADES_THRESHOLD metrics /\
        best_total_profit best = total_profit metrics /\
        (forall pm, In pm E1 -> meets_threshold MIN_TRADES_THRESHOLD (snd pm) ->
                    flt (total_profit (snd pm)) (total_profit metrics) = true) /\
        (forall pm, In pm E2 -> meets_threshold MIN_TRADES_THRESHOLD (snd pm) ->
                    fle (total_profit (snd pm)) (total_profit metrics) = true)
  end.

End OptimizerTieNotions.

(** * Properties *)

(** ** Float comparisons *)

Lemma Qltb_lt (a b : Q) : Qltb a b = true <-> a < b.
Proof.
  unfold Qltb. rewrite negb_true_iff. split; intro H.
  - apply Qnot_le_lt. intro Hle. apply Qle_bool_iff in Hle. congruence.
  - destruct (Qle_bool b a) eqn:E; [|reflexivity].
    apply Qle_bool_iff in E. lra.
Qed.

Lemma Qltb_ge (a b : Q) : Qltb a b = false <-> b <= a.
Proof.
  unfold Qltb. rewrite negb_false_iff. apply Qle_bool_iff.
Qed.

Lemma Qeq_bool_false (a b : Q) : Qeq_bool a b = false <-> ~ a == b.
Proof.
  split; intro H.
  - intro E. apply Qeq_bool_iff in E. congruence.
  - destruct (Qeq_bool a b) eqn:E; [|reflexivity].
    apply Qeq_bool_iff in E. contradiction.
Qed.

(** ** Indicator engine *)

Lemma diff_from_length prev ps : length (diff_from prev ps) = length ps.
Proof. revert prev; induction ps; simpl; intros; auto. Qed.

Lemma diff_length prices : length (diff prices) = length prices.
Proof. destruct prices; simpl; auto using diff_from_length. Qed.

Lemma diff_from_fin prev ps : Forall nan_or_fin (diff_from prev ps).
Proof. revert prev; induction ps; simpl; intros; constructor; simpl; auto. Qed.

Lemma diff_nan_or_fin prices : Forall nan_or_fin (diff prices).
Proof.
  destruct prices; simpl; constructor; simpl; auto using diff_from_fin.
Qed.

Lemma ewm_from_length alpha w xs : length (ewm_from alpha w xs) = length xs.
Proof. revert w; induction xs; simpl; intros; auto. Qed.

Lemma ewm_mean_length span xs : length (ewm_mean span xs) = length xs.
Proof. destruct xs; simpl; auto using ewm_from_length. Qed.

Lemma map2_length {A B C} (f : A -> B -> C) l1 l2 :
  length l1 = length l2 -> length (map2 f l1 l2) = length l1.
Proof.
  revert l2; induction l1; destruct l2; simpl; intros; try congruence.
  f_equal; auto.
Qed.

Lemma map2_Forall {A B C} (f : A -> B -> C) (P : A -> Prop) (R : B -> Prop)
  (S : C -> Prop) l1 l2 :
  (forall a b, P a -> R b -> S (f a b)) ->
  Forall P l1 -> Forall R l2 -> Forall S (map2 f l1 l2).
Proof.
  intros Hf H1; revert l2; induction H1; intros l2 H2; simpl.
  - constructor.
  - destruct H2; constructor; auto.
Qed.

Lemma gain_nonneg prices :
  Forall nonneg (where_or_zero (fun d => fgt d (Fin 0)) (diff prices)).
Proof.
  unfold where_or_zero. apply Forall_map.
  eapply Forall_impl; [|apply diff_nan_or_fin].
  intros [| | |x] H; simpl in *; try contradiction; try lra.
  destruct (Qltb 0 x) eqn:E; simpl; [apply Qltb_lt in E|]; lra.
Qed.

Lemma loss_nonneg prices :
  Forall nonneg (map fneg (where_or_zero (fun d => flt d (Fin 0)) (diff prices))).
Proof.
  unfold where_or_zero. rewrite map_map. apply Forall_map.
  eapply Forall_impl; [|apply diff_nan_or_fin].
  intros [| | |x] H; simpl in *; try contradiction; try lra.
  destruct (Qltb x 0) eqn:E; simpl; [apply Qltb_lt in E|]; lra.
Qed.

Lemma ewm_alpha_range span : (1 <= span)%Z -> 0 < ewm_alpha span /\ ewm_alpha span <= 1.
Proof.
  intro H. unfold ewm_alpha.
  assert (Hs : 1 <= inject_Z span).
  { change 1 with (inject_Z 1). rewrite <- Zle_Qle. exact H. }
  split.
  - apply Qlt_shift_div_l; lra.
  - apply Qle_shift_div_r; lra.
Qed.

Lemma ewm_step_nonneg alpha w c :
  0 <= alpha -> alpha <= 1 -> nonneg w -> nonneg c -> nonneg (ewm_step alpha w c).
Proof.
  intros Ha0 Ha1. destruct w as [| | |w], c as [| | |c]; simpl; try contradiction.
  intros Hw Hc. unfold ewm_step; simpl.
  destruct (negb (Qeq_bool w c)); simpl; auto.
  assert (0 <= (1 - alpha) * w) by (apply Qmult_le_0_compat; lra).
  assert (0 <= alpha * c) by (apply Qmult_le_0_compat; lra).
  lra.
Qed.

Lemma ewm_from_nonneg alpha w xs :
  0 <= alpha -> alpha <= 1 -> nonneg w -> Forall nonneg xs ->
  Forall nonneg (ewm_from alpha w xs).
Proof.
  intros Ha0 Ha1 Hw Hxs; revert w Hw; induction Hxs; intros w Hw; simpl.
  - constructor.
  - constructor; [|apply IHHxs]; apply ewm_step_nonneg; auto.
Qed.

Lemma ewm_mean_nonneg span xs :
  (1 <= span)%Z -> Forall nonneg xs -> Forall nonneg (ewm_mean span xs).
Proof.
  intros Hs Hxs. destruct (ewm_alpha_range span Hs) as [H0 H1].
  destruct Hxs; simpl; constructor; auto.
  apply ewm_from_nonneg; auto; lra.
Qed.

Lemma rsi_of_rs_fin r : 0 <= r -> in_range 0 100 (rsi_of_rs (Fin r)).
Proof.
  intro Hr. unfold rsi_of_rs, fdiv, fdiv_gen, fadd, fsub, fneg.
  destruct (Qeq_bool (1 + r) 0) eqn:E.
  - apply Qeq_bool_iff in E. lra.
  - simpl.
    assert (H1 : 0 <= 100 / (1 + r)) by (apply Qle_shift_div_l; lra).
    assert (H2 : 100 / (1 + r) <= 100) by (apply Qle_shift_div_r; lra).
    lra.
Qed.

Lemma rsi_entry_range g l :
  nonneg g -> nonneg l -> nan_or_in_range 0 100 (rsi_of_rs (rs_of g l)).
Proof.
  destruct g as [| | |g], l as [| | |l]; simpl; try contradiction.
  intros Hg Hl. unfold rs_of, fdiv_gen.
  destruct (Qeq_bool l 0) eqn:El.
  - unfold inf_of_sign.
    destruct (Qltb 0 (- g)) eqn:E1.
    { apply Qltb_lt in E1. lra. }
    destruct (Qltb (- g) 0) eqn:E2.
    + right. simpl. lra.
    + left. reflexivity.
  - right. apply rsi_of_rs_fin.
    apply Qeq_bool_false in El.
    apply Qle_shift_div_l; lra.
Qed.

Lemma calculate_rsi_some period prices :
  (1 <= period)%Z -> exists rsi, calculate_rsi period prices = Some rsi.
Proof.
  intro H. unfold calculate_rsi.
  destruct (period <? 1)%Z eqn:E; [apply Z.ltb_lt in E; lia|]. eauto.
Qed.

Lemma calculate_rsi_period period prices rsi :
  calculate_rsi period prices = Some rsi -> (1 <= period)%Z.
Proof.
  unfold calculate_rsi. destruct (period <? 1)%Z eqn:E; [discriminate|].
  intros _. apply Z.ltb_ge in E. exact E.
Qed.

Lemma calculate_rsi_length period prices rsi :
  calculate_rsi period prices = Some rsi -> length rsi = length prices.
Proof.
  unfold calculate_rsi. destruct (period <? 1)%Z; [discriminate|].
  intro H; injection H as <-.
  rewrite length_map, map2_length; rewrite !ewm_mean_length;
    unfold where_or_zero; rewrite ?length_map, ?diff_length; reflexivity.
Qed.

Lemma calculate_rsi_range period prices rsi :
  calculate_rsi period prices = Some rsi ->
  Forall (nan_or_in_range 0 100) rsi.
Proof.
  unfold calculate_rsi. destruct (period <? 1)%Z eqn:E; [discriminate|].
  apply Z.ltb_ge in E.
  intro H; injection H as <-.
  apply Forall_map.
  eapply map2_Forall with (P := nonneg) (R := nonneg).
  - intros; apply rsi_entry_range; auto.
  - apply ewm_mean_nonneg; auto using gain_nonneg.
  - apply ewm_mean_nonneg; auto using loss_nonneg.
Qed.

Lemma calculate_rsi_first period prices rsi :
  calculate_rsi period prices = Some rsi -> prices <> [] -> nth 0 rsi (Fin 0) = NaN.
Proof.
  unfold calculate_rsi. destruct (period <? 1)%Z; [discriminate|].
  intro H; injection H as <-. destruct prices; [congruence|]. intros _.
  reflexivity.
Qed.

(** ** Series helpers *)

Lemma set_where_length s c v : length (set_where s c v) = length s.
Proof. revert c; induction s; destruct c; simpl; auto. Qed.

Lemma nth_set_where_in s c v i d :
  (i < length s)%nat ->
  nth i (set_where s c v) d = if nth i c false then v else nth i s d.
Proof.
  revert c i; induction s as [|x s IH]; intros [|b c] [|i] H; simpl in *;
    try lia; auto.
  apply IH; lia.
Qed.

Lemma nth_map2 {A B C} (f : A -> B -> C) l1 l2 i da db dc :
  (i < length l1)%nat -> (i < length l2)%nat ->
  nth i (map2 f l1 l2) dc = f (nth i l1 da) (nth i l2 db).
Proof.
  revert l2 i; induction l1 as [|a l1 IH]; intros [|b l2] [|i] H1 H2;
    simpl in *; try lia; auto.
  apply IH; lia.
Qed.

Lemma nth_map_in {A B} (f : A -> B) l i da db :
  (i < length l)%nat -> nth i (map f l) db = f (nth i l da).
Proof.
  intro H. rewrite (nth_indep _ db (f da)) by (rewrite length_map; lia).
  apply map_nth.
Qed.

Lemma removelast_length {A} (l : list A) : length (removelast l) = (length l - 1)%nat.
Proof.
  induction l as [|a [|b l] IH]; simpl in *; auto. rewrite IH. lia.
Qed.

Lemma nth_removelast {A} (l : list A) i d :
  (i < length l - 1)%nat -> nth i (removelast l) d = nth i l d.
Proof.
  revert i; induction l as [|a [|b l] IH]; intros i H; simpl in *; try lia.
  destruct i; auto. apply IH. simpl. lia.
Qed.

Lemma shift1_length s : length (shift1 s) = length s.
Proof.
  destruct s; simpl; auto.
  change (S (length (removelast (f :: s))) = S (length s)).
  rewrite removelast_length. simpl. lia.
Qed.

Lemma nth_shift1_0 s : nth 0 (shift1 s) NaN = NaN.
Proof. destruct s; reflexivity. Qed.

Lemma nth_shift1_S s i :
  (S i < length s)%nat -> nth (S i) (shift1 s) NaN = nth i s NaN.
Proof.
  destruct s as [|x s]; simpl length; intro H; [lia|].
  change (nth i (removelast (x :: s)) NaN = nth i (x :: s) NaN).
  apply nth_removelast. simpl. lia.
Qed.

Lemma full_length {A B} (v : A) (index : list B) : length (full v index) = length index.
Proof. apply length_map. Qed.

Lemma nth_full {A B} (v : A) (index : list B) i : nth i (full v index) v = v.
Proof.
  unfold full. revert i; induction index; intros [|i]; simpl; auto.
Qed.

(** ** Threshold-crossing generator *)

(** The masks of [RSIAlgorithm.generate_signals] at an index, read off
    the current and the preceding oscillator value. *)
Lemma rsi_buy_condition_nth a rsi i :
  (i < length rsi)%nat ->
  nth i (rsi_buy_condition a rsi) false
  = fgt (nthf rsi i) (thr (rsi_oversold_threshold a))
    && fle (nth i (shift1 rsi) NaN) (thr (rsi_oversold_threshold a)).
Proof.
  intro H. unfold rsi_buy_condition, nthf.
  rewrite (nth_map2 _ _ _ _ false false) by (rewrite length_map, ?shift1_length; lia).
  rewrite (nth_map_in _ _ _ NaN), (nth_map_in _ _ _ NaN);
    rewrite ?shift1_length; auto.
Qed.

Lemma rsi_sell_condition_nth a rsi i :
  (i < length rsi)%nat ->
  nth i (rsi_sell_condition a rsi) false
  = flt (nthf rsi i) (thr (rsi_overbought_threshold a))
    && fge (nth i (shift1 rsi) NaN) (thr (rsi_overbought_threshold a)).
Proof.
  intro H. unfold rsi_sell_condition, nthf.
  rewrite (nth_map2 _ _ _ _ false false) by (rewrite length_map, ?shift1_length; lia).
  rewrite (nth_map_in _ _ _ NaN), (nth_map_in _ _ _ NaN);
    rewrite ?shift1_length; auto.
Qed.

(** An up-crossing of one level and a down-crossing of another cannot
    happen on the same pair of samples. *)
Lemma crossings_exclusive (prev cur lo hi : fl) :
  fgt cur lo && fle prev lo = true ->
  flt cur hi && fge prev hi = true -> False.
Proof.
  destruct prev as [| | |p], cur as [| | |c], lo as [| | |l], hi as [| | |h];
    simpl; try discriminate; unfold fgt, fge; simpl; try discriminate;
    rewrite ?andb_true_iff, ?Qltb_lt, ?Qle_bool_iff; intros; lra.
Qed.

Lemma rsi_signal_nth a rsi (prices : list Q) i :
  length rsi = length prices -> (i < length prices)%nat ->
  nth i (set_where (set_where (full 0%Z prices) (rsi_buy_condition a rsi) 1%Z)
                   (rsi_sell_condition a rsi) (-1)%Z) 0%Z
  = if nth i (rsi_sell_condition a rsi) false then (-1)%Z
    else if nth i (rsi_buy_condition a rsi) false then 1%Z else 0%Z.
Proof.
  intros Hl Hi.
  rewrite nth_set_where_in by (rewrite set_where_length, full_length; lia).
  rewrite nth_set_where_in by (rewrite full_length; lia).
  rewrite nth_full. reflexivity.
Qed.

(** C8.  [RSIAlgorithm.generate_signals] returns a series aligned with the
    prices which is 0 at the first index and, at every later index, is +1
    exactly when the oscillator went from at or below the oversold
    threshold at the preceding sample to above it at the current one, -1
    exactly when it went from at or above the overbought threshold to
    below it, and 0 exactly when neither crossing happened; nothing but
    the current and the preceding sample is read. *)
Theorem rsi_generate_signals_crossing (a : RSIAlgorithm) (prices : list Q) :
  (1 <= rsi_period a)%Z ->
  exists rsi signals,
    calculate_rsi (rsi_period a) prices = Some rsi /\
    rsi_generate_signals a prices = Some signals /\
    length signals = length prices /\
    (prices <> [] -> nth 0 signals 0%Z = 0%Z) /\
    forall i, (S i < length prices)%nat ->
      let up := crosses_up (thr (rsi_oversold_threshold a))
                           (nthf rsi i) (nthf rsi (S i)) in
      let down := crosses_down (thr (rsi_overbought_threshold a))
                               (nthf rsi i) (nthf rsi (S i)) in
      (nth (S i) signals 0%Z = 1%Z <-> up) /\
      (nth (S i) signals 0%Z = (-1)%Z <-> down) /\
      (nth (S i) signals 0%Z = 0%Z <-> ~ up /\ ~ down).
Proof.
  intro Hp.
  destruct (calculate_rsi_some (rsi_period a) prices Hp) as [rsi Hrsi].
  pose proof (calculate_rsi_length _ _ _ Hrsi) as Hlen.
  exists rsi. eexists. split; [exact Hrsi|].
  unfold rsi_generate_signals. rewrite Hrsi.
  split; [reflexivity|].
  split; [rewrite !set_where_length; apply full_length|].
  split.
  - intro Hne.
    assert (H0 : (0 < length prices)%nat) by (destruct prices; simpl; [congruence|lia]).
    rewrite rsi_signal_nth by auto.
    rewrite rsi_sell_condition_nth, rsi_buy_condition_nth by lia.
    rewrite nth_shift1_0. unfold fge, fle; simpl.
    rewrite !andb_false_r. reflexivity.
  - intros i Hi.
    rewrite rsi_signal_nth by auto.
    rewrite rsi_sell_condition_nth, rsi_buy_condition_nth by lia.
    rewrite nth_shift1_S by lia. fold (nthf rsi i).
    pose proof (crossings_exclusive (nthf rsi i) (nthf rsi (S i))
                  (thr (rsi_oversold_threshold a))
                  (thr (rsi_overbought_threshold a))) as Hex.
    unfold crosses_up, crosses_down.
    destruct (flt (nthf rsi (S i)) (thr (rsi_overbought_threshold a))
              && fge (nthf rsi i) (thr (rsi_overbought_threshold a))) eqn:Es;
    destruct (fgt (nthf rsi (S i)) (thr (rsi_oversold_threshold a))
              && fle (nthf rsi i) (thr (rsi_oversold_threshold a))) eqn:Eb.
    + exfalso; auto.
    + apply andb_true_iff in Es. apply andb_false_iff in Eb.
      repeat split; try discriminate; try tauto;
        intros; destruct Eb; intuition congruence.
    + apply andb_true_iff in Eb. apply andb_false_iff in Es.
      repeat split; try discriminate; try tauto;
        intros; destruct Es; intuition congruence.
    + apply andb_false_iff in Eb. apply andb_false_iff in Es.
      repeat split; try discriminate; try tauto;
        intros; destruct Es, Eb; intuition congruence.
Qed.

Lemma rsi_generate_signals_crossing_witness :
  exists rsi signals,
    calculate_rsi 1 [10; 9; 10; 9] = Some rsi /\
    rsi_generate_signals
      {| rsi_period := 1; rsi_oversold_threshold := 30;
         rsi_overbought_threshold := 70 |} [10; 9; 10; 9] = Some signals /\
    nth 2 signals 0%Z = 1%Z /\ nth 3 signals 0%Z = (-1)%Z.
Proof.
  destruct (rsi_generate_signals_crossing
              {| rsi_period := 1; rsi_oversold_threshold := 30;
                 rsi_overbought_threshold := 70 |} [10; 9; 10; 9])
    as (rsi & signals & H1 & H2 & _).
  - simpl. lia.
  - exists rsi, signals. split; [exact H1|]. split; [exact H2|].
    vm_compute in H2. injection H2 as <-. split; reflexivity.
Defined.

(** ** Indicator engine: alignment, the first sample, the range *)

(** C6 (as amended).  For every period of at least 1 and every price
    series, [calculate_rsi] returns a series aligned 1:1 with the prices;
    its value at index 0 is NaN and its value at every index is either NaN
    or within [[0, 100]]. *)
Theorem calculate_rsi_aligned_bounded (period : Z) (prices : list Q) :
  (1 <= period)%Z ->
  exists rsi,
    calculate_rsi period prices = Some rsi /\
    length rsi = length prices /\
    (prices <> [] -> nthf rsi 0 = NaN) /\
    forall i, (i < length prices)%nat -> nan_or_in_range 0 100 (nthf rsi i).
Proof.
  intro Hp. destruct (calculate_rsi_some period prices Hp) as [rsi Hrsi].
  exists rsi. split; [exact Hrsi|].
  pose proof (calculate_rsi_length _ _ _ Hrsi) as Hlen.
  split; [exact Hlen|]. split.
  - intro Hne. unfold nthf.
    rewrite (nth_indep rsi NaN (Fin 0)).
    + eapply calculate_rsi_first; eauto.
    + destruct prices; [congruence|]. simpl in Hlen. lia.
  - intros i Hi. pose proof (calculate_rsi_range _ _ _ Hrsi) as HF.
    rewrite Forall_forall in HF. apply HF. apply nth_In. lia.
Qed.

Lemma calculate_rsi_aligned_bounded_witness :
  exists rsi,
    calculate_rsi 14 [100; 101; 99] = Some rsi /\
    length rsi = 3%nat /\
    nthf rsi 0 = NaN /\
    nan_or_in_range 0 100 (nthf rsi 2).
Proof.
  destruct (calculate_rsi_aligned_bounded 14 [100; 101; 99])
    as (rsi & H1 & H2 & H3 & H4).
  - lia.
  - exists rsi. split; [exact H1|]. split; [exact H2|].
    split; [apply H3; discriminate|]. apply H4. simpl. lia.
Defined.

(** C6, refuted as stated.  With period 2 and the four prices 1, 2, 3, 4
    (length period + 2) the value at index 1, which is below the period,
    is 100 and not NaN; with period 2 and four equal prices the value at
    index 2, which is not below the period, is NaN and so outside
    [[0, 100]]. *)
Lemma calculate_rsi_no_warmup_counterexample :
  (exists rsi, calculate_rsi 2 [1; 2; 3; 4] = Some rsi /\
               (1 < 2)%nat /\ feq (nthf rsi 1) (Fin 100) /\ nthf rsi 1 <> NaN) /\
  (exists rsi, calculate_rsi 2 [5; 5; 5; 5] = Some rsi /\
               (2 <= 2)%nat /\ nthf rsi 2 = NaN /\ ~ in_range 0 100 (nthf rsi 2)).
Proof.
  split.
  - eexists. split; [reflexivity|]. split; [lia|]. split.
    + vm_compute. reflexivity.
    + vm_compute. discriminate.
  - eexists. split; [reflexivity|]. split; [lia|]. split.
    + reflexivity.
    + vm_compute. tauto.
Qed.

(** ** Trade simulation *)

Lemma scan_exit_bounds e il tp sl i rest x p r :
  scan_exit e il tp sl i rest = Some (x, p, r) ->
  (i <= x < i + length rest)%nat.
Proof.
  revert i; induction rest as [|c rest IH]; simpl; intros i H; [discriminate|].
  destruct il.
  - destruct (Qle_bool tp c); [injection H as <- _ _; lia|].
    destruct (Qle_bool c sl); [injection H as <- _ _; lia|].
    apply IH in H. lia.
  - destruct (Qle_bool c tp); [injection H as <- _ _; lia|].
    destruct (Qle_bool sl c); [injection H as <- _ _; lia|].
    apply IH in H. lia.
Qed.

Lemma prices_of_length data : length (prices_of data) = length data.
Proof. apply length_map. Qed.

Lemma simulate_trade_some e prices idx il :
  (idx < length prices)%nat -> exists res, simulate_trade e prices idx il = Some res.
Proof.
  intro H. unfold simulate_trade.
  destruct (nth_error prices idx) eqn:E.
  - destruct (calculate_exit_price e q il) as [tp sl].
    destruct (scan_exit e il tp sl (S idx) (skipn (S idx) prices)) as [[[i p] r]|];
      eauto.
  - apply nth_error_None in E. lia.
Qed.

Lemma simulate_trade_bounds e prices idx il x p r :
  simulate_trade e prices idx il = Some (x, p, r) ->
  (S idx < length prices)%nat -> (idx < x < length prices)%nat.
Proof.
  unfold simulate_trade. destruct (nth_error prices idx); [|discriminate].
  destruct (calculate_exit_price e q il) as [tp sl].
  destruct (scan_exit e il tp sl (S idx) (skipn (S idx) prices))
    as [[[i pr] rr]|] eqn:E.
  - intro H; injection H as <- _ _. intro Hn.
    apply scan_exit_bounds in E. rewrite length_skipn in E. lia.
  - intro H; injection H as <- _ _. lia.
Qed.

Lemma chain_app l d :
  chain l -> (forall t, In t l -> (exit_time t < entry_time d)%Z) -> chain (l ++ [d]).
Proof.
  induction 1 as [|t|t1 t2 l Hlt Hc IH]; simpl; intro H.
  - constructor.
  - constructor; [apply H; simpl; auto|constructor].
  - constructor; [exact Hlt|]. apply IH. intros t Ht. apply H. simpl in *. tauto.
Qed.

Lemma trade_ok_weaken e data b b' t :
  (b <= b')%nat -> trade_ok e data b t -> trade_ok e data b' t.
Proof.
  intros Hb (x & Hx & H). exists x. split; [lia|exact H].
Qed.

Lemma trade_ok_exit_before e data b t idx time p :
  increasing_index data -> trade_ok e data b t -> (b <= idx)%nat ->
  at_row data idx time p -> (exit_time t < time)%Z.
Proof.
  intros Hinc (x & Hx & _ & Hc) Hb (row & Hrow & Ht & _).
  assert (Hat : at_row data x (exit_time t) (exit_price t)).
  { destruct Hc as [(pr & _ & _ & Hat & _)|(_ & _ & _ & Hat & _)]; exact Hat. }
  destruct Hat as (xrow & Hxrow & Hxt & _).
  rewrite <- Hxt, <- Ht. eapply Hinc; eauto. lia.
Qed.

Lemma nth_error_some_lt {A} (l : list A) i :
  (i < length l)%nat -> exists a, nth_error l i = Some a.
Proof.
  intro H. destruct (nth_error l i) eqn:E; eauto.
  apply nth_error_None in E. lia.
Qed.

Lemma backtest_body_inv e data signals st :
  increasing_index data -> length signals = length data ->
  loop_inv e data st -> (loop_i st < length data)%nat ->
  exists st', backtest_body e data signals st = Some st' /\
              loop_inv e data st' /\ (loop_i st < loop_i st')%nat.
Proof.
  intros Hinc Hlen (H1 & Hch & Hok & Hcur) Hi.
  destruct st as [tl ct i]; simpl in *.
  unfold backtest_body; simpl.
  destruct (nth_error_some_lt data i Hi) as [row Hrow].
  destruct (nth_error_some_lt signals i ltac:(lia)) as [sg Hsg].
  rewrite Hrow, Hsg.
  destruct ct as [t|].
  - (* a trade is open *)
    destruct Hcur as [Hidx Hat]. unfold scan_bound in Hok; simpl in Hok.
    destruct (simulate_trade_some e (prices_of data) (o_entry_idx t)
                (is_long_side (o_type t))) as [[[x pr] r] Hsim].
    { rewrite prices_of_length. lia. }
    rewrite Hsim.
    pose proof (simulate_trade_bounds _ _ _ _ _ _ _ Hsim) as Hb.
    rewrite prices_of_length in Hb. specialize (Hb ltac:(lia)).
    destruct (nth_error_some_lt data x ltac:(lia)) as [xrow Hxrow].
    rewrite Hxrow. eexists. split; [reflexivity|]. simpl.
    split; [|lia].
    assert (Hnew : trade_ok e data (S x)
                     (complete t (timestamp xrow) (price xrow)
                               (fmul pr (Fin 100)) r)).
    { exists x. split; [lia|]. split; [exact Hat|]. left.
      exists pr. simpl. repeat split; auto; try lia.
      exists xrow. auto. }
    unfold loop_inv, scan_bound; simpl. repeat split; auto; try lia.
    + apply chain_app; [exact Hch|].
      intros t' Ht'. rewrite Forall_forall in Hok.
      eapply trade_ok_exit_before; eauto.
    + apply Forall_app. split.
      * eapply Forall_impl; [|exact Hok].
        intros t'. apply trade_ok_weaken. lia.
      * constructor; [exact Hnew|constructor].
  - (* no trade is open *)
    unfold scan_bound in Hok; simpl in Hok.
    eexists. split; [reflexivity|]. simpl. split; [|lia].
    unfold loop_inv, scan_bound; simpl.
    destruct (sg =? 1)%Z; [|destruct (sg =? -1)%Z]; simpl;
      repeat split; auto; try lia;
      try (exists row; auto);
      try (eapply Forall_impl; [|exact Hok]; intros t'; apply trade_ok_weaken; lia).
Qed.

Lemma backtest_loop_inv e data signals fuel st :
  increasing_index data -> length signals = length data ->
  loop_inv e data st -> (length data - loop_i st <= fuel)%nat ->
  exists st', backtest_loop fuel e data signals st = Some st' /\
              loop_inv e data st' /\ (length data <= loop_i st')%nat.
Proof.
  intros Hinc Hlen. revert st.
  induction fuel as [|fuel IH]; intros st Hinv Hfuel; simpl.
  - destruct (loop_i st <? length data)%nat eqn:E.
    + apply Nat.ltb_lt in E. lia.
    + apply Nat.ltb_ge in E. eauto.
  - destruct (loop_i st <? length data)%nat eqn:E.
    + apply Nat.ltb_lt in E.
      destruct (backtest_body_inv e data signals st Hinc Hlen Hinv E)
        as (st1 & Hb & Hinv1 & Hlt).
      rewrite Hb. apply IH; auto. lia.
    + apply Nat.ltb_ge in E. eauto.
Qed.

Lemma last_nth_error {A} (l : list A) d a :
  nth_error l (length l - 1) = Some a -> last l d = a.
Proof.
  induction l as [|x [|y l] IH]; simpl; intro H.
  - discriminate.
  - congruence.
  - apply IH. simpl. simpl in H. rewrite Nat.sub_0_r. exact H.
Qed.

Lemma close_open_trade_open e data tl t i :
  data <> [] ->
  close_open_trade e data
    {| trades_list := tl; current_trade := Some t; loop_i := i |}
  = Some (tl ++ [complete t (last (map timestamp data) 0%Z)
                   (last (prices_of data) 0)
                   (fmul (fsub (if is_long_side (o_type t)
                                then fdiv (Fin (last (prices_of data) 0 - o_entry_price t))
                                          (Fin (o_entry_price t))
                                else fdiv (Fin (o_entry_price t - last (prices_of data) 0))
                                          (Fin (o_entry_price t)))
                               (Fin (commission e * 2))) (Fin 100))
                   exit_market_close]).
Proof. destruct data; [congruence|reflexivity]. Qed.

Lemma backtest_trades_ok e data signals :
  increasing_index data -> length signals = length data ->
  exists trades, backtest_trades e data signals = Some trades /\
                 trades_ok e data trades.
Proof.
  intros Hinc Hlen. unfold backtest_trades.
  destruct (backtest_loop_inv e data signals (length data)
              {| trades_list := []; current_trade := None; loop_i := 1 |}
              Hinc Hlen) as (st & Hloop & (H1 & Hch & Hok & Hcur) & Hend).
  { unfold loop_inv, scan_bound; simpl. repeat split; auto. constructor. }
  { simpl. lia. }
  rewrite Hloop.
  destruct st as [tl ct i]; unfold scan_bound in *; simpl in *.
  destruct ct as [t|].
  - destruct Hcur as [Hidx (row & Hrow & Htime & Hprice)].
    assert (Hn : (o_entry_idx t < length data)%nat).
    { apply nth_error_Some. congruence. }
    assert (Hlast : S (o_entry_idx t) = length data) by lia.
    rewrite close_open_trade_open by (intro E; rewrite E in Hn; simpl in Hn; lia).
    eexists. split; [reflexivity|].
    assert (Hidx' : o_entry_idx t = (length data - 1)%nat) by lia.
    assert (Hlt : last (map timestamp data) 0%Z = timestamp row).
    { apply last_nth_error. rewrite length_map, <- Hidx'.
      rewrite nth_error_map, Hrow. reflexivity. }
    assert (Hlp : last (prices_of data) 0 = price row).
    { apply last_nth_error. rewrite prices_of_length, <- Hidx'.
      unfold prices_of. rewrite nth_error_map, Hrow. reflexivity. }
    split.
    + apply chain_app; [exact Hch|].
      intros t' Ht'. rewrite Forall_forall in Hok.
      eapply trade_ok_exit_before; eauto. exists row. eauto.
    + apply Forall_app. split.
      * eapply Forall_impl; [|exact Hok].
        intros t'. apply trade_ok_weaken. lia.
      * constructor; [|constructor].
        exists (o_entry_idx t). split; [lia|]. split; [exists row; auto|].
        right. unfold closed_at_end, forced_profit_pct, complete.
        cbn [entry_idx exit_reason exit_time exit_price profit_pct type entry_price].
        repeat split; auto.
        exists row. rewrite Hlt, Hlp. auto.
  - unfold close_open_trade; simpl.
    eexists. split; [reflexivity|]. split; [exact Hch|].
    eapply Forall_impl; [|exact Hok].
    intros t'. intros (x & Hx & Hrest). exists x. split; [|exact Hrest].
    destruct Hrest as (_ & [(pr & Hsim & _ & (xr & Hxr & _) & _)
                           |(_ & _ & _ & (xr & Hxr & _) & _)]);
      apply nth_error_Some; congruence.
Qed.

Lemma generate_signals_length alg data signals :
  generate_signals alg data = Some signals -> length signals = length data.
Proof.
  destruct alg as [a|a]; simpl.
  - unfold rsi_generate_signals.
    destruct (calculate_rsi (rsi_period a) (prices_of data)); [|discriminate].
    intro H; injection H as <-.
    rewrite !set_where_length, full_length. apply prices_of_length.
  - unfold dc_generate_signals.
    destruct (calculate_rsi (dc_period a) (prices_of data)); [|discriminate].
    intro H; injection H as <-.
    rewrite set_where_length. unfold dc_short_signals.
    rewrite length_map, length_seq, full_length. apply prices_of_length.
Qed.

Lemma chain_non_overlapping trades : chain trades -> non_overlapping trades.
Proof.
  induction 1 as [|t|t1 t2 l Hlt Hc IH]; intros i a b Ha Hb.
  - destruct i; discriminate.
  - destruct i; simpl in Hb; [discriminate|destruct i; discriminate].
  - destruct i as [|i].
    + simpl in Ha, Hb. injection Ha as <-. injection Hb as <-. exact Hlt.
    + apply (IH i); assumption.
Qed.

Lemma trade_ok_times e data b t :
  increasing_index data -> trade_ok e data b t ->
  ((S (entry_idx t) < length data)%nat -> (entry_time t < exit_time t)%Z) /\
  (S (entry_idx t) = length data ->
   exit_time t = entry_time t /\ exit_reason t = exit_market_close) /\
  (entry_idx t < length data)%nat.
Proof.
  intros Hinc (x & _ & (er & Her & Het & _) & Hc).
  assert (Hlt : (entry_idx t < length data)%nat)
    by (apply nth_error_Some; congruence).
  destruct Hc as [(pr & Hsim & _ & (xr & Hxr & Hxt & _) & Hx)
                 |(Hend & -> & Hr & (xr & Hxr & Hxt & _) & _)].
  - assert (Hxn : (x < length data)%nat) by (apply nth_error_Some; congruence).
    repeat split; try lia.
    intros _. rewrite <- Het, <- Hxt. eapply Hinc; eauto.
  - repeat split; try lia; try assumption.
    rewrite <- Het, <- Hxt. congruence.
Qed.

(** C3 (as amended).  Whenever the strategy yields its signals, [backtest]
    returns a trade list in which each trade is entered strictly after the
    preceding one was exited, and in which every trade is exited strictly
    after it was entered, except a trade entered at the last sample of the
    series: that one is closed after the loop at the same sample, as a
    market close, with its exit time equal to its entry time. *)
Theorem backtest_trades_ordered (e : BacktestEngine) (data : DataFrame)
  (signals : list Z) :
  increasing_index data ->
  generate_signals (algorithm e) data = Some signals ->
  exists trades metrics,
    backtest e data = Some (trades, metrics) /\
    non_overlapping trades /\
    forall t, In t trades ->
      (entry_idx t < length data)%nat /\
      ((S (entry_idx t) < length data)%nat -> (entry_time t < exit_time t)%Z) /\
      (S (entry_idx t) = length data ->
       exit_time t = entry_time t /\ exit_reason t = exit_market_close).
Proof.
  intros Hinc Hsig.
  pose proof (generate_signals_length _ _ _ Hsig) as Hlen.
  destruct (backtest_trades_ok e data signals Hinc Hlen)
    as (trades & Hbt & Hch & Hok).
  exists trades, (calculate_performance_metrics trades).
  unfold backtest. rewrite Hsig, Hbt. split; [reflexivity|].
  split; [apply chain_non_overlapping; exact Hch|].
  intros t Ht. rewrite Forall_forall in Hok.
  destruct (trade_ok_times e data _ t Hinc (Hok t Ht)) as (A & B & C).
  auto.
Qed.

Lemma increasing_timestamps_head a l :
  increasing_timestamps (a :: l) = true ->
  forall j b, nth_error l j = Some b -> (a < b)%Z.
Proof.
  revert a; induction l as [|c l IH]; intros a H j b Hj.
  - destruct j; discriminate.
  - cbn [increasing_timestamps] in H. apply andb_true_iff in H as [Hac Hl].
    apply Z.ltb_lt in Hac. destruct j as [|j]; simpl in Hj.
    + injection Hj as <-. exact Hac.
    + specialize (IH c Hl j b Hj). lia.
Qed.

Lemma increasing_timestamps_sound data :
  increasing_timestamps (map timestamp data) = true -> increasing_index data.
Proof.
  induction data as [|r data IH]; intros H i j ri rj Hi Hj Hij.
  - destruct i; discriminate.
  - destruct j as [|j]; [lia|]. simpl in Hj.
    destruct i as [|i]; simpl in Hi.
    + injection Hi as <-.
      apply (increasing_timestamps_head (timestamp r) (map timestamp data) H j).
      rewrite nth_error_map, Hj. reflexivity.
    + apply (IH) with (i := i) (j := j); auto; [|lia].
      simpl in H. destruct (map timestamp data); [reflexivity|].
      apply andb_true_iff in H. tauto.
Qed.

Lemma backtest_trades_ordered_witness :
  exists trades metrics,
    backtest sample_engine sample_two_trades = Some (trades, metrics) /\
    length trades = 2%nat /\
    non_overlapping trades.
Proof.
  destruct (backtest_trades_ordered sample_engine sample_two_trades
              [0; 0; 1; -1; 1; 0]%Z) as (trades & metrics & Hb & Hno & _).
  - apply increasing_timestamps_sound. reflexivity.
  - reflexivity.
  - exists trades, metrics. split; [exact Hb|]. split; [|exact Hno].
    vm_compute in Hb. injection Hb as <- _. reflexivity.
Defined.

(** C3, refuted as stated.  With the threshold-crossing strategy (period
    1, thresholds 30 and 70) and the closes 10, 9, 10 on a strictly
    increasing index, the buy signal falls on the last sample; the trade
    opened there is closed after the loop at the same sample, so its exit
    time is not later than its entry time. *)
Lemma backtest_entry_at_end_counterexample :
  increasing_index sample_entry_at_end /\
  exists trades metrics t,
    backtest sample_engine sample_entry_at_end = Some (trades, metrics) /\
    In t trades /\
    entry_time t = 120%Z /\ exit_time t = 120%Z /\
    ~ (entry_time t < exit_time t)%Z.
Proof.
  split; [apply increasing_timestamps_sound; reflexivity|].
  eexists. eexists. eexists. split; [vm_compute; reflexivity|].
  split; [left; reflexivity|].
  simpl. repeat split. lia.
Qed.

(** ** Bracket exits *)

Lemma scan_exit_profit e il tp sl i rest x p r :
  scan_exit e il tp sl i rest = Some (x, p, r) -> bracket_profit e il r p.
Proof.
  revert i; induction rest as [|c rest IH]; simpl; intros i H; [discriminate|].
  destruct il.
  - destruct (Qle_bool tp c); [injection H as _ <- <-; reflexivity|].
    destruct (Qle_bool c sl); [injection H as _ <- <-; reflexivity|].
    eauto.
  - destruct (Qle_bool c tp); [injection H as _ <- <-; reflexivity|].
    destruct (Qle_bool sl c); [injection H as _ <- <-; reflexivity|].
    eauto.
Qed.

Lemma simulate_trade_bracket e prices idx il x p r :
  simulate_trade e prices idx il = Some (x, p, r) ->
  r <> exit_market_close ->
  exists q, p = Fin q /\ bracket_profit e il r q.
Proof.
  unfold simulate_trade. destruct (nth_error prices idx); [|discriminate].
  destruct (calculate_exit_price e q il) as [tp sl].
  destruct (scan_exit e il tp sl (S idx) (skipn (S idx) prices))
    as [[[i pr] rr]|] eqn:E.
  - intro H; injection H as _ <- <-. intros _.
    exists pr. split; [reflexivity|]. eapply scan_exit_profit; eauto.
  - intro H; injection H as _ _ <-. congruence.
Qed.

Lemma trade_ok_bracket e data b t :
  trade_ok e data b t -> exit_reason t <> exit_market_close ->
  exists q, profit_pct t = Fin (q * 100) /\
            bracket_profit e (is_long_side (type t)) (exit_reason t) q.
Proof.
  intros (x & _ & _ & [(pr & Hsim & Hpp & _)|(_ & _ & Hr & _)]) Hne;
    [|congruence].
  destruct (simulate_trade_bracket _ _ _ _ _ _ _ Hsim Hne) as (q & -> & Hq).
  exists q. split; [exact Hpp|exact Hq].
Qed.

(** The scan stops at the first sample that reaches the take-profit level,
    whatever the stop-loss test would say there. *)
Lemma scan_exit_take_profit_first e il tp sl rest :
  forall i k pk,
    nth_error rest k = Some pk ->
    (forall m pm, (m < k)%nat -> nth_error rest m = Some pm ->
                  ~ tp_reached il tp pm /\ ~ sl_reached il sl pm) ->
    tp_reached il tp pk ->
    scan_exit e il tp sl i rest
    = Some ((i + k)%nat, take_profit e - commission e * 2, exit_take_profit).
Proof.
  induction rest as [|c rest IH]; intros i k pk Hk Hbefore Htp.
  - destruct k; discriminate.
  - destruct k as [|k]; simpl in Hk.
    + injection Hk as ->. simpl. rewrite Nat.add_0_r.
      destruct il; simpl in Htp; apply Qle_bool_iff in Htp; rewrite Htp; reflexivity.
    + destruct (Hbefore 0%nat c ltac:(lia) eq_refl) as [Hntp Hnsl].
      simpl.
      assert (IH' := IH (S i) k pk Hk
                (fun m pm Hm Hpm => Hbefore (S m) pm ltac:(lia) Hpm) Htp).
      replace (i + S k)%nat with (S i + k)%nat by lia.
      destruct il; simpl in Hntp, Hnsl.
      * destruct (Qle_bool tp c) eqn:E1; [apply Qle_bool_iff in E1; tauto|].
        destruct (Qle_bool c sl) eqn:E2; [apply Qle_bool_iff in E2; tauto|].
        exact IH'.
      * destruct (Qle_bool c tp) eqn:E1; [apply Qle_bool_iff in E1; tauto|].
        destruct (Qle_bool sl c) eqn:E2; [apply Qle_bool_iff in E2; tauto|].
        exact IH'.
Qed.

Lemma nth_error_skipn {A} (l : list A) n k :
  nth_error (skipn n l) k = nth_error l (n + k).
Proof.
  revert l; induction n as [|n IH]; intros [|a l]; simpl; auto.
  destruct k; reflexivity.
Qed.

Lemma simulate_trade_take_profit_first e prices idx il entry j pj :
  nth_error prices idx = Some entry ->
  nth_error prices j = Some pj -> (idx < j)%nat ->
  (forall k pk, (idx < k < j)%nat -> nth_error prices k = Some pk ->
     ~ tp_reached il (fst (calculate_exit_price e entry il)) pk /\
     ~ sl_reached il (snd (calculate_exit_price e entry il)) pk) ->
  tp_reached il (fst (calculate_exit_price e entry il)) pj ->
  simulate_trade e prices idx il
  = Some (j, Fin (take_profit e - commission e * 2), exit_take_profit).
Proof.
  intros He Hj Hlt Hbefore Htp. unfold simulate_trade. rewrite He.
  destruct (calculate_exit_price e entry il) as [tp sl]; cbn [fst snd] in *.
  rewrite (scan_exit_take_profit_first e il tp sl _ (S idx) (j - S idx) pj).
  - replace (S idx + (j - S idx))%nat with j by lia. reflexivity.
  - rewrite nth_error_skipn. replace (S idx + (j - S idx))%nat with j by lia.
    exact Hj.
  - intros m pm Hm Hpm. rewrite nth_error_skipn in Hpm.
    apply (Hbefore (S idx + m)%nat pm); [lia|exact Hpm].
  - exact Htp.
Qed.

(** C4.  Whenever the strategy yields its signals, every trade of the
    list that [backtest] returns and that was closed by the take-profit
    bracket has profit_pct = (take_profit - 2 * commission) * 100, whatever
    the prices between entry and exit and at the exit; and
    [simulate_trade] closes the trade by take-profit at the first sample
    after the entry that reaches the take-profit level, whether or not
    the stop-loss level is reached at that sample as well, provided
    neither level was reached before. *)
Theorem take_profit_exact_and_first (e : BacktestEngine) (data : DataFrame)
  (signals : list Z) :
  increasing_index data ->
  generate_signals (algorithm e) data = Some signals ->
  (exists trades metrics,
     backtest e data = Some (trades, metrics) /\
     forall t, In t trades -> exit_reason t = exit_take_profit ->
       feq (profit_pct t) (Fin ((take_profit e - 2 * commission e) * 100))) /\
  (forall idx is_long entry j pj,
     nth_error (prices_of data) idx = Some entry ->
     nth_error (prices_of data) j = Some pj -> (idx < j)%nat ->
     (forall k pk, (idx < k < j)%nat -> nth_error (prices_of data) k = Some pk ->
        ~ tp_reached is_long (fst (calculate_exit_price e entry is_long)) pk /\
        ~ sl_reached is_long (snd (calculate_exit_price e entry is_long)) pk) ->
     tp_reached is_long (fst (calculate_exit_price e entry is_long)) pj ->
     simulate_trade e (prices_of data) idx is_long
     = Some (j, Fin (take_profit e - commission e * 2), exit_take_profit)).
Proof.
  intros Hinc Hsig. split.
  - pose proof (generate_signals_length _ _ _ Hsig) as Hlen.
    destruct (backtest_trades_ok e data signals Hinc Hlen)
      as (trades & Hbt & Hch & Hok).
    exists trades, (calculate_performance_metrics trades).
    unfold backtest. rewrite Hsig, Hbt. split; [reflexivity|].
    intros t Ht Hr. rewrite Forall_forall in Hok.
    destruct (trade_ok_bracket e data _ t (Hok t Ht)) as (q & Hpp & Hq).
    { rewrite Hr. discriminate. }
    rewrite Hr in Hq. simpl in Hq. rewrite Hpp, Hq. simpl. ring.
  - intros. eapply simulate_trade_take_profit_first; eauto.
Qed.

Lemma take_profit_exact_and_first_witness :
  exists trades metrics t,
    backtest sample_engine sample_two_trades = Some (trades, metrics) /\
    In t trades /\ exit_reason t = exit_take_profit /\
    feq (profit_pct t) (Fin (8 # 10)) /\
    simulate_trade sample_engine (prices_of sample_two_trades) 4 true
    = Some (5%nat, Fin (take_profit sample_engine - commission sample_engine * 2),
            exit_take_profit).
Proof.
  destruct (take_profit_exact_and_first sample_engine sample_two_trades
              [0; 0; 1; -1; 1; 0]%Z) as [(trades & metrics & Hb & Hall) Hfirst].
  - apply increasing_timestamps_sound. reflexivity.
  - reflexivity.
  - exists trades, metrics.
    assert (Ht : exists t, nth_error trades 1 = Some t /\
                           exit_reason t = exit_take_profit).
    { vm_compute in Hb. injection Hb as <- _. eexists. split; reflexivity. }
    destruct Ht as (t & Hnth & Hr).
    assert (Hin : In t trades) by (eapply nth_error_In; eauto).
    exists t. split; [exact Hb|]. split; [exact Hin|]. split; [exact Hr|].
    split.
    + specialize (Hall t Hin Hr).
      destruct (profit_pct t); simpl in *; try contradiction.
      rewrite Hall. reflexivity.
    + apply (Hfirst 4%nat true 10 5%nat 11); try reflexivity.
      * lia.
      * intros k pk Hk. lia.
      * simpl. unfold Qle; simpl. lia.
Defined.

(** An engine whose stop level lies above its take-profit level: a long
    entered at 100 sees both levels reached at 101.5, and the exit is the
    take-profit one. *)
Example take_profit_decides_tie :
  let e := {| algorithm := sample_rsi; take_profit := 1 # 100;
              stop_loss := 2 # 100; commission := 1 # 1000 |} in
  tp_reached true (fst (calculate_exit_price e 100 true)) (1015 # 10) /\
  sl_reached true (snd (calculate_exit_price e 100 true)) (1015 # 10) /\
  simulate_trade e [100; 1015 # 10] 0 true
  = Some (1%nat, Fin (take_profit e - commission e * 2), exit_take_profit).
Proof.
  simpl. repeat split; try (unfold Qle; simpl; lia).
Qed.

(** Every trade closed by the stop-loss bracket: the long side records
    stop_loss - 2 * commission, the short side -stop_loss - 2 * commission
    (times 100). *)
Lemma stop_loss_profit_by_side (e : BacktestEngine) (data : DataFrame)
  (signals : list Z) :
  increasing_index data ->
  generate_signals (algorithm e) data = Some signals ->
  exists trades metrics,
    backtest e data = Some (trades, metrics) /\
    forall t, In t trades -> exit_reason t = exit_stop_loss ->
      feq (profit_pct t)
          (Fin (((match type t with
                  | long => stop_loss e
                  | short => - stop_loss e
                  end) - 2 * commission e) * 100)).
Proof.
  intros Hinc Hsig.
  pose proof (generate_signals_length _ _ _ Hsig) as Hlen.
  destruct (backtest_trades_ok e data signals Hinc Hlen)
    as (trades & Hbt & Hch & Hok).
  exists trades, (calculate_performance_metrics trades).
  unfold backtest. rewrite Hsig, Hbt. split; [reflexivity|].
  intros t Ht Hr. rewrite Forall_forall in Hok.
  destruct (trade_ok_bracket e data _ t (Hok t Ht)) as (q & Hpp & Hq).
  { rewrite Hr. discriminate. }
  rewrite Hr in Hq. simpl in Hq. rewrite Hpp, Hq.
  destruct (type t); simpl; ring.
Qed.

(** C1, the code at the failing input.  With the default risk parameters
    (take_profit 0.01, stop_loss -0.005, commission 0.001) and the closes
    10, 11, 10, 11, the threshold-crossing strategy (period 1) sells short
    at index 2 at the price 10; at index 3 the price 11 is beyond the
    short stop level 10.05 and the trade is closed by the stop-loss
    bracket.  The recorded profit_pct is (-stop_loss - 2 * commission) *
    100 = +0.3, a gain, and not (stop_loss - 2 * commission) * 100 = -0.7. *)
Theorem short_stop_loss_recorded_as_gain :
  exists trades metrics t,
    backtest sample_engine sample_short_stopped = Some (trades, metrics) /\
    trades = [t] /\
    type t = short /\ entry_idx t = 2%nat /\ exit_price t == 11 /\
    exit_reason t = exit_stop_loss /\
    feq (profit_pct t) (Fin (3 # 10)) /\
    ~ feq (profit_pct t)
          (Fin ((stop_loss sample_engine - 2 * commission sample_engine) * 100)).
Proof.
  eexists. eexists. eexists. split; [vm_compute; reflexivity|].
  split; [reflexivity|]. simpl.
  repeat split; try reflexivity. intro H. vm_compute in H. discriminate.
Qed.

(** ** Metrics *)

(** C9.  For a non-empty trade set with no losing trade (no profit_pct
    at or below 0) and at least one winning trade,
    [calculate_performance_metrics] returns a record whose profit_factor
    is +infinity; no division takes place. *)
Theorem profit_factor_infinite_without_losers (trades_df : list Trade) :
  trades_df <> [] ->
  losing_trades trades_df = [] ->
  winning_trades trades_df <> [] ->
  profit_factor (calculate_performance_metrics trades_df) = PInf.
Proof.
  intros Hne Hlose _. unfold calculate_performance_metrics.
  destruct trades_df as [|t l]; [congruence|].
  cbn [profit_factor]. rewrite Hlose. reflexivity.
Qed.

Lemma profit_factor_infinite_without_losers_witness :
  profit_factor (calculate_performance_metrics [sample_winner; sample_winner]) = PInf.
Proof.
  apply profit_factor_infinite_without_losers.
  - discriminate.
  - reflexivity.
  - discriminate.
Defined.

(** ** Double-confirm generator *)

Lemma nth_map_seq {A} (f : nat -> A) n i d :
  (i < n)%nat -> nth i (map f (seq 0 n)) d = f i.
Proof.
  intro H. rewrite (nth_map_in f (seq 0 n) i 0%nat d) by (rewrite length_seq; lia).
  rewrite seq_nth by lia. reflexivity.
Qed.

Lemma dc_cover_condition_nth a rsi i :
  (i < length rsi)%nat ->
  nth i (dc_cover_condition a rsi) false
  = fle (nthf rsi i) (thr (dc_oversold_threshold a))
    && fgt (nth i (shift1 rsi) NaN) (thr (dc_oversold_threshold a)).
Proof.
  intro H. unfold dc_cover_condition, nthf.
  rewrite (nth_map2 _ _ _ _ false false) by (rewrite length_map, ?shift1_length; lia).
  rewrite (nth_map_in _ _ _ NaN), (nth_map_in _ _ _ NaN);
    rewrite ?shift1_length; auto.
Qed.

Lemma dc_short_signals_nth signals topped rsi prices support i :
  (i < length signals)%nat ->
  nth i (dc_short_signals signals topped rsi prices support) 0%Z
  = if (11 <=? i)%nat && dc_short_at topped rsi prices support i
    then (-1)%Z else nth i signals 0%Z.
Proof.
  intro H. unfold dc_short_signals. apply nth_map_seq. exact H.
Qed.

Lemma dc_short_signals_length signals topped rsi prices support :
  length (dc_short_signals signals topped rsi prices support) = length signals.
Proof. unfold dc_short_signals. rewrite length_map, length_seq. reflexivity. Qed.

(** C10.  In the batch double-confirm generator, at an index where the
    short-entry condition holds (index at least 11, topped, oscillator
    from at or above 50 to below 50, price strictly below the support
    level) and the cover condition holds as well (oscillator from above
    the oversold threshold to at or below it), the short loop writes -1
    and the cover assignment, which comes after it, overwrites it: the
    returned signal is +1. *)
Theorem dc_cover_overrides_short (a : RSI1MinDoubleConfirmAlgorithm)
  (prices : list Q) (rsi : list fl) (i : nat) :
  calculate_rsi (dc_period a) prices = Some rsi ->
  (11 <= i < length prices)%nat ->
  nth i (dc_rsi_topped a rsi) false = true ->
  fge (nthf rsi (i - 1)) (Fin 50) = true ->
  flt (nthf rsi i) (Fin 50) = true ->
  flt (Fin (nth i prices 0)) (nthf (dc_support_levels prices) i) = true ->
  fgt (nthf rsi (i - 1)) (thr (dc_oversold_threshold a)) = true ->
  fle (nthf rsi i) (thr (dc_oversold_threshold a)) = true ->
  exists signals,
    dc_generate_signals a prices = Some signals /\
    nth i (dc_short_signals (full 0%Z prices) (dc_rsi_topped a rsi) rsi prices
             (dc_support_levels prices)) 0%Z = (-1)%Z /\
    nth i signals 0%Z = 1%Z.
Proof.
  intros Hrsi Hi Htop Hprev50 Hcur50 Hsup Hprev Hcur.
  pose proof (calculate_rsi_length _ _ _ Hrsi) as Hlen.
  unfold dc_generate_signals. rewrite Hrsi.
  eexists. split; [reflexivity|].
  assert (Hshort : nth i (dc_short_signals (full 0%Z prices) (dc_rsi_topped a rsi)
                            rsi prices (dc_support_levels prices)) 0%Z = (-1)%Z).
  { rewrite dc_short_signals_nth by (rewrite full_length; lia).
    unfold dc_short_at. rewrite Htop, Hcur50, Hprev50, Hsup.
    destruct (11 <=? i)%nat eqn:E; [reflexivity|].
    apply Nat.leb_gt in E. lia. }
  split; [exact Hshort|].
  rewrite nth_set_where_in
    by (rewrite dc_short_signals_length, full_length; lia).
  rewrite dc_cover_condition_nth by lia.
  destruct i as [|i]; [lia|].
  rewrite nth_shift1_S by lia.
  replace (S i - 1)%nat with i in Hprev by lia.
  unfold nthf in *. rewrite Hcur, Hprev. reflexivity.
Qed.

Lemma dc_cover_overrides_short_witness :
  exists rsi signals,
    calculate_rsi 1 sample_rise_then_break = Some rsi /\
    dc_generate_signals sample_dc sample_rise_then_break = Some signals /\
    nth 12 signals 0%Z = 1%Z.
Proof.
  destruct (calculate_rsi 1 sample_rise_then_break) as [rsi|] eqn:Hrsi;
    [|vm_compute in Hrsi; discriminate].
  destruct (dc_cover_overrides_short sample_dc sample_rise_then_break rsi 12 Hrsi)
    as (signals & Hs & _ & H12);
    try (vm_compute in Hrsi; injection Hrsi as <-; vm_compute; reflexivity).
  - simpl. lia.
  - exists rsi, signals. auto.
Defined.

(** ** Live state machine: the topped flag *)

Lemma update_rsi_state_topped p current_rsi df :
  Panel.rsi_topped p = true ->
  Panel.rsi_topped (Panel.update_rsi_state p current_rsi df) = true.
Proof.
  intro H. unfold Panel.update_rsi_state. cbn [Panel.rsi_topped]. rewrite H.
  repeat match goal with
         | |- context [if ?c then _ else _] => destruct c
         end; reflexivity.
Qed.

Lemma update_data_topped p df :
  Panel.rsi_topped p = true -> Panel.rsi_topped (Panel.update_data p df) = true.
Proof.
  intro H. unfold Panel.update_data.
  destruct (_ <=? _)%Z; [|exact H].
  destruct (Panel.calculate_rsi p (prices_of df)) as [[v|]|]; auto.
  apply update_rsi_state_topped. exact H.
Qed.

Lemma feed_from_topped p seen rest :
  Panel.rsi_topped p = true ->
  forall q, In q (feed_from p seen rest) -> Panel.rsi_topped q = true.
Proof.
  revert p seen; induction rest as [|row rest IH]; intros p seen H q Hq;
    simpl in Hq; [contradiction|].
  destruct Hq as [<-|Hq].
  - apply update_data_topped. exact H.
  - eapply IH; [|exact Hq]. apply update_data_topped. exact H.
Qed.

Lemma dc_rsi_topped_nth a rsi i :
  (2 <= i < length rsi)%nat ->
  nth i (dc_rsi_topped a rsi) false
  = fge (pd_max (slice (i - 10) i rsi)) (thr (dc_overbought_threshold a))
    || (fgt (nthf rsi (i - 1)) (nthf rsi (i - 2))
        && fgt (nthf rsi (i - 1)) (nthf rsi i)
        && fgt (nthf rsi (i - 1)) (Fin 60)).
Proof.
  intro H. unfold dc_rsi_topped. rewrite nth_map_seq by lia.
  destruct (2 <=? i)%nat eqn:E; [|apply Nat.leb_gt in E; lia].
  unfold dc_topped_at. rewrite E, Nat.max_0_l.
  destruct (fge _ _); cbn [andb orb]; [reflexivity|].
  destruct (fgt (nthf rsi (i - 1)) (nthf rsi (i - 2))); cbn [andb]; [|reflexivity].
  destruct (fgt (nthf rsi (i - 1)) (nthf rsi i)); cbn [andb]; [|reflexivity].
  destruct (fgt (nthf rsi (i - 1)) (Fin 60)); reflexivity.
Qed.

(** C5 (as amended).  In the live state machine, once the topped flag is
    true it stays true through every later [update_rsi_state], whatever
    oscillator values and candles arrive, hence through every later
    update of a feed; only a position close that the exchange reports as
    done resets it, a failed close leaves it set.  In the batch
    generator the flag of an index is computed from that index alone: it
    is true exactly when the maximum of the ten preceding oscillator
    values reaches the overbought threshold or the preceding value is a
    local peak above 60. *)
Theorem panel_topped_latched (p : Panel.PAXGPanel) :
  Panel.rsi_topped p = true ->
  (forall current_rsi df,
     Panel.rsi_topped (Panel.update_rsi_state p current_rsi df) = true) /\
  (forall seen rest q, In q (feed_from p seen rest) -> Panel.rsi_topped q = true) /\
  Panel.rsi_topped (Panel.close_position p true) = false /\
  Panel.rsi_topped (Panel.close_position p false) = true /\
  (forall a rsi i, (2 <= i < length rsi)%nat ->
     nth i (dc_rsi_topped a rsi) false
     = fge (pd_max (slice (i - 10) i rsi)) (thr (dc_overbought_threshold a))
       || (fgt (nthf rsi (i - 1)) (nthf rsi (i - 2))
           && fgt (nthf rsi (i - 1)) (nthf rsi i)
           && fgt (nthf rsi (i - 1)) (Fin 60))).
Proof.
  intro H. split; [|split; [|split; [|split]]].
  - intros. apply update_rsi_state_topped. exact H.
  - intros seen rest. apply feed_from_topped. exact H.
  - reflexivity.
  - exact H.
  - intros. apply dc_rsi_topped_nth. assumption.
Qed.

Lemma panel_topped_latched_witness :
  Panel.rsi_topped (Panel.update_rsi_state sample_topped_panel (Fin 40) []) = true /\
  Panel.rsi_topped (Panel.close_position sample_topped_panel true) = false.
Proof.
  destruct (panel_topped_latched sample_topped_panel) as (H1 & _ & H3 & _ & _).
  - reflexivity.
  - split; [apply H1|exact H3].
Defined.

(** C5, refuted as stated for the batch generator.  With period 1 and
    the thresholds 30 and 70 the oscillator of these closes is NaN, 100,
    then 0 throughout.  The batch flag is true at index 11, whose
    ten-sample window still holds the 100 of index 1, and false at index
    12, where that sample has left the window; no trade was closed in
    between. *)
Lemma dc_topped_lapses_counterexample :
  exists rsi,
    calculate_rsi 1 sample_rise_then_slide = Some rsi /\
    nth 11 (dc_rsi_topped sample_dc rsi) false = true /\
    nth 12 (dc_rsi_topped sample_dc rsi) false = false.
Proof.
  eexists. split; [reflexivity|]. split; vm_compute; reflexivity.
Qed.

(** ** Batch and live runs on the same series *)

(** The indicator is causal: on a prefix of the prices it yields the
    prefix of the series. *)
Lemma diff_from_firstn prev ps k :
  diff_from prev (firstn k ps) = firstn k (diff_from prev ps).
Proof.
  revert prev k; induction ps as [|p ps IH]; intros prev [|k]; simpl; auto.
  f_equal. apply IH.
Qed.

Lemma diff_firstn prices k : diff (firstn k prices) = firstn k (diff prices).
Proof.
  destruct prices as [|p ps], k as [|k]; simpl; auto.
  f_equal. apply diff_from_firstn.
Qed.

Lemma ewm_from_firstn alpha w xs k :
  ewm_from alpha w (firstn k xs) = firstn k (ewm_from alpha w xs).
Proof.
  revert w k; induction xs as [|x xs IH]; intros w [|k]; simpl; auto.
  f_equal. apply IH.
Qed.

Lemma ewm_mean_firstn span xs k :
  ewm_mean span (firstn k xs) = firstn k (ewm_mean span xs).
Proof.
  destruct xs as [|x xs], k as [|k]; simpl; auto.
  f_equal. apply ewm_from_firstn.
Qed.

Lemma map2_firstn {A B C} (f : A -> B -> C) l1 l2 k :
  map2 f (firstn k l1) (firstn k l2) = firstn k (map2 f l1 l2).
Proof.
  revert l2 k; induction l1 as [|a l1 IH]; intros [|b l2] [|k]; simpl; auto.
  f_equal. apply IH.
Qed.

Lemma calculate_rsi_firstn period prices rsi k :
  calculate_rsi period prices = Some rsi ->
  calculate_rsi period (firstn k prices) = Some (firstn k rsi).
Proof.
  unfold calculate_rsi. destruct (period <? 1)%Z; [discriminate|].
  intro H; injection H as <-. f_equal.
  unfold where_or_zero.
  rewrite diff_firstn, <- !firstn_map, !ewm_mean_firstn, map2_firstn.
  rewrite <- firstn_map. reflexivity.
Qed.

Lemma firstn_S_snoc {A} (l : list A) k d :
  (k < length l)%nat -> firstn (S k) l = firstn k l ++ [nth k l d].
Proof.
  revert k; induction l as [|a l IH]; intros [|k] H; simpl in *; try lia; auto.
  f_equal. apply IH. lia.
Qed.

Lemma last_firstn_S {A} (l : list A) k d :
  (k < length l)%nat -> last (firstn (S k) l) d = nth k l d.
Proof.
  intro H. rewrite (firstn_S_snoc l k d H). apply last_last.
Qed.

(** [l[-10:]] after an append followed by the pop of an eleventh element. *)
Lemma lastn_snoc {A} (l : list A) x :
  (let values := Panel.lastn 10 l ++ [x] in
   if (10 <? length values)%nat then tl values else values)
  = Panel.lastn 10 (l ++ [x]).
Proof.
  unfold Panel.lastn. cbv zeta.
  rewrite !length_app, length_skipn. simpl length.
  destruct (Nat.le_gt_cases (length l) 9) as [Hle|Hgt].
  - replace (length l - 10)%nat with 0%nat by lia.
    replace (length l + 1 - 10)%nat with 0%nat by lia. simpl skipn.
    destruct (10 <? length l - 0 + 1)%nat eqn:E; [|reflexivity].
    apply Nat.ltb_lt in E. lia.
  - destruct (10 <? length l - (length l - 10) + 1)%nat eqn:E;
      [|apply Nat.ltb_ge in E; lia].
    replace (length l + 1 - 10)%nat with (S (length l - 10)) by lia.
    rewrite skipn_app.
    replace (S (length l - 10) - length l)%nat with 0%nat by lia. simpl skipn.
    assert (Hm : forall (l0 : list A) m0, (m0 < length l0)%nat ->
               tl (skipn m0 l0 ++ [x]) = skipn (S m0) l0 ++ [x]).
    { induction l0 as [|a l0 IH0]; intros [|m0] H0; simpl in *; try lia; auto.
      apply IH0. lia. }
    apply Hm. lia.
Qed.

Lemma lastn_all {A} (l : list A) n : (length l <= n)%nat -> Panel.lastn n l = l.
Proof.
  intro H. unfold Panel.lastn. replace (length l - n)%nat with 0%nat by lia.
  reflexivity.
Qed.

Lemma get_recent_candles_length limit history :
  length (get_recent_candles limit history)
  = Nat.min (Z.to_nat limit) (length history).
Proof.
  unfold get_recent_candles, Panel.lastn. rewrite length_skipn. lia.
Qed.

(** As long as the exchange has no more than [limit] candles, the frame
    fetched is the whole history. *)
Lemma get_recent_candles_all limit history :
  (Z.of_nat (length history) <= limit)%Z ->
  get_recent_candles limit history = history.
Proof.
  intro H. unfold get_recent_candles. apply lastn_all. lia.
Qed.

Lemma live_rsi_length period data : length (live_rsi period data) = length data.
Proof. unfold live_rsi. rewrite length_map, length_seq. reflexivity. Qed.

Lemma nthf_live_rsi period data i :
  (i < length data)%nat -> nthf (live_rsi period data) i = live_rsi_at period data i.
Proof. intro H. unfold nthf, live_rsi. apply nth_map_seq. exact H. Qed.

(** Inside the fetch window the live value is the batch value. *)
Lemma live_rsi_at_in_window period data rsi i :
  calculate_rsi period (prices_of data) = Some rsi ->
  (i < length data)%nat -> (Z.of_nat i < period + 50)%Z ->
  live_rsi_at period data i = nthf rsi i.
Proof.
  intros Hrsi Hi Hw.
  pose proof (calculate_rsi_length _ _ _ Hrsi) as Hlen.
  rewrite prices_of_length in Hlen.
  unfold live_rsi_at.
  rewrite get_recent_candles_all by (rewrite length_firstn; lia).
  unfold prices_of. rewrite <- firstn_map. fold (prices_of data).
  rewrite (calculate_rsi_firstn _ _ _ (S i) Hrsi).
  apply last_firstn_S. lia.
Qed.

Lemma update_data_tracks a data p k :
  (1 <= dc_period a)%Z ->
  panel_tracks a (live_rsi (dc_period a) data) p k -> (k < length data)%nat ->
  let q := Panel.update_data p
             (get_recent_candles (Panel.rsi_period p + 50) (firstn (S k) data)) in
  panel_tracks a (live_rsi (dc_period a) data) q (S k) /\
  ((dc_period a + 1 <= Z.of_nat (S k))%Z ->
   Panel.rsi_value q = Some (nthf (live_rsi (dc_period a) data) k)).
Proof.
  intros Hper (Hp & Hos & Hob & Hv) Hk q. subst q.
  set (rsi := live_rsi (dc_period a) data) in *.
  assert (Hlen : length rsi = length data) by apply live_rsi_length.
  set (df := get_recent_candles (Panel.rsi_period p + 50) (firstn (S k) data)).
  assert (Hdf : length df = Nat.min (Z.to_nat (dc_period a + 50)) (S k)).
  { unfold df. rewrite get_recent_candles_length, Hp, length_firstn. lia. }
  unfold Panel.update_data. rewrite Hp, Hdf.
  destruct (dc_period a + 1
            <=? Z.of_nat (Nat.min (Z.to_nat (dc_period a + 50)) (S k)))%Z eqn:E.
  - apply Z.leb_le in E.
    assert (Hcalc : Panel.calculate_rsi p (prices_of df) = Some (Some (nthf rsi k))).
    { unfold Panel.calculate_rsi. rewrite Hp, prices_of_length, Hdf.
      destruct (Z.of_nat (Nat.min (Z.to_nat (dc_period a + 50)) (S k))
                <? dc_period a + 1)%Z eqn:E2; [apply Z.ltb_lt in E2; lia|].
      unfold rsi. rewrite nthf_live_rsi by exact Hk.
      unfold live_rsi_at. unfold df. rewrite Hp.
      destruct (calculate_rsi_some (dc_period a)
                  (prices_of (get_recent_candles (dc_period a + 50)
                                (firstn (S k) data))) Hper) as [r Hr].
      rewrite Hr. reflexivity. }
    rewrite Hcalc. split; [|intros _; reflexivity].
    unfold panel_tracks, Panel.update_rsi_state, Panel.set_rsi_value.
    cbn [Panel.rsi_period Panel.oversold_threshold Panel.overbought_threshold
         Panel.last_rsi_values].
    repeat split; auto.
    rewrite Hv. unfold fed_values.
    pose proof (lastn_snoc (skipn (Z.to_nat (dc_period a)) (firstn k rsi))
                  (nthf rsi k)) as Hs.
    cbv zeta in Hs. rewrite Hs. f_equal.
    rewrite (firstn_S_snoc rsi k NaN) by lia.
    rewrite skipn_app, length_firstn.
    replace (Z.to_nat (dc_period a) - Nat.min k (length rsi))%nat with 0%nat by lia.
    reflexivity.
  - apply Z.leb_gt in E. split; [|lia].
    unfold panel_tracks. repeat split; auto.
    rewrite Hv. unfold fed_values.
    rewrite !skipn_all2 by (rewrite length_firstn; lia). reflexivity.
Qed.

Lemma feed_from_length p seen rest : length (feed_from p seen rest) = length rest.
Proof.
  revert p seen; induction rest as [|row rest IH]; intros p seen; simpl; auto.
Qed.

Lemma skipn_S_tl {A} (l : list A) k : skipn (S k) l = tl (skipn k l).
Proof.
  revert l; induction k as [|k IH]; intros [|a l]; simpl; auto.
  rewrite <- IH. reflexivity.
Qed.

Lemma feed_from_tracks a data :
  (1 <= dc_period a)%Z ->
  forall rest seen p k,
    seen = firstn k data -> rest = skipn k data -> (k <= length data)%nat ->
    panel_tracks a (live_rsi (dc_period a) data) p k ->
    forall j q, nth_error (feed_from p seen rest) j = Some q ->
      panel_tracks a (live_rsi (dc_period a) data) q (k + S j) /\
      ((dc_period a + 1 <= Z.of_nat (k + S j))%Z ->
       Panel.rsi_value q = Some (nthf (live_rsi (dc_period a) data) (k + j))).
Proof.
  intro Hper. induction rest as [|row rest IH];
    intros seen p k Hseen Hrest Hk Htr j q Hq; cbn [feed_from] in Hq.
  - destruct j; discriminate.
  - assert (Hklt : (k < length data)%nat).
    { destruct (Nat.lt_ge_cases k (length data)) as [H|H]; [exact H|].
      rewrite skipn_all2 in Hrest by lia. discriminate. }
    assert (Hrow : nth_error data k = Some row).
    { rewrite <- (Nat.add_0_r k), <- nth_error_skipn, <- Hrest. reflexivity. }
    assert (Hdf : seen ++ [row] = firstn (S k) data).
    { rewrite Hseen. clear - Hrow. revert k Hrow.
      induction data as [|r data IHd]; intros [|k] Hrow; simpl in *;
        try discriminate.
      - congruence.
      - f_equal. apply IHd. exact Hrow. }
    cbv zeta in Hq. rewrite Hdf in Hq.
    destruct (update_data_tracks a data p k Hper Htr Hklt) as [Htr' Hval].
    destruct j as [|j]; cbn [nth_error] in Hq.
    + injection Hq as <-. rewrite Nat.add_0_r, Nat.add_1_r. split; assumption.
    + replace (k + S (S j))%nat with (S k + S j)%nat by lia.
      replace (k + S j)%nat with (S k + j)%nat by lia.
      apply (IH (firstn (S k) data)
                (Panel.update_data p
                   (get_recent_candles (Panel.rsi_period p + 50)
                      (firstn (S k) data))) (S k));
        auto; try lia.
      rewrite skipn_S_tl, <- Hrest. reflexivity.
Qed.

Lemma feed_tracks a data i q :
  (1 <= dc_period a)%Z ->
  nth_error (feed (Panel.init (dc_period a) (dc_oversold_threshold a)
                              (dc_overbought_threshold a)) data) i = Some q ->
  (i < length data)%nat /\
  panel_tracks a (live_rsi (dc_period a) data) q (S i) /\
  ((dc_period a + 1 <= Z.of_nat (S i))%Z ->
   Panel.rsi_value q = Some (nthf (live_rsi (dc_period a) data) i)).
Proof.
  intros Hper Hq. unfold feed in Hq.
  assert (Hin : (i < length data)%nat).
  { rewrite <- (feed_from_length
                  (Panel.init (dc_period a) (dc_oversold_threshold a)
                     (dc_overbought_threshold a)) [] data).
    apply nth_error_Some. congruence. }
  assert (Hinit : panel_tracks a (live_rsi (dc_period a) data)
                    (Panel.init (dc_period a) (dc_oversold_threshold a)
                                (dc_overbought_threshold a)) 0).
  { unfold panel_tracks, fed_values. simpl firstn. rewrite skipn_nil.
    repeat split; reflexivity. }
  destruct (feed_from_tracks a data Hper data [] _ 0%nat
              eq_refl eq_refl ltac:(lia) Hinit i q Hq) as [Htr Hval].
  simpl in Htr, Hval. split; [exact Hin|]. split; assumption.
Qed.

(** Inside the fetch window the values the panel has computed are the
    batch values. *)
Lemma firstn_live_rsi period data rsi k :
  calculate_rsi period (prices_of data) = Some rsi ->
  (k <= length data)%nat -> (Z.of_nat k <= period + 50)%Z ->
  firstn k (live_rsi period data) = firstn k rsi.
Proof.
  intros Hrsi Hk Hw.
  pose proof (calculate_rsi_length _ _ _ Hrsi) as Hlen.
  rewrite prices_of_length in Hlen.
  apply (nth_ext _ _ NaN NaN).
  - rewrite !length_firstn, live_rsi_length. lia.
  - intros n Hn. rewrite length_firstn, live_rsi_length in Hn.
    rewrite !nth_firstn.
    destruct (n <? k)%nat eqn:E; [|reflexivity].
    apply Nat.ltb_lt in E.
    change (nthf (live_rsi period data) n = nthf rsi n).
    rewrite nthf_live_rsi by lia.
    apply (live_rsi_at_in_window period data rsi n Hrsi); lia.
Qed.

Lemma fed_values_length period rsi k :
  (k <= length rsi)%nat ->
  length (fed_values period rsi k) = Nat.min 10 (k - Z.to_nat period).
Proof.
  intro H. unfold fed_values, Panel.lastn.
  rewrite !length_skipn, length_firstn. lia.
Qed.

Lemma fed_values_from_end period rsi k m :
  (k <= length rsi)%nat -> (1 <= m <= 10)%nat ->
  (m <= k - Z.to_nat period)%nat ->
  Panel.from_end (fed_values period rsi k) m = nthf rsi (k - m).
Proof.
  intros Hk Hm Hlen. unfold Panel.from_end.
  rewrite fed_values_length by exact Hk.
  unfold fed_values, Panel.lastn.
  rewrite nth_skipn, nth_skipn, nth_firstn.
  rewrite length_skipn, length_firstn.
  match goal with |- (if ?c then _ else _) = _ => destruct c eqn:E end.
  - unfold nthf. f_equal. lia.
  - apply Nat.ltb_ge in E. lia.
Qed.

(** C2 (as amended).  Let the live panel start from its initial state with
    the strategy's period and thresholds and receive the series one
    candle at a time, computing at each update on the frame it fetches,
    the latest [period + 50] candles.  It has a state for every candle.
    At every index after the first one it processes (index above the
    period) the oscillator value it holds is the one of the fetched
    frame, and its cover check is the crossing of the oversold threshold
    by the last two such values.  At the indices below [period + 50],
    where the fetched frame is still the whole series, that value is the
    batch value of the index and the cover check gives exactly the batch
    cover condition of the index. *)
Theorem live_cover_agrees_with_batch (a : RSI1MinDoubleConfirmAlgorithm)
  (data : DataFrame) (rsi : list fl) :
  calculate_rsi (dc_period a) (prices_of data) = Some rsi ->
  let states :=
    feed (Panel.init (dc_period a) (dc_oversold_threshold a)
                     (dc_overbought_threshold a)) data in
  let live := live_rsi (dc_period a) data in
  length states = length data /\
  forall i q,
    nth_error states i = Some q ->
    (dc_period a + 1 <= Z.of_nat i)%Z ->
    (Panel.rsi_value q = Some (nthf live i) /\
     Panel.check_cover_signal q (nthf live i)
     = fle (nthf live i) (thr (dc_oversold_threshold a))
       && fgt (nthf live (i - 1)) (thr (dc_oversold_threshold a))) /\
    ((Z.of_nat i < dc_period a + 50)%Z ->
     Panel.rsi_value q = Some (nthf rsi i) /\
     Panel.check_cover_signal q (nthf rsi i)
     = nth i (dc_cover_condition a rsi) false).
Proof.
  intros Hrsi states live. subst states. unfold feed.
  split; [apply feed_from_length|].
  intros i q Hq Hi.
  pose proof (calculate_rsi_length _ _ _ Hrsi) as Hlen.
  rewrite prices_of_length in Hlen.
  pose proof (calculate_rsi_period _ _ _ Hrsi) as Hper.
  destruct (feed_tracks a data i q Hper Hq)
    as (Hin & (Hp & Hos & Hob & Hv) & Hval).
  fold live in Hv, Hval.
  assert (Hll : length live = length data) by apply live_rsi_length.
  assert (Hcover : Panel.check_cover_signal q (nthf live i)
                   = fle (nthf live i) (thr (dc_oversold_threshold a))
                     && fgt (nthf live (i - 1)) (thr (dc_oversold_threshold a))).
  { unfold Panel.check_cover_signal. rewrite Hv, Hos.
    rewrite fed_values_length by lia.
    destruct (2 <=? Nat.min 10 (S i - Z.to_nat (dc_period a)))%nat eqn:E;
      [|apply Nat.leb_gt in E; lia].
    rewrite fed_values_from_end by lia.
    replace (S i - 2)%nat with (i - 1)%nat by lia. reflexivity. }
  split; [split; [apply Hval; lia|exact Hcover]|].
  intro Hw.
  assert (Hi0 : nthf live i = nthf rsi i).
  { unfold live. rewrite nthf_live_rsi by exact Hin.
    apply (live_rsi_at_in_window _ _ _ _ Hrsi); lia. }
  assert (Hi1 : nthf live (i - 1) = nthf rsi (i - 1)).
  { unfold live. rewrite nthf_live_rsi by lia.
    apply (live_rsi_at_in_window _ _ _ _ Hrsi); lia. }
  rewrite <- Hi0. split; [apply Hval; lia|].
  rewrite Hcover, Hi0, Hi1.
  rewrite dc_cover_condition_nth by lia.
  destruct i as [|i]; [lia|].
  rewrite nth_shift1_S by lia.
  replace (S i - 1)%nat with i by lia. reflexivity.
Qed.

Lemma live_cover_agrees_with_batch_witness :
  exists rsi q,
    calculate_rsi 10 (prices_of sample_jump_then_break) = Some rsi /\
    nth_error (feed bot_panel sample_jump_then_break) 12 = Some q /\
    Panel.rsi_value q = Some (nthf rsi 12) /\
    Panel.check_cover_signal q (nthf rsi 12)
    = nth 12 (dc_cover_condition bot_dc rsi) false.
Proof.
  destruct (calculate_rsi 10 (prices_of sample_jump_then_break)) as [rsi|] eqn:Hrsi;
    [|vm_compute in Hrsi; discriminate].
  destruct (live_cover_agrees_with_batch bot_dc sample_jump_then_break rsi Hrsi)
    as [Hlen Hall].
  destruct (nth_error (feed bot_panel sample_jump_then_break) 12) as [q|] eqn:Hq.
  - exists rsi, q. split; [reflexivity|]. split; [reflexivity|].
    apply (Hall 12%nat q Hq); vm_compute; [discriminate|reflexivity].
  - apply nth_error_None in Hq. change (feed bot_panel sample_jump_then_break)
      with (feed (Panel.init (dc_period bot_dc) (dc_oversold_threshold bot_dc)
                    (dc_overbought_threshold bot_dc)) sample_jump_then_break) in Hq.
    rewrite Hlen in Hq. simpl in Hq. lia.
Defined.

(** C2, refuted as stated.  With the bot's settings (period 10,
    thresholds 20 and 65) and thirteen candles whose closes (and lows)
    are eleven times 100, then 110, then 99: at index 12 the batch
    generator has the topped flag set, the support level 100 and emits
    the short signal -1; the live panel, fed the same candles one at a
    time, holds the same oscillator value there but has the flag unset
    and the support level 99, and neither its short check nor its cover
    check fires. *)
Lemma live_differs_from_batch_counterexample :
  exists rsi signals q r,
    calculate_rsi 10 (prices_of sample_jump_then_break) = Some rsi /\
    dc_generate_signals bot_dc (prices_of sample_jump_then_break) = Some signals /\
    nth 12 signals 0%Z = (-1)%Z /\
    nth 12 (dc_rsi_topped bot_dc rsi) false = true /\
    feq (nthf (dc_support_levels (prices_of sample_jump_then_break)) 12) (Fin 100) /\
    nth_error (feed bot_panel sample_jump_then_break) 12 = Some q /\
    Panel.rsi_value q = Some r /\ r = nthf rsi 12 /\
    Panel.rsi_topped q = false /\
    (exists s, Panel.support_level q = Some s /\ feq s (Fin 99)) /\
    Panel.check_short_signal q r 99 = false /\
    Panel.check_cover_signal q r = false.
Proof.
  eexists. eexists. eexists. eexists.
  split; [reflexivity|]. split; [reflexivity|].
  split; [vm_compute; reflexivity|]. split; [vm_compute; reflexivity|].
  split; [vm_compute; reflexivity|]. split; [vm_compute; reflexivity|].
  split; [vm_compute; reflexivity|]. split; [vm_compute; reflexivity|].
  split; [vm_compute; reflexivity|].
  split; [eexists; split; [vm_compute; reflexivity|vm_compute; reflexivity]|].
  split; vm_compute; reflexivity.
Qed.

(** Beyond the fetch window the live oscillator is not the batch one.
    With the bot's settings the panel fetches sixty candles.  On
    [sample_early_jump] the frame fetched at index 60 no longer holds the
    rise of index 1: the live value there is 0 and, the value before
    being 100, the live cover check fires; the batch oscillator still
    carries that rise, its value at index 60 is above 41 and the batch
    cover condition is false. *)
Lemma live_cover_beyond_window_differs :
  exists rsi q r,
    calculate_rsi 10 (prices_of sample_early_jump) = Some rsi /\
    nth_error (feed bot_panel sample_early_jump) 60 = Some q /\
    Panel.rsi_value q = Some r /\
    feq r (Fin 0) /\
    fgt (nthf rsi 60) (Fin 41) = true /\
    Panel.check_cover_signal q r = true /\
    nth 60 (dc_cover_condition bot_dc rsi) false = false.
Proof.
  eexists. eexists. eexists.
  split; [vm_compute; reflexivity|]. split; [vm_compute; reflexivity|].
  split; [vm_compute; reflexivity|]. split; [vm_compute; reflexivity|].
  split; [vm_compute; reflexivity|].
  split; vm_compute; reflexivity.
Qed.

(** ** Finite profits on positive prices *)

Lemma fdiv_fin_pos x y : 0 < y -> fdiv (Fin x) (Fin y) = Fin (x / y).
Proof.
  intro H. unfold fdiv, fdiv_gen.
  destruct (Qeq_bool y 0) eqn:E; [|reflexivity].
  apply Qeq_bool_iff in E. lra.
Qed.

Lemma simulate_trade_fin e prices idx il x p r :
  (forall q, In q prices -> 0 < q) ->
  simulate_trade e prices idx il = Some (x, p, r) -> is_fin p.
Proof.
  intros Hpos. unfold simulate_trade.
  destruct (nth_error prices idx) as [entry|] eqn:He; [|discriminate].
  assert (Hentry : 0 < entry) by (apply Hpos; eapply nth_error_In; eauto).
  destruct (calculate_exit_price e entry il) as [tp sl].
  destruct (scan_exit e il tp sl (S idx) (skipn (S idx) prices))
    as [[[i pr] rr]|].
  - intro H; injection H as _ <- _. eexists; reflexivity.
  - rewrite fdiv_fin_pos by exact Hentry.
    intro H; injection H as _ <- _.
    destruct il; eexists; reflexivity.
Qed.

Lemma positive_prices_of data :
  positive_prices data -> forall q, In q (prices_of data) -> 0 < q.
Proof.
  intros H q Hq. unfold prices_of in Hq. apply in_map_iff in Hq.
  destruct Hq as (row & <- & Hrow). auto.
Qed.

Lemma trade_ok_fin e data b t :
  positive_prices data -> trade_ok e data b t -> is_fin (profit_pct t).
Proof.
  intros Hpos (x & _ & (er & Her & _ & Hep) & Hc).
  destruct Hc as [(pr & Hsim & Hpp & _)|(_ & _ & _ & _ & Hpp)].
  - destruct (simulate_trade_fin _ _ _ _ _ _ _ (positive_prices_of _ Hpos) Hsim)
      as [q ->].
    rewrite Hpp. eexists; reflexivity.
  - assert (Hentry : 0 < entry_price t).
    { rewrite <- Hep. apply Hpos. eapply nth_error_In; eauto. }
    rewrite Hpp. unfold forced_profit_pct.
    rewrite !fdiv_fin_pos by exact Hentry.
    destruct (is_long_side (type t)); eexists; reflexivity.
Qed.

Lemma pd_sum_fin_from acc s :
  is_fin acc -> Forall is_fin s ->
  is_fin (fold_left (fun a x => if is_nan x then a else fadd a x) s acc).
Proof.
  intros Hacc Hs; revert acc Hacc; induction Hs as [|x s [q ->] _ IH];
    intros acc [a ->]; simpl.
  - eexists; reflexivity.
  - apply IH. eexists; reflexivity.
Qed.

Lemma metrics_total_profit_fin trades :
  Forall (fun t => is_fin (profit_pct t)) trades ->
  is_fin (total_profit (calculate_performance_metrics trades)).
Proof.
  intro H. destruct trades as [|t l]; [eexists; reflexivity|].
  cbn [calculate_performance_metrics total_profit]. unfold pd_sum.
  apply pd_sum_fin_from; [eexists; reflexivity|].
  apply Forall_map. exact H.
Qed.

Lemma backtest_total_profit_fin e data trades metrics :
  increasing_index data -> positive_prices data ->
  backtest e data = Some (trades, metrics) -> is_fin (total_profit metrics).
Proof.
  intros Hinc Hpos. unfold backtest.
  destruct (generate_signals (algorithm e) data) as [signals|] eqn:Hsig;
    [|discriminate].
  pose proof (generate_signals_length _ _ _ Hsig) as Hlen.
  destruct (backtest_trades_ok e data signals Hinc Hlen)
    as (trades' & Hbt & Hch & Hok).
  rewrite Hbt. intro H; injection H as <- <-.
  apply metrics_total_profit_fin.
  eapply Forall_impl; [|exact Hok].
  intros t. apply trade_ok_fin. exact Hpos.
Qed.

(** ** Parameter optimizer *)

Section OptimizerProperties.

Variable RSI_PARAMS MACD_PARAMS SUPPORT_VOLUME_PARAMS VOL24_PARAMS SMA_PARAMS
  : RiskRanges.
Variable COMMISSION_RATE : Q.
Variable MIN_TRADES_THRESHOLD : Z.
Variable algorithm_name : string.
Variable data : DataFrame.

Local Abbreviation evaluated_c := (evaluated COMMISSION_RATE algorithm_name data).
Local Abbreviation meets_c := (meets_threshold MIN_TRADES_THRESHOLD).
Local Abbreviation best_of_c := (best_of MIN_TRADES_THRESHOLD).

Hypothesis evaluate_fin :
  forall params trades metrics,
    evaluate COMMISSION_RATE algorithm_name data params = Some (trades, metrics) ->
    is_fin (total_profit metrics).

Lemma evaluated_app c1 c2 : evaluated_c (c1 ++ c2) = evaluated_c c1 ++ evaluated_c c2.
Proof. unfold evaluated. apply flat_map_app. Qed.

Lemma evaluated_fin E pm :
  In pm (evaluated_c E) -> is_fin (total_profit (snd pm)).
Proof.
  unfold evaluated. rewrite in_flat_map. intros (params & _ & Hin).
  destruct (evaluate COMMISSION_RATE algorithm_name data params)
    as [[trades metrics]|] eqn:Ev; [|contradiction].
  destruct Hin as [<-|[]]. simpl. eapply evaluate_fin; eauto.
Qed.

Lemma optimize_step_inv done res0 acc params :
  fst acc = res0 ++ map (fun pm => result_row (fst pm) (snd pm)) (evaluated_c done) ->
  best_of_c (evaluated_c done) (snd acc) ->
  let acc' := optimize_step COMMISSION_RATE MIN_TRADES_THRESHOLD
                algorithm_name data acc params in
  fst acc' = res0 ++ map (fun pm => result_row (fst pm) (snd pm))
                         (evaluated_c (done ++ [params])) /\
  best_of_c (evaluated_c (done ++ [params])) (snd acc').
Proof.
  destruct acc as [results best]; cbn [fst snd]. intros Hres Hbest.
  rewrite evaluated_app. unfold optimize_step.
  assert (Hone : evaluated_c [params]
                 = match evaluate COMMISSION_RATE algorithm_name data params with
                   | Some (_, metrics) => [(params, metrics)]
                   | None => []
                   end).
  { unfold evaluated. simpl. apply app_nil_r. }
  rewrite Hone.
  destruct (evaluate COMMISSION_RATE algorithm_name data params)
    as [[trades metrics]|] eqn:Ev.
  - destruct (evaluate_fin _ _ _ Ev) as [q Hq].
    assert (Hrows : results ++ [result_row params metrics]
                    = res0 ++ map (fun pm => result_row (fst pm) (snd pm))
                                  (evaluated_c done ++ [(params, metrics)])).
    { rewrite map_app, app_assoc, <- Hres. reflexivity. }
    destruct (fgt (total_profit metrics) (best_total_profit best)
              && (MIN_TRADES_THRESHOLD <=? Z.of_nat (total_trades metrics))%Z)
      eqn:Econd; cbn [fst snd].
    + (* the new combination becomes the best *)
      split; [exact Hrows|].
      apply andb_true_iff in Econd as [Hgt Hthr]. apply Z.leb_le in Hthr.
      unfold best_of; cbn [best_parameters best_metrics best_total_profit].
      exists metrics. repeat split; auto.
      { apply in_or_app. right. left. reflexivity. }
      intros pm Hin Hm. apply in_app_or in Hin as [Hin|[<-|[]]].
      * destruct (evaluated_fin _ _ Hin) as [q' Hq'].
        unfold best_of in Hbest.
        destruct (best_parameters best) as [bp|].
        -- destruct Hbest as (m0 & _ & Hin0 & _ & Hbtp & Hmax).
           specialize (Hmax pm Hin Hm).
           destruct (evaluated_fin _ _ Hin0) as [q0 Hq0]; cbn [snd] in Hq0.
           rewrite Hbtp, Hq0, Hq in Hgt. rewrite Hq', Hq0 in Hmax.
           rewrite Hq', Hq. unfold fgt in Hgt. simpl in *.
           apply Qltb_lt in Hgt. apply Qle_bool_iff in Hmax.
           apply Qle_bool_iff. lra.
        -- destruct Hbest as [_ Hnone]. exfalso. apply (Hnone pm Hin Hm).
      * cbn [snd]. rewrite Hq. simpl. apply Qle_bool_iff. lra.
    + (* the best so far stays *)
      split; [exact Hrows|].
      apply andb_false_iff in Econd.
      unfold best_of in *. destruct (best_parameters best) as [bp|].
      * destruct Hbest as (m0 & Hbm & Hin0 & Hm0 & Hbtp & Hmax).
        exists m0. repeat split; auto.
        { apply in_or_app. left. exact Hin0. }
        intros pm Hin Hm. apply in_app_or in Hin as [Hin|[<-|[]]]; [auto|].
        cbn [snd] in *.
        destruct Econd as [Hng|Hthr];
          [|apply Z.leb_gt in Hthr; unfold meets_threshold in Hm; lia].
        destruct (evaluated_fin _ _ Hin0) as [q0 Hq0]; cbn [snd] in Hq0.
        rewrite Hbtp, Hq0, Hq in Hng. rewrite Hq, Hq0.
        unfold fgt in Hng. simpl in *.
        apply Qltb_ge in Hng. apply Qle_bool_iff. exact Hng.
      * destruct Hbest as [Hinit Hnone]. split; [exact Hinit|].
        intros pm Hin Hm. apply in_app_or in Hin as [Hin|[<-|[]]];
          [exact (Hnone pm Hin Hm)|].
        cbn [snd] in *.
        destruct Econd as [Hng|Hthr];
          [|apply Z.leb_gt in Hthr; unfold meets_threshold in Hm; lia].
        rewrite Hinit, Hq in Hng. discriminate.
  - cbn [fst snd]. rewrite app_nil_r. split; assumption.
Qed.

Lemma optimize_fold_inv combinations :
  forall done res0 acc,
    fst acc = res0 ++ map (fun pm => result_row (fst pm) (snd pm)) (evaluated_c done) ->
    best_of_c (evaluated_c done) (snd acc) ->
    let acc' := fold_left (optimize_step COMMISSION_RATE MIN_TRADES_THRESHOLD
                             algorithm_name data) combinations acc in
    fst acc' = res0 ++ map (fun pm => result_row (fst pm) (snd pm))
                           (evaluated_c (done ++ combinations)) /\
    best_of_c (evaluated_c (done ++ combinations)) (snd acc').
Proof.
  induction combinations as [|c cs IH]; intros done res0 acc Hres Hbest.
  - simpl. rewrite app_nil_r. split; assumption.
  - simpl fold_left.
    destruct (optimize_step_inv done res0 acc c Hres Hbest) as [Hres' Hbest'].
    specialize (IH (done ++ [c]) res0 _ Hres' Hbest').
    rewrite <- app_assoc in IH. exact IH.
Qed.

Lemma optimize_loop_spec combinations :
  let '(results, best) :=
    optimize_loop COMMISSION_RATE MIN_TRADES_THRESHOLD algorithm_name data
                  combinations [] in
  results = map (fun pm => result_row (fst pm) (snd pm)) (evaluated_c combinations) /\
  best_of_c (evaluated_c combinations) best.
Proof.
  unfold optimize_loop.
  destruct (optimize_fold_inv combinations [] [] ([], initial_best))
    as [Hres Hbest].
  - reflexivity.
  - unfold best_of. simpl. split; [reflexivity|]. intros pm [].
  - destruct (fold_left _ combinations ([], initial_best)) as [results best].
    simpl in *. split; assumption.
Qed.

End OptimizerProperties.

Lemma positive_prices_check data :
  forallb (fun row => Qltb 0 (price row)) data = true -> positive_prices data.
Proof.
  intros H row Hin. rewrite forallb_forall in H.
  apply Qltb_lt. apply H. exact Hin.
Qed.

Lemma evaluate_total_profit_fin commission_rate name data params trades metrics :
  increasing_index data -> positive_prices data ->
  evaluate commission_rate name data params = Some (trades, metrics) ->
  is_fin (total_profit metrics).
Proof.
  intros Hinc Hpos. unfold evaluate.
  destruct (create_algorithm name _ _ _) as [alg|]; [|discriminate].
  apply backtest_total_profit_fin; assumption.
Qed.

(** C7.  On a candle frame with a strictly increasing index and positive
    prices, a run of [optimize] that gets its combinations returns, and:
    [self.results] holds one row for every combination whose evaluation
    did not raise, whatever its trade count; if some evaluated
    combination has total_trades at or above the minimum-trade threshold,
    the returned best result carries the parameters and metrics of an
    evaluated combination that meets the threshold and whose total_profit
    is at least that of every evaluated combination meeting the
    threshold; if none does, the returned result is the initial one, with
    parameters None. *)
Theorem optimize_selects_best
  (RSI_PARAMS MACD_PARAMS SUPPORT_VOLUME_PARAMS VOL24_PARAMS SMA_PARAMS : RiskRanges)
  (COMMISSION_RATE : Q) (MIN_TRADES_THRESHOLD : Z)
  (algorithm_name : string) (data : DataFrame) (combinations : list ParamSet) :
  increasing_index data -> positive_prices data ->
  get_parameter_combinations RSI_PARAMS MACD_PARAMS SUPPORT_VOLUME_PARAMS
    VOL24_PARAMS SMA_PARAMS algorithm_name = Some combinations ->
  exists results best,
    optimize RSI_PARAMS MACD_PARAMS SUPPORT_VOLUME_PARAMS VOL24_PARAMS SMA_PARAMS
      COMMISSION_RATE MIN_TRADES_THRESHOLD algorithm_name data
    = Some (results, best) /\
    let E := evaluated COMMISSION_RATE algorithm_name data combinations in
    let meets := meets_threshold MIN_TRADES_THRESHOLD in
    results = map (fun pm => result_row (fst pm) (snd pm)) E /\
    ((exists pm, In pm E /\ meets (snd pm)) ->
     exists params metrics,
       best_parameters best = Some params /\
       best_metrics best = Some metrics /\
       best_total_profit best = total_profit metrics /\
       In (params, metrics) E /\ meets metrics /\
       forall pm, In pm E -> meets (snd pm) ->
                  fle (total_profit (snd pm)) (total_profit metrics) = true) /\
    ((forall pm, In pm E -> ~ meets (snd pm)) ->
     best_parameters best = None /\ best = initial_best).
Proof.
  intros Hinc Hpos Hcomb. unfold optimize. rewrite Hcomb.
  pose proof (optimize_loop_spec COMMISSION_RATE MIN_TRADES_THRESHOLD
                algorithm_name data
                (fun params trades metrics =>
                   evaluate_total_profit_fin COMMISSION_RATE algorithm_name data
                     params trades metrics Hinc Hpos)
                combinations) as Hspec.
  destruct (optimize_loop COMMISSION_RATE MIN_TRADES_THRESHOLD algorithm_name
              data combinations []) as [results best].
  destruct Hspec as [Hres Hbest].
  exists results, best. split; [reflexivity|]. cbv zeta.
  split; [exact Hres|]. unfold best_of in Hbest. split.
  - intros (pm & Hin & Hm).
    destruct (best_parameters best) as [params|].
    + destruct Hbest as (metrics & Hbm & Hin' & Hm' & Hbtp & Hmax).
      exists params, metrics. repeat split; auto.
    + destruct Hbest as [_ Hnone]. exfalso. exact (Hnone pm Hin Hm).
  - intros Hnone.
    destruct (best_parameters best) as [params|].
    + destruct Hbest as (metrics & _ & Hin' & Hm' & _).
      exfalso. exact (Hnone _ Hin' Hm').
    + destruct Hbest as [Hinit _]. split; [reflexivity|exact Hinit].
Qed.

Lemma optimize_selects_best_witness :
  exists results best,
    optimize sample_risk sample_risk sample_risk sample_risk sample_risk
      (1 # 1000) 1 "RSI" sample_two_trades = Some (results, best) /\
    length results = 96%nat.
Proof.
  destruct (optimize_selects_best sample_risk sample_risk sample_risk sample_risk
              sample_risk (1 # 1000) 1 "RSI" sample_two_trades
              (product_combinations
                 (get_parameter_ranges
                    (AlgRSI {| rsi_period := 14; rsi_oversold_threshold := 30;
                               rsi_overbought_threshold := 70 |}))
                 sample_risk))
    as (results & best & Hopt & Hres & _).
  - apply increasing_timestamps_sound. reflexivity.
  - apply positive_prices_check. reflexivity.
  - reflexivity.
  - exists results, best. split; [exact Hopt|].
    vm_compute in Hopt. injection Hopt as <- _. reflexivity.
Defined.

(** * Further properties of the code *)

(** ** The oscillator, index by index *)

Lemma nth_diff_S prices i :
  (S i < length prices)%nat ->
  nth (S i) (diff prices) NaN = Fin (nth (S i) prices 0 - nth i prices 0).
Proof.
  destruct prices as [|p0 ps]; simpl; [lia|]. intro H.
  assert (Hi : (i < length ps)%nat) by lia. clear H.
  revert p0 i Hi. induction ps as [|p ps IH]; intros p0 i Hi; simpl in *; [lia|].
  destruct i as [|i]; [reflexivity|]. apply IH. lia.
Qed.

Lemma nth_ewm_mean_0 span xs : nth 0 (ewm_mean span xs) NaN = nth 0 xs NaN.
Proof. destruct xs; reflexivity. Qed.

Lemma nth_ewm_from alpha w xs i :
  (i < length xs)%nat ->
  nth i (ewm_from alpha w xs) NaN
  = ewm_step alpha (match i with
                    | O => w
                    | S j => nth j (ewm_from alpha w xs) NaN
                    end) (nth i xs NaN).
Proof.
  revert w i; induction xs as [|x xs IH]; intros w i Hi; simpl in *; [lia|].
  destruct i as [|i]; [reflexivity|].
  rewrite IH by lia. destruct i; reflexivity.
Qed.

Lemma nth_ewm_mean_S span xs i :
  (S i < length xs)%nat ->
  nth (S i) (ewm_mean span xs) NaN
  = ewm_step (ewm_alpha span) (nth i (ewm_mean span xs) NaN) (nth (S i) xs NaN).
Proof.
  destruct xs as [|x xs]; simpl; [lia|]. intro H.
  rewrite nth_ewm_from by lia. destruct i; reflexivity.
Qed.

Lemma nth_rsi period prices rsi i :
  calculate_rsi period prices = Some rsi -> (i < length prices)%nat ->
  nthf rsi i
  = rsi_of_rs
      (rs_of (nth i (ewm_mean period
                       (where_or_zero (fun d => fgt d (Fin 0)) (diff prices))) NaN)
             (nth i (ewm_mean period
                       (map fneg (where_or_zero (fun d => flt d (Fin 0))
                                                (diff prices)))) NaN)).
Proof.
  unfold calculate_rsi. destruct (period <? 1)%Z; [discriminate|].
  intros H Hi; injection H as <-. unfold nthf, where_or_zero.
  rewrite (nth_map_in rsi_of_rs _ i NaN NaN).
  - rewrite (nth_map2 rs_of _ _ i NaN NaN NaN);
      rewrite ?ewm_mean_length, ?length_map, ?diff_length; auto.
  - rewrite map2_length; rewrite !ewm_mean_length, ?length_map, ?diff_length; auto.
Qed.

Lemma gain_series_length prices : length (gain_series prices) = length prices.
Proof. unfold gain_series, where_or_zero. rewrite length_map. apply diff_length. Qed.

Lemma loss_series_length prices : length (loss_series prices) = length prices.
Proof.
  unfold loss_series, where_or_zero. rewrite !length_map. apply diff_length.
Qed.

Lemma nth_gain_0 prices : prices <> [] -> nth 0 (gain_series prices) NaN = Fin 0.
Proof. destruct prices; [congruence|reflexivity]. Qed.

Lemma nth_loss_0 prices : prices <> [] -> nth 0 (loss_series prices) NaN = Fin (- 0).
Proof. destruct prices; [congruence|reflexivity]. Qed.

Lemma nth_gain_S prices i :
  (S i < length prices)%nat ->
  nth (S i) (gain_series prices) NaN
  = let d := nth (S i) prices 0 - nth i prices 0 in
    if Qltb 0 d then Fin d else Fin 0.
Proof.
  intro H. unfold gain_series, where_or_zero.
  rewrite (nth_map_in _ _ _ NaN) by (rewrite diff_length; lia).
  rewrite nth_diff_S by exact H. reflexivity.
Qed.

Lemma nth_loss_S prices i :
  (S i < length prices)%nat ->
  nth (S i) (loss_series prices) NaN
  = let d := nth (S i) prices 0 - nth i prices 0 in
    if Qltb d 0 then Fin (- d) else Fin (- 0).
Proof.
  intro H. unfold loss_series, where_or_zero. rewrite map_map.
  rewrite (nth_map_in _ _ _ NaN) by (rewrite diff_length; lia).
  rewrite nth_diff_S by exact H. cbv zeta. simpl flt.
  destruct (Qltb _ 0); reflexivity.
Qed.

Lemma Forall_nth_nonneg s i :
  Forall nonneg s -> (i < length s)%nat -> nonneg (nth i s NaN).
Proof.
  intros H Hi. rewrite Forall_forall in H. apply H. apply nth_In. exact Hi.
Qed.

Lemma ewm_step_positive alpha w c :
  0 < alpha -> alpha <= 1 -> nonneg w -> positive c ->
  positive (ewm_step alpha w c).
Proof.
  intros Ha0 Ha1. destruct w as [| | |w], c as [| | |c]; simpl; try contradiction.
  intros Hw Hc. unfold ewm_step; simpl.
  destruct (Qeq_bool w c) eqn:E; simpl.
  - apply Qeq_bool_iff in E. lra.
  - assert (0 <= (1 - alpha) * w) by (apply Qmult_le_0_compat; lra).
    assert (0 < alpha * c) by (apply Qmult_lt_0_compat; lra).
    lra.
Qed.

(** Where the input of the smoothing is positive, so is its output. *)
Lemma ewm_mean_positive_at span xs i :
  (1 <= span)%Z -> Forall nonneg xs -> (i < length xs)%nat ->
  positive (nth i xs NaN) -> positive (nth i (ewm_mean span xs) NaN).
Proof.
  intros Hs Hxs Hi Hpos. destruct (ewm_alpha_range span Hs) as [H0 H1].
  destruct i as [|i].
  - rewrite nth_ewm_mean_0. exact Hpos.
  - rewrite nth_ewm_mean_S by exact Hi.
    apply ewm_step_positive; auto.
    apply Forall_nth_nonneg; [apply ewm_mean_nonneg; auto|].
    rewrite ewm_mean_length. lia.
Qed.

(** While the input of the smoothing is a constant, so is its output. *)
Lemma ewm_mean_constant_upto span xs z i :
  is_nan z = false -> fne z z = false ->
  (i < length xs)%nat ->
  (forall j, (j <= i)%nat -> nth j xs NaN = z) ->
  nth i (ewm_mean span xs) NaN = z.
Proof.
  intros Hn Hz. induction i as [|i IH]; intros Hi Hall.
  - rewrite nth_ewm_mean_0. apply Hall. lia.
  - rewrite nth_ewm_mean_S by exact Hi.
    rewrite IH by (try lia; intros; apply Hall; lia).
    rewrite Hall by lia. unfold ewm_step. rewrite Hn, Hz. reflexivity.
Qed.

Lemma rsi_of_positive g l :
  nonneg g -> nonneg l -> positive g \/ positive l ->
  in_range 0 100 (rsi_of_rs (rs_of g l)).
Proof.
  intros Hg Hl Hpos.
  destruct (rsi_entry_range g l Hg Hl) as [Hnan|Hr]; [|exact Hr].
  exfalso. destruct g as [| | |g], l as [| | |l]; simpl in *; try contradiction.
  unfold rs_of, fdiv_gen in Hnan.
  destruct (Qeq_bool l 0) eqn:El.
  - apply Qeq_bool_iff in El. unfold inf_of_sign in Hnan.
    destruct (Qltb 0 (- g)) eqn:E1; [discriminate|].
    destruct (Qltb (- g) 0) eqn:E2; [discriminate|].
    apply Qltb_ge in E1, E2. destruct Hpos; lra.
  - unfold rsi_of_rs, fdiv, fdiv_gen, fadd, fsub, fneg in Hnan.
    destruct (Qeq_bool (1 + g / l) 0); discriminate.
Qed.

(** X1.  The oscillator is defined at every index at which the price
    differs from the price of the preceding sample: its value there lies
    in [[0, 100]], however early the index is. *)
Theorem rsi_defined_where_price_moved (period : Z) (prices : list Q)
  (rsi : list fl) (i : nat) :
  calculate_rsi period prices = Some rsi ->
  (S i < length prices)%nat ->
  ~ nth (S i) prices 0 == nth i prices 0 ->
  in_range 0 100 (nthf rsi (S i)).
Proof.
  intros Hrsi Hi Hmove.
  pose proof (calculate_rsi_period _ _ _ Hrsi) as Hp.
  rewrite (nth_rsi _ _ _ _ Hrsi Hi).
  fold (gain_series prices). fold (loss_series prices).
  pose proof (gain_nonneg prices) as Hg. fold (gain_series prices) in Hg.
  pose proof (loss_nonneg prices) as Hl. fold (loss_series prices) in Hl.
  apply rsi_of_positive.
  - apply Forall_nth_nonneg; [apply ewm_mean_nonneg; auto|].
    rewrite ewm_mean_length, gain_series_length. lia.
  - apply Forall_nth_nonneg; [apply ewm_mean_nonneg; auto|].
    rewrite ewm_mean_length, loss_series_length. lia.
  - destruct (Qlt_le_dec 0 (nth (S i) prices 0 - nth i prices 0)) as [Hup|Hdown].
    + left. apply ewm_mean_positive_at; auto.
      * rewrite gain_series_length. lia.
      * rewrite nth_gain_S by exact Hi. cbv zeta.
        apply Qltb_lt in Hup. rewrite Hup. apply Qltb_lt in Hup. exact Hup.
    + right. apply ewm_mean_positive_at; auto.
      * rewrite loss_series_length. lia.
      * rewrite nth_loss_S by exact Hi. cbv zeta.
        assert (Hlt : nth (S i) prices 0 - nth i prices 0 < 0) by lra.
        apply Qltb_lt in Hlt. rewrite Hlt. apply Qltb_lt in Hlt. simpl. lra.
Qed.

Lemma rsi_defined_where_price_moved_witness :
  exists rsi, calculate_rsi 14 [100; 101; 99] = Some rsi /\
              in_range 0 100 (nthf rsi 1).
Proof.
  destruct (calculate_rsi 14 [100; 101; 99]) as [rsi|] eqn:E;
    [|vm_compute in E; discriminate].
  exists rsi. split; [reflexivity|].
  apply (rsi_defined_where_price_moved 14 [100; 101; 99] rsi 0 E).
  - simpl. lia.
  - simpl. intro H. vm_compute in H. discriminate.
Defined.

Lemma rsi_nan_flat_upto (period : Z) (prices : list Q)
  (rsi : list fl) (i : nat) :
  calculate_rsi period prices = Some rsi ->
  (i < length prices)%nat ->
  (forall j, (j <= i)%nat -> nth j prices 0 == nth 0 prices 0) ->
  nthf rsi i = NaN.
Proof.
  intros Hrsi Hi Hflat.
  assert (Hne : prices <> []) by (destruct prices; simpl in Hi; [lia|discriminate]).
  assert (Hstep : forall j, (S j <= i)%nat ->
                            nth (S j) prices 0 - nth j prices 0 == 0).
  { intros j Hj. rewrite (Hflat (S j)), (Hflat j) by lia. ring. }
  rewrite (nth_rsi _ _ _ _ Hrsi Hi).
  fold (gain_series prices). fold (loss_series prices).
  rewrite (ewm_mean_constant_upto period (gain_series prices) (Fin 0) i);
    try reflexivity.
  - rewrite (ewm_mean_constant_upto period (loss_series prices) (Fin (- 0)) i);
      try reflexivity.
    + rewrite loss_series_length. exact Hi.
    + intros [|j] Hj; [apply nth_loss_0; exact Hne|].
      rewrite nth_loss_S by lia. cbv zeta.
      destruct (Qltb _ 0) eqn:E; [|reflexivity].
      apply Qltb_lt in E. rewrite Hstep in E by lia. lra.
  - rewrite gain_series_length. exact Hi.
  - intros [|j] Hj; [apply nth_gain_0; exact Hne|].
    rewrite nth_gain_S by lia. cbv zeta.
    destruct (Qltb 0 _) eqn:E; [|reflexivity].
    apply Qltb_lt in E. rewrite Hstep in E by lia. lra.
Qed.

(** X2.  As long as the price has not moved since the first sample, the
    oscillator is NaN: at an index up to which all prices equal the first
    one there is neither an average gain nor an average loss (0/0). *)
Theorem rsi_nan_while_price_flat (period : Z) (prices : list Q)
  (rsi : list fl) (i : nat) :
  calculate_rsi period prices = Some rsi ->
  (i < length prices)%nat ->
  (forall j, (j <= i)%nat -> nth j prices 0 == nth 0 prices 0) ->
  nthf rsi i = NaN.
Proof. apply rsi_nan_flat_upto. Qed.

Lemma rsi_nan_while_price_flat_witness :
  exists rsi, calculate_rsi 2 [5; 5; 5; 6] = Some rsi /\ nthf rsi 2 = NaN.
Proof.
  destruct (calculate_rsi 2 [5; 5; 5; 6]) as [rsi|] eqn:E;
    [|vm_compute in E; discriminate].
  exists rsi. split; [reflexivity|].
  apply (rsi_nan_while_price_flat 2 [5; 5; 5; 6] rsi 2 E).
  - simpl. lia.
  - intros [|[|[|j]]] Hj; simpl; try reflexivity. lia.
Defined.

Lemma rsi_of_rs_zero_loss g :
  0 < g -> feq (rsi_of_rs (rs_of (Fin g) (Fin (- 0)))) (Fin 100).
Proof.
  intro Hg. unfold rs_of, fdiv_gen. simpl Qeq_bool. cbv iota.
  unfold inf_of_sign.
  destruct (Qltb 0 (- g)) eqn:E1; [apply Qltb_lt in E1; lra|].
  destruct (Qltb (- g) 0) eqn:E2; [|apply Qltb_ge in E2; lra].
  vm_compute. reflexivity.
Qed.

Lemma rsi_of_rs_zero_gain l :
  0 < l -> feq (rsi_of_rs (rs_of (Fin 0) (Fin l))) (Fin 0).
Proof.
  intro Hl. unfold rs_of, fdiv_gen.
  destruct (Qeq_bool l 0) eqn:E; [apply Qeq_bool_iff in E; lra|].
  unfold rsi_of_rs, fdiv, fdiv_gen, fadd, fsub, fneg.
  assert (Hz : 0 / l == 0) by (unfold Qdiv; ring).
  destruct (Qeq_bool (1 + 0 / l) 0) eqn:E2.
  - apply Qeq_bool_iff in E2. rewrite Hz in E2. lra.
  - simpl. rewrite Hz. field.
Qed.

(** X3.  The oscillator saturates: at an index where the price has just
    risen and has never fallen before, the average loss is zero and the
    value is 100; at an index where the price has just fallen and has
    never risen before, the average gain is zero and the value is 0. *)
Theorem rsi_saturates (period : Z) (prices : list Q) (rsi : list fl) (i : nat) :
  calculate_rsi period prices = Some rsi ->
  (S i < length prices)%nat ->
  ((forall j, (j < i)%nat -> nth j prices 0 <= nth (S j) prices 0) ->
   nth i prices 0 < nth (S i) prices 0 ->
   feq (nthf rsi (S i)) (Fin 100)) /\
  ((forall j, (j < i)%nat -> nth (S j) prices 0 <= nth j prices 0) ->
   nth (S i) prices 0 < nth i prices 0 ->
   feq (nthf rsi (S i)) (Fin 0)).
Proof.
  intros Hrsi Hi.
  pose proof (calculate_rsi_period _ _ _ Hrsi) as Hp.
  assert (Hne : prices <> []) by (destruct prices; simpl in Hi; [lia|discriminate]).
  pose proof (gain_nonneg prices) as Hg. fold (gain_series prices) in Hg.
  pose proof (loss_nonneg prices) as Hl. fold (loss_series prices) in Hl.
  rewrite (nth_rsi _ _ _ _ Hrsi Hi).
  fold (gain_series prices). fold (loss_series prices).
  split; intros Hmono Hlast.
  - rewrite (ewm_mean_constant_upto period (loss_series prices) (Fin (- 0)) (S i));
      try reflexivity.
    + assert (Hpos : positive (nth (S i) (ewm_mean period (gain_series prices)) NaN)).
      { apply ewm_mean_positive_at; auto.
        - rewrite gain_series_length. lia.
        - rewrite nth_gain_S by exact Hi. cbv zeta.
          assert (Hup : 0 < nth (S i) prices 0 - nth i prices 0) by lra.
          apply Qltb_lt in Hup. rewrite Hup. apply Qltb_lt in Hup. exact Hup. }
      destruct (nth (S i) (ewm_mean period (gain_series prices)) NaN);
        simpl in Hpos; try contradiction.
      apply rsi_of_rs_zero_loss. exact Hpos.
    + rewrite loss_series_length. exact Hi.
    + intros [|j] Hj; [apply nth_loss_0; exact Hne|].
      rewrite nth_loss_S by lia. cbv zeta.
      destruct (Qltb _ 0) eqn:E; [|reflexivity].
      apply Qltb_lt in E.
      destruct (Nat.eq_dec j i) as [->|Hji]; [lra|].
      specialize (Hmono j ltac:(lia)). lra.
  - rewrite (ewm_mean_constant_upto period (gain_series prices) (Fin 0) (S i));
      try reflexivity.
    + assert (Hpos : positive (nth (S i) (ewm_mean period (loss_series prices)) NaN)).
      { apply ewm_mean_positive_at; auto.
        - rewrite loss_series_length. lia.
        - rewrite nth_loss_S by exact Hi. cbv zeta.
          assert (Hdn : nth (S i) prices 0 - nth i prices 0 < 0) by lra.
          apply Qltb_lt in Hdn. rewrite Hdn. apply Qltb_lt in Hdn. simpl. lra. }
      destruct (nth (S i) (ewm_mean period (loss_series prices)) NaN);
        simpl in Hpos; try contradiction.
      apply rsi_of_rs_zero_gain. exact Hpos.
    + rewrite gain_series_length. exact Hi.
    + intros [|j] Hj; [apply nth_gain_0; exact Hne|].
      rewrite nth_gain_S by lia. cbv zeta.
      destruct (Qltb 0 _) eqn:E; [|reflexivity].
      apply Qltb_lt in E.
      destruct (Nat.eq_dec j i) as [->|Hji]; [lra|].
      specialize (Hmono j ltac:(lia)). lra.
Qed.

Lemma rsi_saturates_witness :
  exists rsi, calculate_rsi 14 [100; 100; 101; 103] = Some rsi /\
              feq (nthf rsi 3) (Fin 100).
Proof.
  destruct (calculate_rsi 14 [100; 100; 101; 103]) as [rsi|] eqn:E;
    [|vm_compute in E; discriminate].
  exists rsi. split; [reflexivity|].
  destruct (rsi_saturates 14 [100; 100; 101; 103] rsi 2 E) as [Hup _].
  - simpl. lia.
  - apply Hup.
    + intros [|[|j]] Hj; simpl; try lia; unfold Qle; simpl; lia.
    + simpl. unfold Qlt; simpl. lia.
Defined.

(** X4.  The oscillator never looks ahead: two price series that agree on
    their first [k] samples have oscillators that agree on their first
    [k] values, whatever follows. *)
Theorem rsi_no_lookahead (period : Z) (prices prices' : list Q)
  (rsi rsi' : list fl) (k : nat) :
  calculate_rsi period prices = Some rsi ->
  calculate_rsi period prices' = Some rsi' ->
  firstn k prices = firstn k prices' ->
  firstn k rsi = firstn k rsi'.
Proof.
  intros H H' Hk.
  apply (calculate_rsi_firstn _ _ _ k) in H.
  apply (calculate_rsi_firstn _ _ _ k) in H'.
  rewrite Hk in H. congruence.
Qed.

Lemma rsi_no_lookahead_witness :
  exists rsi rsi',
    calculate_rsi 14 [100; 101; 99; 250] = Some rsi /\
    calculate_rsi 14 [100; 101; 99; 3; 7] = Some rsi' /\
    firstn 3 rsi = firstn 3 rsi'.
Proof.
  destruct (calculate_rsi 14 [100; 101; 99; 250]) as [rsi|] eqn:E;
    [|vm_compute in E; discriminate].
  destruct (calculate_rsi 14 [100; 101; 99; 3; 7]) as [rsi'|] eqn:E';
    [|vm_compute in E'; discriminate].
  exists rsi, rsi'. split; [reflexivity|]. split; [reflexivity|].
  apply (rsi_no_lookahead 14 _ _ rsi rsi' 3 E E'). reflexivity.
Defined.

(** ** Signal values *)

Lemma set_where_values s c v (P : Z -> Prop) :
  P v -> Forall P s -> Forall P (set_where s c v).
Proof.
  intros Hv Hs; revert c; induction Hs as [|x s Hx Hs IH]; intros [|b c]; simpl;
    try constructor; auto.
  destruct b; auto.
Qed.

(** X5.  Whatever the strategy, the series that [generate_signals]
    returns has one entry per candle, each of them -1, 0 or 1, and its
    first entry is 0. *)
Theorem generate_signals_values (alg : Algorithm) (data : DataFrame)
  (signals : list Z) :
  generate_signals alg data = Some signals ->
  length signals = length data /\
  Forall is_signal signals /\
  (data <> [] -> nth 0 signals 0%Z = 0%Z).
Proof.
  intro H. split; [eapply generate_signals_length; eauto|].
  assert (Hfull : Forall is_signal (full 0%Z (prices_of data))).
  { unfold full. apply Forall_map. apply Forall_forall. intros; right; left; reflexivity. }
  destruct alg as [a|a]; simpl in H.
  - unfold rsi_generate_signals in H.
    destruct (calculate_rsi (rsi_period a) (prices_of data)) as [rsi|] eqn:Hrsi;
      [|discriminate].
    injection H as <-. split.
    + apply set_where_values; [left; reflexivity|].
      apply set_where_values; [right; right; reflexivity|exact Hfull].
    + intro Hne.
      pose proof (calculate_rsi_length _ _ _ Hrsi) as Hlen.
      assert (H0 : (0 < length (prices_of data))%nat).
      { rewrite prices_of_length. destruct data; [congruence|simpl; lia]. }
      rewrite rsi_signal_nth by auto.
      rewrite rsi_sell_condition_nth, rsi_buy_condition_nth by lia.
      rewrite nth_shift1_0. unfold fge, fle; simpl.
      rewrite !andb_false_r. reflexivity.
  - unfold dc_generate_signals in H.
    destruct (calculate_rsi (dc_period a) (prices_of data)) as [rsi|] eqn:Hrsi;
      [|discriminate].
    injection H as <-. split.
    + apply set_where_values; [right; right; reflexivity|].
      unfold dc_short_signals. apply Forall_map. apply Forall_forall.
      intros i _. destruct (_ && _); [left; reflexivity|].
      rewrite Forall_forall in Hfull.
      destruct (Nat.lt_ge_cases i (length (full 0%Z (prices_of data)))) as [Hi|Hi].
      * apply Hfull. apply nth_In. exact Hi.
      * rewrite nth_overflow by exact Hi. right; left; reflexivity.
    + intro Hne.
      pose proof (calculate_rsi_length _ _ _ Hrsi) as Hlen.
      assert (H0 : (0 < length (prices_of data))%nat).
      { rewrite prices_of_length. destruct data; [congruence|simpl; lia]. }
      rewrite nth_set_where_in
        by (rewrite dc_short_signals_length, full_length; exact H0).
      rewrite dc_cover_condition_nth by lia.
      rewrite nth_shift1_0. unfold fgt, flt; simpl.
      rewrite andb_false_r.
      rewrite dc_short_signals_nth by (rewrite full_length; exact H0).
      simpl. apply nth_full.
Qed.

Lemma generate_signals_values_witness :
  exists signals,
    generate_signals sample_rsi sample_two_trades = Some signals /\
    length signals = 6%nat /\ Forall is_signal signals.
Proof.
  destruct (generate_signals sample_rsi sample_two_trades) as [signals|] eqn:E;
    [|vm_compute in E; discriminate].
  exists signals. split; [reflexivity|].
  destruct (generate_signals_values sample_rsi sample_two_trades signals E)
    as (H1 & H2 & _).
  split; [exact H1|exact H2].
Defined.

(** ** Minimum of a window *)

Lemma pd_min_from a l :
  exists m,
    fold_left (fun m x => if is_nan x then m
                          else if is_nan m then x
                          else if flt x m then x else m) (map Fin l) (Fin a)
    = Fin m /\
    In m (a :: l) /\ m <= a /\ forall x, In x l -> m <= x.
Proof.
  revert a; induction l as [|y l IH]; intro a; simpl.
  - exists a. repeat split; auto; try lra. intros x [].
  - destruct (Qltb y a) eqn:E.
    + apply Qltb_lt in E. destruct (IH y) as (m & Hm & Hin & Hle & Hall).
      exists m. split; [exact Hm|]. split; [right; exact Hin|].
      split; [lra|]. intros x [<-|Hx]; auto.
    + apply Qltb_ge in E. destruct (IH a) as (m & Hm & Hin & Hle & Hall).
      exists m. split; [exact Hm|].
      split; [destruct Hin as [<-|Hin]; [left; reflexivity|right; right; exact Hin]|].
      split; [exact Hle|]. intros x [<-|Hx]; [lra|auto].
Qed.

Lemma pd_min_spec l :
  l <> [] ->
  exists m, pd_min (map Fin l) = Fin m /\ In m l /\ forall x, In x l -> m <= x.
Proof.
  destruct l as [|a l]; [congruence|]. intros _.
  destruct (pd_min_from a l) as (m & Hm & Hin & Hle & Hall).
  exists m. split; [exact Hm|]. split; [exact Hin|].
  intros x [<-|Hx]; auto.
Qed.

Lemma slice_length {A} (l : list A) lo hi :
  (hi <= length l)%nat -> length (slice lo hi l) = (hi - lo)%nat.
Proof.
  intro H. unfold slice. rewrite length_firstn, length_skipn. lia.
Qed.

Lemma In_slice {A} (l : list A) lo hi x d :
  In x (slice lo hi l) ->
  exists j, (lo <= j < hi)%nat /\ (j < length l)%nat /\ nth j l d = x.
Proof.
  unfold slice. intro H. apply (In_nth _ _ d) in H.
  destruct H as (k & Hk & Hx).
  rewrite length_firstn, length_skipn in Hk.
  rewrite nth_firstn in Hx.
  destruct (k <? hi - lo)%nat eqn:E; [|apply Nat.ltb_ge in E; lia].
  rewrite nth_skipn in Hx. exists (lo + k)%nat. repeat split; try lia. exact Hx.
Qed.

Lemma nth_In_slice {A} (l : list A) lo hi j d :
  (lo <= j < hi)%nat -> (hi <= length l)%nat -> In (nth j l d) (slice lo hi l).
Proof.
  intros Hj Hhi. unfold slice.
  replace (nth j l d) with (nth (j - lo) (firstn (hi - lo) (skipn lo l)) d).
  - apply nth_In. rewrite length_firstn, length_skipn. lia.
  - rewrite nth_firstn.
    destruct (j - lo <? hi - lo)%nat eqn:E; [|apply Nat.ltb_ge in E; lia].
    rewrite nth_skipn. f_equal. lia.
Qed.

(** X6.  The support level of the batch generator is undefined (NaN) at
    the first ten indices; from index 10 on it is one of the ten
    preceding closes, the current one excluded, and none of those ten is
    below it. *)
Theorem dc_support_is_trailing_minimum (prices : list Q) (i : nat) :
  (i < length prices)%nat ->
  ((i < 10)%nat -> nthf (dc_support_levels prices) i = NaN) /\
  ((10 <= i)%nat ->
   exists m,
     nthf (dc_support_levels prices) i = Fin m /\
     (exists j, (i - 10 <= j < i)%nat /\ nth j prices 0 = m) /\
     forall j, (i - 10 <= j < i)%nat -> m <= nth j prices 0).
Proof.
  intro Hi. unfold nthf, dc_support_levels. rewrite nth_map_seq by exact Hi.
  split; intro H.
  - destruct (10 <=? i)%nat eqn:E; [apply Nat.leb_le in E; lia|reflexivity].
  - destruct (10 <=? i)%nat eqn:E; [|apply Nat.leb_gt in E; lia].
    destruct (pd_min_spec (slice (i - 10) i prices)) as (m & Hm & Hin & Hall).
    { intro Hnil. apply (f_equal (@length Q)) in Hnil.
      rewrite slice_length in Hnil by lia. simpl in Hnil. lia. }
    exists m. split; [exact Hm|]. split.
    + destruct (In_slice _ _ _ _ 0 Hin) as (j & Hj & _ & Hx). eauto.
    + intros j Hj. apply Hall. apply nth_In_slice; lia.
Qed.

Lemma dc_support_is_trailing_minimum_witness :
  exists m, nthf (dc_support_levels sample_rise_then_break) 12 = Fin m /\
            m <= nth 5 sample_rise_then_break 0.
Proof.
  destruct (dc_support_is_trailing_minimum sample_rise_then_break 12) as [_ H].
  - simpl. lia.
  - destruct H as (m & Hm & _ & Hall); [lia|].
    exists m. split; [exact Hm|]. apply Hall. lia.
Defined.

(** X7.  The batch double-confirm generator, index by index: after the
    first index the signal is +1 when the oscillator has just gone from
    above the oversold threshold to at or below it; failing that it is
    -1 when the index is at least 11, the topped flag is set, the
    oscillator has just gone from at or above 50 to below 50 and the
    close is strictly below the support level; otherwise it is 0.  In
    particular no short signal is emitted before index 11. *)
Theorem dc_generate_signals_pointwise (a : RSI1MinDoubleConfirmAlgorithm)
  (prices : list Q) (rsi : list fl) (signals : list Z) (i : nat) :
  calculate_rsi (dc_period a) prices = Some rsi ->
  dc_generate_signals a prices = Some signals ->
  (S i < length prices)%nat ->
  nth (S i) signals 0%Z
  = (if fle (nthf rsi (S i)) (thr (dc_oversold_threshold a))
        && fgt (nthf rsi i) (thr (dc_oversold_threshold a))
     then 1%Z
     else if (11 <=? S i)%nat
             && (nth (S i) (dc_rsi_topped a rsi) false
                 && flt (nthf rsi (S i)) (Fin 50)
                 && fge (nthf rsi i) (Fin 50)
                 && flt (Fin (nth (S i) prices 0))
                        (nthf (dc_support_levels prices) (S i)))
     then (-1)%Z else 0%Z) /\
  ((S i < 11)%nat -> nth (S i) signals 0%Z <> (-1)%Z).
Proof.
  intros Hrsi Hsig Hi.
  pose proof (calculate_rsi_length _ _ _ Hrsi) as Hlen.
  unfold dc_generate_signals in Hsig. rewrite Hrsi in Hsig.
  injection Hsig as <-.
  rewrite nth_set_where_in
    by (rewrite dc_short_signals_length, full_length; lia).
  rewrite dc_cover_condition_nth by lia.
  rewrite nth_shift1_S by lia. fold (nthf rsi i).
  rewrite dc_short_signals_nth by (rewrite full_length; lia).
  rewrite nth_full. unfold dc_short_at.
  replace (S i - 1)%nat with i by lia.
  split; [reflexivity|].
  intro H11. destruct (_ && _); [discriminate|].
  destruct (11 <=? S i)%nat eqn:E; [apply Nat.leb_le in E; lia|].
  simpl. discriminate.
Qed.

Lemma dc_generate_signals_pointwise_witness :
  exists rsi signals,
    calculate_rsi 10 (prices_of sample_jump_then_break) = Some rsi /\
    dc_generate_signals bot_dc (prices_of sample_jump_then_break) = Some signals /\
    nth 5 signals 0%Z <> (-1)%Z.
Proof.
  destruct (calculate_rsi 10 (prices_of sample_jump_then_break)) as [rsi|] eqn:E;
    [|vm_compute in E; discriminate].
  destruct (dc_generate_signals bot_dc (prices_of sample_jump_then_break))
    as [signals|] eqn:Es; [|vm_compute in Es; discriminate].
  exists rsi, signals. split; [reflexivity|]. split; [reflexivity|].
  destruct (dc_generate_signals_pointwise bot_dc _ rsi signals 4 E Es) as [_ H].
  - simpl. lia.
  - apply H. lia.
Defined.

(** ** The bracket scan, completely *)

Lemma scan_exit_spec e il tp sl rest :
  forall i,
    match scan_exit e il tp sl i rest with
    | Some (x, p, r) =>
        exists k pk,
          x = (i + k)%nat /\ nth_error rest k = Some pk /\
          (forall m pm, (m < k)%nat -> nth_error rest m = Some pm ->
                        ~ tp_reached il tp pm /\ ~ sl_reached il sl pm) /\
          ((r = exit_take_profit /\ tp_reached il tp pk) \/
           (r = exit_stop_loss /\ ~ tp_reached il tp pk /\ sl_reached il sl pk)) /\
          bracket_profit e il r p
    | None =>
        forall m pm, nth_error rest m = Some pm ->
                     ~ tp_reached il tp pm /\ ~ sl_reached il sl pm
    end.
Proof.
  induction rest as [|c rest IH]; intro i; simpl.
  - intros m pm H. destruct m; discriminate.
  - assert (Hstep :
      forall (Hntp : ~ tp_reached il tp c) (Hnsl : ~ sl_reached il sl c),
        match scan_exit e il tp sl (S i) rest with
        | Some (x, p, r) =>
            exists k pk,
              x = (i + k)%nat /\ nth_error (c :: rest) k = Some pk /\
              (forall m pm, (m < k)%nat -> nth_error (c :: rest) m = Some pm ->
                            ~ tp_reached il tp pm /\ ~ sl_reached il sl pm) /\
              ((r = exit_take_profit /\ tp_reached il tp pk) \/
               (r = exit_stop_loss /\ ~ tp_reached il tp pk /\ sl_reached il sl pk)) /\
              bracket_profit e il r p
        | None =>
            forall m pm, nth_error (c :: rest) m = Some pm ->
                         ~ tp_reached il tp pm /\ ~ sl_reached il sl pm
        end).
    { intros Hntp Hnsl. specialize (IH (S i)).
      destruct (scan_exit e il tp sl (S i) rest) as [[[x p] r]|].
      - destruct IH as (k & pk & Hx & Hk & Hbefore & Hat & Hp).
        exists (S k), pk. split; [lia|]. split; [exact Hk|].
        split; [|split; assumption].
        intros [|m] pm Hm Hpm; simpl in Hpm.
        + injection Hpm as <-. split; assumption.
        + apply (Hbefore m pm); [lia|exact Hpm].
      - intros [|m] pm Hpm; simpl in Hpm.
        + injection Hpm as <-. split; assumption.
        + apply (IH m pm Hpm). }
    destruct il; simpl in *.
    + destruct (Qle_bool tp c) eqn:E1.
      * apply Qle_bool_iff in E1. exists 0%nat, c.
        split; [lia|]. split; [reflexivity|].
        split; [intros m pm Hm; lia|].
        split; [left; split; [reflexivity|exact E1]|reflexivity].
      * destruct (Qle_bool c sl) eqn:E2.
        -- apply Qle_bool_iff in E2. exists 0%nat, c.
           split; [lia|]. split; [reflexivity|].
           split; [intros m pm Hm; lia|].
           split; [|reflexivity]. right. split; [reflexivity|].
           split; [|exact E2]. intro H. apply Qle_bool_iff in H. congruence.
        -- apply Hstep; intro H; apply Qle_bool_iff in H; congruence.
    + destruct (Qle_bool c tp) eqn:E1.
      * apply Qle_bool_iff in E1. exists 0%nat, c.
        split; [lia|]. split; [reflexivity|].
        split; [intros m pm Hm; lia|].
        split; [left; split; [reflexivity|exact E1]|reflexivity].
      * destruct (Qle_bool sl c) eqn:E2.
        -- apply Qle_bool_iff in E2. exists 0%nat, c.
           split; [lia|]. split; [reflexivity|].
           split; [intros m pm Hm; lia|].
           split; [|reflexivity]. right. split; [reflexivity|].
           split; [|exact E2]. intro H. apply Qle_bool_iff in H. congruence.
        -- apply Hstep; intro H; apply Qle_bool_iff in H; congruence.
Qed.

Lemma simulate_trade_exit_spec (e : BacktestEngine) (prices : list Q)
  (idx : nat) (is_long : bool) (entry : Q) (x : nat) (profit : fl)
  (r : ExitReason) :
  nth_error prices idx = Some entry ->
  simulate_trade e prices idx is_long = Some (x, profit, r) ->
  let tp_price := fst (calculate_exit_price e entry is_long) in
  let sl_price := snd (calculate_exit_price e entry is_long) in
  (forall k pk, (idx < k < x)%nat -> nth_error prices k = Some pk ->
     ~ tp_reached is_long tp_price pk /\ ~ sl_reached is_long sl_price pk) /\
  match r with
  | exit_take_profit =>
      (idx < x)%nat /\
      (exists px, nth_error prices x = Some px /\ tp_reached is_long tp_price px) /\
      profit = Fin (take_profit e - commission e * 2)
  | exit_stop_loss =>
      (idx < x)%nat /\
      (exists px, nth_error prices x = Some px /\
                  ~ tp_reached is_long tp_price px /\
                  sl_reached is_long sl_price px) /\
      profit = Fin ((if is_long then stop_loss e else - stop_loss e)
                    - commission e * 2)
  | exit_market_close =>
      x = (length prices - 1)%nat /\
      (forall k pk, (idx < k)%nat -> nth_error prices k = Some pk ->
         ~ tp_reached is_long tp_price pk /\ ~ sl_reached is_long sl_price pk) /\
      profit = fsub (if is_long
                     then fdiv (Fin (last prices 0 - entry)) (Fin entry)
                     else fneg (fdiv (Fin (last prices 0 - entry)) (Fin entry)))
                    (Fin (commission e * 2))
  end.
Proof.
  intros He Hsim. unfold simulate_trade in Hsim. rewrite He in Hsim.
  destruct (calculate_exit_price e entry is_long) as [tp sl]; cbn [fst snd].
  pose proof (scan_exit_spec e is_long tp sl (skipn (S idx) prices) (S idx)) as Hs.
  destruct (scan_exit e is_long tp sl (S idx) (skipn (S idx) prices))
    as [[[i pr] rr]|].
  - injection Hsim as <- <- <-.
    destruct Hs as (k & pk & -> & Hk & Hbefore & Hat & Hp).
    rewrite nth_error_skipn in Hk.
    assert (Hbefore' : forall k0 pk0, (idx < k0 < S idx + k)%nat ->
              nth_error prices k0 = Some pk0 ->
              ~ tp_reached is_long tp pk0 /\ ~ sl_reached is_long sl pk0).
    { intros k0 pk0 Hk0 Hpk0. apply (Hbefore (k0 - S idx)%nat pk0); [lia|].
      rewrite nth_error_skipn. replace (S idx + (k0 - S idx))%nat with k0 by lia.
      exact Hpk0. }
    split; [exact Hbefore'|].
    destruct Hat as [[-> Htp]|(-> & Hntp & Hsl)]; simpl in Hp.
    + split; [lia|]. split; [eauto|]. rewrite Hp. reflexivity.
    + split; [lia|]. split; [eauto|]. rewrite Hp. reflexivity.
  - injection Hsim as <- <- <-.
    assert (Hafter : forall k pk, (idx < k)%nat -> nth_error prices k = Some pk ->
              ~ tp_reached is_long tp pk /\ ~ sl_reached is_long sl pk).
    { intros k pk Hk Hpk. apply (Hs (k - S idx)%nat pk).
      rewrite nth_error_skipn. replace (S idx + (k - S idx))%nat with k by lia.
      exact Hpk. }
    split; [intros k pk Hk; apply Hafter; lia|].
    split; [reflexivity|]. split; [exact Hafter|].
    destruct is_long; reflexivity.
Qed.

(** X8.  [simulate_trade] closes at the first sample after the entry that
    reaches a bracket level, and only there: no sample strictly between
    the entry and the exit reaches either level; a take-profit exit is at
    a sample that reaches the take-profit level, a stop-loss exit at one
    that reaches the stop-loss level and not the take-profit level; with
    market_close no sample after the entry reaches either level, the exit
    is the last index and the profit is the realised return (negated for
    a short) less two commissions. *)
Theorem simulate_trade_first_hit (e : BacktestEngine) (prices : list Q)
  (idx : nat) (is_long : bool) (entry : Q) (x : nat) (profit : fl)
  (r : ExitReason) :
  nth_error prices idx = Some entry ->
  simulate_trade e prices idx is_long = Some (x, profit, r) ->
  let tp_price := fst (calculate_exit_price e entry is_long) in
  let sl_price := snd (calculate_exit_price e entry is_long) in
  (forall k pk, (idx < k < x)%nat -> nth_error prices k = Some pk ->
     ~ tp_reached is_long tp_price pk /\ ~ sl_reached is_long sl_price pk) /\
  match r with
  | exit_take_profit =>
      (idx < x)%nat /\
      (exists px, nth_error prices x = Some px /\ tp_reached is_long tp_price px) /\
      profit = Fin (take_profit e - commission e * 2)
  | exit_stop_loss =>
      (idx < x)%nat /\
      (exists px, nth_error prices x = Some px /\
                  ~ tp_reached is_long tp_price px /\
                  sl_reached is_long sl_price px) /\
      profit = Fin ((if is_long then stop_loss e else - stop_loss e)
                    - commission e * 2)
  | exit_market_close =>
      x = (length prices - 1)%nat /\
      (forall k pk, (idx < k)%nat -> nth_error prices k = Some pk ->
         ~ tp_reached is_long tp_price pk /\ ~ sl_reached is_long sl_price pk) /\
      profit = fsub (if is_long
                     then fdiv (Fin (last prices 0 - entry)) (Fin entry)
                     else fneg (fdiv (Fin (last prices 0 - entry)) (Fin entry)))
                    (Fin (commission e * 2))
  end.
Proof. apply simulate_trade_exit_spec. Qed.

Lemma simulate_trade_first_hit_witness :
  exists px,
    simulate_trade sample_engine [100; 1005 # 10; 101; 994 # 10] 0 true
    = Some (2%nat, Fin (take_profit sample_engine - commission sample_engine * 2),
            exit_take_profit) /\
    nth_error [100; 1005 # 10; 101; 994 # 10] 2 = Some px /\
    tp_reached true (fst (calculate_exit_price sample_engine 100 true)) px.
Proof.
  pose proof (simulate_trade_first_hit sample_engine
                [100; 1005 # 10; 101; 994 # 10] 0 true 100 2
                (Fin (take_profit sample_engine - commission sample_engine * 2))
                exit_take_profit eq_refl eq_refl) as H.
  cbv zeta in H. destruct H as (_ & _ & (px & Hpx & Htp) & _).
  exists px. split; [reflexivity|]. split; assumption.
Defined.

(** ** Where trades come from *)

Lemma backtest_loop_preserves (I : LoopState -> Prop) e data signals :
  (forall st st', I st -> backtest_body e data signals st = Some st' -> I st') ->
  forall fuel st st',
    I st -> backtest_loop fuel e data signals st = Some st' -> I st'.
Proof.
  intros Hbody. induction fuel as [|fuel IH]; intros st st' HI; simpl.
  - destruct (loop_i st <? length data)%nat; [discriminate|].
    intro H; injection H as <-. exact HI.
  - destruct (loop_i st <? length data)%nat.
    + destruct (backtest_body e data signals st) as [st1|] eqn:Hb; [|discriminate].
      apply IH. eapply Hbody; eauto.
    + intro H; injection H as <-. exact HI.
Qed.

Lemma backtest_body_origin e data signals st st' :
  origin_inv signals st -> backtest_body e data signals st = Some st' ->
  origin_inv signals st'.
Proof.
  intros (H1 & Hall & Hcur). unfold backtest_body.
  destruct st as [tl ct i]; simpl in *.
  destruct (nth_error data i) as [row|]; [|discriminate].
  destruct (nth_error signals i) as [sg|] eqn:Hsg; [|discriminate].
  destruct ct as [t|].
  - destruct (simulate_trade e (prices_of data) (o_entry_idx t)
                (is_long_side (o_type t))) as [[[x pr] r]|]; [|discriminate].
    destruct (nth_error data x) as [xrow|]; [|discriminate].
    intro H; injection H as <-. unfold origin_inv; simpl.
    split; [lia|]. split; [|exact I].
    apply Forall_app. split; [exact Hall|].
    constructor; [exact Hcur|constructor].
  - intro H; injection H as <-. unfold origin_inv; simpl.
    split; [lia|]. split; [exact Hall|].
    destruct (sg =? 1)%Z eqn:E1.
    + apply Z.eqb_eq in E1. subst sg. split; [exact H1|exact Hsg].
    + destruct (sg =? -1)%Z eqn:E2; [|exact I].
      apply Z.eqb_eq in E2. subst sg. split; [exact H1|exact Hsg].
Qed.

Lemma backtest_trades_origin e data signals trades :
  backtest_trades e data signals = Some trades ->
  Forall (fun t => opened_on signals (entry_idx t) (type t)) trades.
Proof.
  unfold backtest_trades.
  destruct (backtest_loop (length data) e data signals
              {| trades_list := []; current_trade := None; loop_i := 1 |})
    as [st|] eqn:Hloop; [|discriminate].
  assert (Hinv : origin_inv signals st).
  { eapply (backtest_loop_preserves (origin_inv signals)); [|
      |exact Hloop].
    - intros. eapply backtest_body_origin; eauto.
    - unfold origin_inv; simpl. repeat split; auto. }
  destruct Hinv as (_ & Hall & Hcur).
  unfold close_open_trade. destruct (current_trade st) as [t|].
  - destruct data; [discriminate|].
    intro H; injection H as <-.
    apply Forall_app. split; [exact Hall|].
    constructor; [exact Hcur|constructor].
  - intro H; injection H as <-. exact Hall.
Qed.

Lemma at_row_price data idx time p :
  at_row data idx time p -> nth_error (prices_of data) idx = Some p.
Proof.
  intros (row & Hrow & _ & <-). unfold prices_of.
  rewrite nth_error_map, Hrow. reflexivity.
Qed.

(** X9.  Whenever the strategy yields its signals, every trade that
    [backtest] returns was opened at an index of at least 1 whose signal
    is +1 for a long and -1 for a short, at that candle's timestamp and
    close; the signal at index 0 never opens a trade.  A trade closed by
    take-profit has an exit price at or beyond its take-profit level
    entry * (1 + take_profit) (long) or entry * (1 - take_profit)
    (short), and one closed by stop-loss an exit price at or beyond its
    stop level and short of its take-profit level. *)
Theorem backtest_trades_from_signals (e : BacktestEngine) (data : DataFrame)
  (signals : list Z) :
  increasing_index data ->
  generate_signals (algorithm e) data = Some signals ->
  exists trades metrics,
    backtest e data = Some (trades, metrics) /\
    forall t, In t trades ->
      (1 <= entry_idx t)%nat /\
      nth_error signals (entry_idx t) = Some (entry_signal (type t)) /\
      at_row data (entry_idx t) (entry_time t) (entry_price t) /\
      let il := is_long_side (type t) in
      let tp_price := fst (calculate_exit_price e (entry_price t) il) in
      let sl_price := snd (calculate_exit_price e (entry_price t) il) in
      (exit_reason t = exit_take_profit -> tp_reached il tp_price (exit_price t)) /\
      (exit_reason t = exit_stop_loss ->
       sl_reached il sl_price (exit_price t) /\
       ~ tp_reached il tp_price (exit_price t)).
Proof.
  intros Hinc Hsig.
  pose proof (generate_signals_length _ _ _ Hsig) as Hlen.
  destruct (backtest_trades_ok e data signals Hinc Hlen)
    as (trades & Hbt & Hch & Hok).
  pose proof (backtest_trades_origin _ _ _ _ Hbt) as Horig.
  exists trades, (calculate_performance_metrics trades).
  unfold backtest. rewrite Hsig, Hbt. split; [reflexivity|].
  intros t Ht. rewrite Forall_forall in Hok, Horig.
  destruct (Horig t Ht) as [H1 Hs].
  destruct (Hok t Ht) as (x & _ & Hat & Hc).
  split; [exact H1|]. split; [exact Hs|]. split; [exact Hat|].
  pose proof (at_row_price _ _ _ _ Hat) as Hentry.
  cbv zeta.
  destruct Hc as [(pr & Hsim & _ & Hx & _)|(_ & _ & Hr & _)].
  - pose proof (simulate_trade_exit_spec _ _ _ _ _ _ _ _ Hentry Hsim) as Hspec.
    cbv zeta in Hspec. destruct Hspec as [_ Hspec].
    pose proof (at_row_price _ _ _ _ Hx) as Hxp.
    split; intro Hr; rewrite Hr in Hspec.
    + destruct Hspec as (_ & (px & Hpx & Htp) & _).
      rewrite Hxp in Hpx. injection Hpx as <-. exact Htp.
    + destruct Hspec as (_ & (px & Hpx & Hntp & Hsl) & _).
      rewrite Hxp in Hpx. injection Hpx as <-. split; assumption.
  - split; intro Hr'; rewrite Hr' in Hr; discriminate.
Qed.

Lemma backtest_trades_from_signals_witness :
  exists trades metrics t,
    backtest sample_engine sample_two_trades = Some (trades, metrics) /\
    In t trades /\
    nth_error [0; 0; 1; -1; 1; 0]%Z (entry_idx t) = Some (entry_signal (type t)).
Proof.
  destruct (backtest_trades_from_signals sample_engine sample_two_trades
              [0; 0; 1; -1; 1; 0]%Z) as (trades & metrics & Hb & Hall).
  - apply increasing_timestamps_sound. reflexivity.
  - reflexivity.
  - assert (Ht : exists t, nth_error trades 0 = Some t).
    { vm_compute in Hb. injection Hb as <- _. eexists. reflexivity. }
    destruct Ht as (t & Hnth).
    assert (Hin : In t trades) by (eapply nth_error_In; eauto).
    exists trades, metrics, t. split; [exact Hb|]. split; [exact Hin|].
    apply (Hall t Hin).
Defined.

(** ** A series that does not move *)

Lemma backtest_loop_no_signal e data signals :
  length signals = length data ->
  (forall i s, (1 <= i)%nat -> nth_error signals i = Some s -> s = 0%Z) ->
  forall fuel i, (1 <= i)%nat ->
    (length data - i <= fuel)%nat ->
    exists j, backtest_loop fuel e data signals
                {| trades_list := []; current_trade := None; loop_i := i |}
              = Some {| trades_list := []; current_trade := None; loop_i := j |}.
Proof.
  intros Hlen Hzero. induction fuel as [|fuel IH]; intros i Hi Hfuel; simpl.
  - destruct (i <? length data)%nat eqn:E; [apply Nat.ltb_lt in E; lia|eauto].
  - destruct (i <? length data)%nat eqn:E; [|eauto].
    apply Nat.ltb_lt in E. unfold backtest_body; simpl.
    destruct (nth_error_some_lt data i E) as [row Hrow].
    destruct (nth_error_some_lt signals i ltac:(lia)) as [sg Hsg].
    rewrite Hrow, Hsg. rewrite (Hzero i sg Hi Hsg). simpl.
    apply IH; lia.
Qed.

Lemma backtest_trades_no_signal e data signals :
  length signals = length data ->
  (forall i s, (1 <= i)%nat -> nth_error signals i = Some s -> s = 0%Z) ->
  backtest_trades e data signals = Some [].
Proof.
  intros Hlen Hzero. unfold backtest_trades.
  destruct (backtest_loop_no_signal e data signals Hlen Hzero (length data) 1)
    as [j Hj]; try lia.
  rewrite Hj. reflexivity.
Qed.

Lemma flat_signals_zero alg data signals :
  flat_prices data -> generate_signals alg data = Some signals ->
  forall i s, nth_error signals i = Some s -> s = 0%Z.
Proof.
  intros Hflat Hsig i s Hs.
  pose proof (generate_signals_length _ _ _ Hsig) as Hlen.
  assert (Hi : (i < length data)%nat).
  { rewrite <- Hlen. apply nth_error_Some. congruence. }
  assert (Hnth : nth i signals 0%Z = s) by (apply nth_error_nth; exact Hs).
  rewrite <- Hnth. clear Hs Hnth s.
  assert (Hnan : forall period rsi,
             calculate_rsi period (prices_of data) = Some rsi ->
             nthf rsi i = NaN).
  { intros period rsi Hrsi. apply (rsi_nan_flat_upto _ _ _ _ Hrsi).
    - rewrite prices_of_length. exact Hi.
    - intros j Hj. apply Hflat. lia. }
  destruct alg as [a|a]; simpl in Hsig.
  - unfold rsi_generate_signals in Hsig.
    destruct (calculate_rsi (rsi_period a) (prices_of data)) as [rsi|] eqn:Hrsi;
      [|discriminate].
    injection Hsig as <-.
    pose proof (calculate_rsi_length _ _ _ Hrsi) as Hl.
    rewrite prices_of_length in Hl.
    rewrite rsi_signal_nth by (rewrite ?prices_of_length; auto; lia).
    rewrite rsi_sell_condition_nth, rsi_buy_condition_nth by lia.
    rewrite (Hnan _ _ Hrsi). reflexivity.
  - unfold dc_generate_signals in Hsig.
    destruct (calculate_rsi (dc_period a) (prices_of data)) as [rsi|] eqn:Hrsi;
      [|discriminate].
    injection Hsig as <-.
    pose proof (calculate_rsi_length _ _ _ Hrsi) as Hl.
    rewrite prices_of_length in Hl.
    rewrite nth_set_where_in
      by (rewrite dc_short_signals_length, full_length, prices_of_length; lia).
    rewrite dc_cover_condition_nth by lia.
    rewrite (Hnan _ _ Hrsi). simpl andb. cbv iota.
    rewrite dc_short_signals_nth by (rewrite full_length, prices_of_length; lia).
    unfold dc_short_at. rewrite (Hnan _ _ Hrsi). simpl flt.
    rewrite !andb_false_r. simpl. apply nth_full.
Qed.

(** X10.  On a series whose closes are all equal, either strategy (with
    a period of at least 1) emits no signal, and [backtest] returns no
    trade and the all-zero metrics record. *)
Theorem flat_series_no_trades (e : BacktestEngine) (data : DataFrame) :
  flat_prices data -> (1 <= algorithm_period (algorithm e))%Z ->
  exists signals,
    generate_signals (algorithm e) data = Some signals /\
    Forall (fun s => s = 0%Z) signals /\
    backtest e data = Some ([], zero_metrics).
Proof.
  intros Hflat Hp.
  assert (Hex : exists signals, generate_signals (algorithm e) data = Some signals).
  { destruct (algorithm e) as [a|a]; simpl in *.
    - unfold rsi_generate_signals.
      destruct (calculate_rsi_some _ (prices_of data) Hp) as [rsi ->]. eauto.
    - unfold dc_generate_signals.
      destruct (calculate_rsi_some _ (prices_of data) Hp) as [rsi ->]. eauto. }
  destruct Hex as [signals Hsig]. exists signals. split; [exact Hsig|].
  pose proof (flat_signals_zero _ _ _ Hflat Hsig) as Hzero.
  split.
  - apply Forall_forall. intros s Hin. apply In_nth_error in Hin.
    destruct Hin as [i Hi]. eapply Hzero; eauto.
  - unfold backtest. rewrite Hsig.
    rewrite backtest_trades_no_signal.
    + reflexivity.
    + eapply generate_signals_length; eauto.
    + intros i s _ Hs. eapply Hzero; eauto.
Qed.

Lemma flat_series_no_trades_witness :
  backtest sample_engine sample_flat = Some ([], zero_metrics).
Proof.
  destruct (flat_series_no_trades sample_engine sample_flat) as (s & _ & _ & H).
  - intros [|[|[|[|i]]]] Hi; simpl in *; try reflexivity. lia.
  - simpl. lia.
  - exact H.
Defined.

(** ** Metrics: counts and ranges *)

Lemma filter_side_split (trades : list Trade) :
  (length (filter (fun t => side_eqb (type t) long) trades)
   + length (filter (fun t => side_eqb (type t) short) trades))%nat
  = length trades.
Proof.
  induction trades as [|t l IH]; simpl; [reflexivity|].
  destruct (type t); simpl; lia.
Qed.

Lemma filter_reason_split (trades : list Trade) :
  (count_reason exit_take_profit trades + count_reason exit_stop_loss trades
   + count_reason exit_market_close trades)%nat = length trades.
Proof.
  unfold count_reason. induction trades as [|t l IH]; simpl; [reflexivity|].
  destruct (exit_reason t); simpl; lia.
Qed.

Lemma filter_length_le {A} (f : A -> bool) l : (length (filter f l) <= length l)%nat.
Proof.
  induction l as [|a l IH]; simpl; [lia|]. destruct (f a); simpl; lia.
Qed.

Lemma Qnat_le a b : (a <= b)%nat -> Qnat a <= Qnat b.
Proof.
  intro H. unfold Qnat. rewrite <- Zle_Qle. lia.
Qed.

Lemma Qnat_pos a : (0 < a)%nat -> 0 < Qnat a.
Proof.
  intro H. unfold Qnat. change 0 with (inject_Z 0). rewrite <- Zlt_Qlt. lia.
Qed.

(** X11.  In the record [calculate_performance_metrics] returns, for any
    trade set, total_trades is the number of trades and equals
    long_trades + short_trades as well as take_profit_exits +
    stop_loss_exits + market_close_exits, and win_rate lies between 0
    and 100. *)
Theorem metrics_counts_consistent (trades_df : list Trade) :
  let m := calculate_performance_metrics trades_df in
  total_trades m = length trades_df /\
  (long_trades m + short_trades m)%nat = total_trades m /\
  (take_profit_exits m + stop_loss_exits m + market_close_exits m)%nat
  = total_trades m /\
  0 <= win_rate m /\ win_rate m <= 100.
Proof.
  destruct trades_df as [|t l].
  - simpl. repeat split; try reflexivity; unfold Qle; simpl; lia.
  - cbv zeta. unfold calculate_performance_metrics.
    cbn [total_trades long_trades short_trades take_profit_exits
         stop_loss_exits market_close_exits win_rate].
    split; [reflexivity|]. split; [apply (filter_side_split (t :: l))|].
    split; [apply (filter_reason_split (t :: l))|].
    assert (Hn : 0 < Qnat (length (t :: l))) by (apply Qnat_pos; simpl; lia).
    assert (Hw : Qnat (length (winning_trades (t :: l))) <= Qnat (length (t :: l)))
      by (apply Qnat_le, filter_length_le).
    assert (Hw0 : 0 <= Qnat (length (winning_trades (t :: l)))).
    { change 0 with (Qnat 0). apply Qnat_le. lia. }
    assert (H1 : 0 <= Qnat (length (winning_trades (t :: l))) / Qnat (length (t :: l)))
      by (apply Qle_shift_div_l; lra).
    assert (H2 : Qnat (length (winning_trades (t :: l))) / Qnat (length (t :: l)) <= 1)
      by (apply Qle_shift_div_r; lra).
    set (r := Qnat (length (winning_trades (t :: l))) / Qnat (length (t :: l))) in *.
    split; lra.
Qed.

(** ** Metrics on finite profits *)

Lemma Forall_is_fin_map (l : list fl) :
  Forall is_fin l -> exists qs, l = map Fin qs.
Proof.
  induction 1 as [|x l [q ->] _ [qs ->]].
  - exists []. reflexivity.
  - exists (q :: qs). reflexivity.
Qed.

Lemma cumsum_from_fin a qs :
  exists cs, cumsum_from (Fin a) (map Fin qs) = map Fin cs /\ length cs = length qs.
Proof.
  revert a; induction qs as [|q qs IH]; intro a; simpl.
  - exists []. split; reflexivity.
  - destruct (IH (a + q)) as (cs & Hcs & Hlen).
    exists ((a + q) :: cs). simpl. rewrite Hcs, Hlen. split; reflexivity.
Qed.

(** The running maximum is never below the current value. *)
Lemma drawdowns_nonneg acc cs :
  acc = NInf \/ is_fin acc ->
  Forall nonneg (map2 fsub (cummax_from acc (map Fin cs)) (map Fin cs)).
Proof.
  revert acc; induction cs as [|c cs IH]; intros acc Hacc; simpl; [constructor|].
  assert (Hnew : exists m, np_maximum acc (Fin c) = Fin m /\ c <= m).
  { destruct Hacc as [->|[m ->]].
    - exists c. split; [reflexivity|lra].
    - unfold np_maximum, fgt; simpl.
      destruct (Qltb m c) eqn:E.
      + exists c. split; [reflexivity|lra].
      + apply Qltb_ge in E. exists m. split; [reflexivity|exact E]. }
  destruct Hnew as (m & Hm & Hle). rewrite Hm.
  constructor.
  - simpl. lra.
  - apply IH. right. exists m. reflexivity.
Qed.

Lemma pd_max_nonneg_from m l :
  nonneg m -> Forall nonneg l ->
  nonneg (fold_left (fun m x => if is_nan x then m
                                else if is_nan m then x
                                else if fgt x m then x else m) l m).
Proof.
  intros Hm Hl; revert m Hm; induction Hl as [|x l Hx _ IH]; intros m Hm; simpl.
  - exact Hm.
  - apply IH. destruct x as [| | |x], m as [| | |m]; simpl in *; try contradiction.
    unfold fgt; simpl. destruct (Qltb m x); simpl; assumption.
Qed.

Lemma pd_max_nonneg l : l <> [] -> Forall nonneg l -> nonneg (pd_max l).
Proof.
  intros Hne Hl. destruct Hl as [|x l Hx Hl]; [congruence|].
  unfold pd_max. simpl.
  destruct x as [| | |x]; simpl in Hx; try contradiction. simpl.
  apply pd_max_nonneg_from; [exact Hx|exact Hl].
Qed.

Lemma cummax_from_length acc s : length (cummax_from acc s) = length s.
Proof. revert acc; induction s; intro acc; simpl; auto. Qed.

(** X12.  For a non-empty trade set whose profits are all finite, the
    record of [calculate_performance_metrics] has a finite total_profit
    and a finite max_drawdown that is not negative. *)
Theorem metrics_drawdown_nonneg (trades_df : list Trade) :
  trades_df <> [] ->
  Forall (fun t => is_fin (profit_pct t)) trades_df ->
  let m := calculate_performance_metrics trades_df in
  is_fin (total_profit m) /\ nonneg (max_drawdown m).
Proof.
  intros Hne Hfin. cbv zeta.
  split; [apply metrics_total_profit_fin; exact Hfin|].
  destruct trades_df as [|t l]; [congruence|].
  unfold calculate_performance_metrics. cbn [max_drawdown].
  assert (Hp : Forall is_fin (map profit_pct (t :: l)))
    by (apply Forall_map; exact Hfin).
  destruct (Forall_is_fin_map _ Hp) as [qs Hqs].
  assert (Hlen : length qs = length (t :: l)).
  { apply (f_equal (@length fl)) in Hqs. rewrite !length_map in Hqs. lia. }
  rewrite Hqs. unfold cumsum, cummax.
  destruct (cumsum_from_fin 0 qs) as (cs & Hcs & Hcl). rewrite Hcs.
  apply pd_max_nonneg.
  - intro Hnil. apply (f_equal (@length fl)) in Hnil.
    rewrite map2_length in Hnil by apply cummax_from_length.
    rewrite cummax_from_length, length_map in Hnil. simpl in Hnil, Hlen. lia.
  - apply drawdowns_nonneg. left. reflexivity.
Qed.

Lemma metrics_drawdown_nonneg_witness :
  nonneg (max_drawdown (calculate_performance_metrics [sample_winner; sample_winner])).
Proof.
  destruct (metrics_drawdown_nonneg [sample_winner; sample_winner]) as [_ H].
  - discriminate.
  - repeat constructor; eexists; reflexivity.
  - exact H.
Defined.

Lemma pd_sum_nonpos_from acc l :
  acc <= 0 -> Forall nonpos_fin l ->
  exists s,
    fold_left (fun a x => if is_nan x then a else fadd a x) l (Fin acc) = Fin s /\
    s <= 0 /\
    (s == 0 <-> acc == 0 /\ Forall (fun x => feq x (Fin 0)) l).
Proof.
  intros Hacc Hl; revert acc Hacc.
  induction Hl as [|x l (q & -> & Hq) _ IH]; intros acc Hacc; simpl.
  - exists acc. split; [reflexivity|]. split; [exact Hacc|].
    split; [intro H; split; [exact H|constructor]|tauto].
  - destruct (IH (acc + q)) as (s & Hs & Hle & Hiff); [lra|].
    exists s. split; [exact Hs|]. split; [exact Hle|].
    rewrite Hiff. split.
    + intros [H0 Hall]. split; [lra|]. constructor; [simpl; lra|exact Hall].
    + intros [H0 Hall]. inversion Hall as [|? ? Hx Hrest]; subst.
      simpl in Hx. split; [lra|exact Hrest].
Qed.

Lemma losing_profits_nonpos trades :
  Forall (fun t => is_fin (profit_pct t)) trades ->
  Forall nonpos_fin (map profit_pct (losing_trades trades)).
Proof.
  intro H. apply Forall_map. unfold losing_trades.
  apply Forall_forall. intros t Ht. apply filter_In in Ht as [Hin Hle].
  rewrite Forall_forall in H. destruct (H t Hin) as [q Hq].
  rewrite Hq in Hle. simpl in Hle. apply Qle_bool_iff in Hle.
  exists q. split; assumption.
Qed.

(** X13.  For a non-empty trade set whose profits are all finite, the
    profit_factor is never NaN and never negative: it is +infinity
    exactly when every losing trade (profit_pct at or below 0) has a
    profit of exactly 0, in particular when there is none, and a finite
    non-negative number otherwise. *)
Theorem profit_factor_cases (trades_df : list Trade) :
  trades_df <> [] ->
  Forall (fun t => is_fin (profit_pct t)) trades_df ->
  let pf := profit_factor (calculate_performance_metrics trades_df) in
  (pf = PInf <->
   Forall (fun t => feq (profit_pct t) (Fin 0)) (losing_trades trades_df)) /\
  (pf = PInf \/ nonneg pf).
Proof.
  intros Hne Hfin. cbv zeta.
  destruct trades_df as [|t l]; [congruence|].
  unfold calculate_performance_metrics. cbn [profit_factor].
  set (trades := t :: l) in *.
  destruct (pd_sum_nonpos_from 0 (map profit_pct (losing_trades trades)))
    as (ls & Hls & Hle & Hiff); [lra|apply losing_profits_nonpos; exact Hfin|].
  fold (pd_sum (map profit_pct (losing_trades trades))) in Hls.
  rewrite Hls.
  assert (Hw : is_fin (pd_sum (map profit_pct (winning_trades trades)))).
  { unfold pd_sum. apply pd_sum_fin_from; [eexists; reflexivity|].
    apply Forall_map. unfold winning_trades. apply Forall_forall.
    intros t0 Ht0. apply filter_In in Ht0 as [Hin _].
    rewrite Forall_forall in Hfin. auto. }
  destruct Hw as [ws Hws]. rewrite Hws.
  assert (Hall : ls == 0 <->
                 Forall (fun t0 => feq (profit_pct t0) (Fin 0)) (losing_trades trades)).
  { rewrite Hiff. rewrite Forall_map. split; [tauto|]. intro H; split; [lra|exact H]. }
  destruct (0 <? length (losing_trades trades))%nat eqn:El.
  - simpl fne. destruct (Qeq_bool ls 0) eqn:Ez; simpl.
    + apply Qeq_bool_iff in Ez. split; [|left; reflexivity].
      split; [intros _; apply Hall; exact Ez|reflexivity].
    + apply Qeq_bool_false in Ez.
      unfold fdiv, fdiv_gen.
      destruct (Qeq_bool (Qabs ls) 0) eqn:Ea.
      * apply Qeq_bool_iff in Ea. exfalso. apply Ez.
        rewrite Qabs_neg in Ea by exact Hle. lra.
      * split.
        -- split; [discriminate|]. intro H. apply Hall in H. contradiction.
        -- right. simpl. apply Qle_shift_div_l.
           ++ rewrite Qabs_neg by exact Hle. lra.
           ++ pose proof (Qabs_nonneg ws). lra.
  - apply Nat.ltb_ge in El.
    assert (Hnil : losing_trades trades = [])
      by (destruct (losing_trades trades); [reflexivity|simpl in El; lia]).
    cbn [andb]. split; [|left; reflexivity].
    split; [intros _; rewrite Hnil; constructor|reflexivity].
Qed.

Lemma profit_factor_cases_witness :
  profit_factor (calculate_performance_metrics [sample_break_even]) = PInf.
Proof.
  destruct (profit_factor_cases [sample_break_even]) as [[_ H] _].
  - discriminate.
  - repeat constructor; eexists; reflexivity.
  - apply H. repeat constructor.
Defined.

(** ** Parameter combinations *)

Lemma flat_map_length_const {A B} (f : A -> list B) (l : list A) n :
  (forall a, In a l -> length (f a) = n) ->
  length (flat_map f l) = (length l * n)%nat.
Proof.
  induction l as [|a l IH]; intro H; simpl; [reflexivity|].
  rewrite length_app, H by (left; reflexivity).
  rewrite IH by (intros; apply H; right; assumption). reflexivity.
Qed.

Lemma product_combinations_members (a : AlgoRanges) (r : RiskRanges)
  (params : ParamSet) :
  In params (product_combinations a r) <->
  In (p_period params) (r_period a) /\
  In (p_oversold_threshold params) (r_oversold_threshold a) /\
  In (p_overbought_threshold params) (r_overbought_threshold a) /\
  In (p_take_profit params) (r_take_profit r) /\
  In (p_stop_loss params) (r_stop_loss r).
Proof.
  unfold product_combinations. split.
  - intro H.
    apply in_flat_map in H as (pe & Hpe & H).
    apply in_flat_map in H as (os & Hos & H).
    apply in_flat_map in H as (ob & Hob & H).
    apply in_flat_map in H as (tp & Htp & H).
    apply in_map_iff in H as (sl & <- & Hsl). simpl. auto.
  - intros (Hpe & Hos & Hob & Htp & Hsl).
    apply in_flat_map. exists (p_period params). split; [exact Hpe|].
    apply in_flat_map. exists (p_oversold_threshold params). split; [exact Hos|].
    apply in_flat_map. exists (p_overbought_threshold params). split; [exact Hob|].
    apply in_flat_map. exists (p_take_profit params). split; [exact Htp|].
    apply in_map_iff. exists (p_stop_loss params). split; [|exact Hsl].
    destruct params; reflexivity.
Qed.

Lemma product_combinations_length (a : AlgoRanges) (r : RiskRanges) :
  length (product_combinations a r)
  = (length (r_period a) * (length (r_oversold_threshold a)
     * (length (r_overbought_threshold a)
        * (length (r_take_profit r) * length (r_stop_loss r)))))%nat.
Proof.
  unfold product_combinations.
  apply flat_map_length_const. intros pe _.
  apply flat_map_length_const. intros os _.
  apply flat_map_length_const. intros ob _.
  apply flat_map_length_const. intros tp _.
  apply length_map.
Qed.

(** X14.  The combinations are the full cartesian product of the five
    ranges: a parameter set is generated exactly when each of its five
    values is taken from its range, and the number of combinations is the
    product of the five range sizes. *)
Theorem product_combinations_complete (a : AlgoRanges) (r : RiskRanges)
  (params : ParamSet) :
  (In params (product_combinations a r) <->
   In (p_period params) (r_period a) /\
   In (p_oversold_threshold params) (r_oversold_threshold a) /\
   In (p_overbought_threshold params) (r_overbought_threshold a) /\
   In (p_take_profit params) (r_take_profit r) /\
   In (p_stop_loss params) (r_stop_loss r)) /\
  length (product_combinations a r)
  = (length (r_period a) * (length (r_oversold_threshold a)
     * (length (r_overbought_threshold a)
        * (length (r_take_profit r) * length (r_stop_loss r)))))%nat.
Proof.
  split; [apply product_combinations_members|apply product_combinations_length].
Qed.

(** X15.  [get_parameter_combinations] returns for the strategy name
    "RSI" only, with the product of that strategy's ranges and the risk
    ranges of RSI_PARAMS; every other name raises, among them
    "RSI_1MIN_DOUBLE_CONFIRM", which the factory knows but for which the
    optimizer has no settings, and "MACD", "SUPPORT_VOLUME", "VOL24" and
    "SMA", which have settings but no class in the factory. *)
Theorem get_parameter_combinations_rsi_only
  (RSI_PARAMS MACD_PARAMS SUPPORT_VOLUME_PARAMS VOL24_PARAMS SMA_PARAMS : RiskRanges)
  (algorithm_name : string) :
  (algorithm_name = "RSI"%string ->
   get_parameter_combinations RSI_PARAMS MACD_PARAMS SUPPORT_VOLUME_PARAMS
     VOL24_PARAMS SMA_PARAMS algorithm_name
   = Some (product_combinations
             {| r_period := [10; 12; 14; 16; 18; 20]%Z;
                r_oversold_threshold := [20; 25; 30; 35]%Z;
                r_overbought_threshold := [65; 70; 75; 80]%Z |} RSI_PARAMS)) /\
  (algorithm_name <> "RSI"%string ->
   get_parameter_combinations RSI_PARAMS MACD_PARAMS SUPPORT_VOLUME_PARAMS
     VOL24_PARAMS SMA_PARAMS algorithm_name = None).
Proof.
  split.
  - intros ->. reflexivity.
  - intro Hne. unfold get_parameter_combinations.
    destruct (String.eqb algorithm_name "RSI") eqn:E0;
      [apply String.eqb_eq in E0; contradiction|].
    destruct (String.eqb algorithm_name "MACD") eqn:E1;
      [apply String.eqb_eq in E1; subst; reflexivity|].
    destruct (String.eqb algorithm_name "SUPPORT_VOLUME") eqn:E2;
      [apply String.eqb_eq in E2; subst; reflexivity|].
    destruct (String.eqb algorithm_name "VOL24") eqn:E3;
      [apply String.eqb_eq in E3; subst; reflexivity|].
    destruct (String.eqb algorithm_name "SMA") eqn:E4;
      [apply String.eqb_eq in E4; subst; reflexivity|].
    reflexivity.
Qed.

Lemma get_parameter_combinations_rsi_only_witness :
  get_parameter_combinations sample_risk sample_risk sample_risk sample_risk
    sample_risk "RSI_1MIN_DOUBLE_CONFIRM" = None.
Proof.
  apply (get_parameter_combinations_rsi_only sample_risk sample_risk sample_risk
           sample_risk sample_risk "RSI_1MIN_DOUBLE_CONFIRM").
  discriminate.
Defined.

Lemma optimize_step_results commission_rate threshold name data acc c :
  fst (optimize_step commission_rate threshold name data acc c)
  = fst acc ++ map (fun pm => result_row (fst pm) (snd pm))
                   (evaluated commission_rate name data [c]).
Proof.
  destruct acc as [results best]. unfold optimize_step, evaluated. simpl.
  destruct (evaluate commission_rate name data c) as [[trades metrics]|];
    [destruct (_ && _)|]; simpl; rewrite ?app_nil_r; reflexivity.
Qed.

Lemma optimize_fold_results commission_rate threshold name data combinations :
  forall acc,
    fst (fold_left (optimize_step commission_rate threshold name data)
                   combinations acc)
    = fst acc ++ map (fun pm => result_row (fst pm) (snd pm))
                     (evaluated commission_rate name data combinations).
Proof.
  induction combinations as [|c cs IH]; intro acc; simpl fold_left.
  - unfold evaluated. simpl. rewrite app_nil_r. reflexivity.
  - rewrite IH, optimize_step_results, <- app_assoc, <- map_app.
    change (c :: cs) with ([c] ++ cs).
    unfold evaluated. rewrite flat_map_app. reflexivity.
Qed.

Lemma backtest_returns e data :
  increasing_index data -> (1 <= algorithm_period (algorithm e))%Z ->
  exists trades metrics, backtest e data = Some (trades, metrics).
Proof.
  intros Hinc Hp.
  assert (Hex : exists signals, generate_signals (algorithm e) data = Some signals).
  { destruct (algorithm e) as [a|a]; simpl in *.
    - unfold rsi_generate_signals.
      destruct (calculate_rsi_some _ (prices_of data) Hp) as [rsi ->]. eauto.
    - unfold dc_generate_signals.
      destruct (calculate_rsi_some _ (prices_of data) Hp) as [rsi ->]. eauto. }
  destruct Hex as [signals Hsig].
  pose proof (generate_signals_length _ _ _ Hsig) as Hlen.
  destruct (backtest_trades_ok e data signals Hinc Hlen) as (trades & Hbt & _).
  exists trades, (calculate_performance_metrics trades).
  unfold backtest. rewrite Hsig, Hbt. reflexivity.
Qed.

(** X16.  A run of [optimize] for "RSI" on a frame with a strictly
    increasing index finishes, no evaluation raises, and [self.results]
    holds exactly one row per combination, in the order of the
    combinations: 96 times the number of take-profit values times the
    number of stop-loss values. *)
Theorem optimize_rsi_records_every_combination
  (RSI_PARAMS MACD_PARAMS SUPPORT_VOLUME_PARAMS VOL24_PARAMS SMA_PARAMS : RiskRanges)
  (COMMISSION_RATE : Q) (MIN_TRADES_THRESHOLD : Z) (data : DataFrame) :
  increasing_index data ->
  exists combinations results best,
    get_parameter_combinations RSI_PARAMS MACD_PARAMS SUPPORT_VOLUME_PARAMS
      VOL24_PARAMS SMA_PARAMS "RSI" = Some combinations /\
    optimize RSI_PARAMS MACD_PARAMS SUPPORT_VOLUME_PARAMS VOL24_PARAMS SMA_PARAMS
      COMMISSION_RATE MIN_TRADES_THRESHOLD "RSI" data = Some (results, best) /\
    map row_params results = combinations /\
    length results
    = (96 * (length (r_take_profit RSI_PARAMS)
             * length (r_stop_loss RSI_PARAMS)))%nat.
Proof.
  intro Hinc.
  destruct (get_parameter_combinations_rsi_only RSI_PARAMS MACD_PARAMS
              SUPPORT_VOLUME_PARAMS VOL24_PARAMS SMA_PARAMS "RSI") as [Hc _].
  specialize (Hc eq_refl).
  set (ranges := {| r_period := [10; 12; 14; 16; 18; 20]%Z;
                    r_oversold_threshold := [20; 25; 30; 35]%Z;
                    r_overbought_threshold := [65; 70; 75; 80]%Z |}) in *.
  set (combinations := product_combinations ranges RSI_PARAMS) in *.
  exists combinations.
  unfold optimize. rewrite Hc. unfold optimize_loop.
  pose proof (optimize_fold_results COMMISSION_RATE MIN_TRADES_THRESHOLD "RSI"
                data combinations ([], initial_best)) as Hres.
  destruct (fold_left _ combinations ([], initial_best)) as [results best].
  simpl in Hres. exists results, best.
  split; [reflexivity|]. split; [reflexivity|].
  assert (Hall : forall cs,
            (forall c, In c cs -> (1 <= p_period c)%Z) ->
            map fst (evaluated COMMISSION_RATE "RSI" data cs) = cs).
  { induction cs as [|c cs IH]; intro Hper; [reflexivity|].
    unfold evaluated. simpl.
    destruct (backtest_returns
                {| algorithm := AlgRSI {| rsi_period := p_period c;
                                          rsi_oversold_threshold := p_oversold_threshold c;
                                          rsi_overbought_threshold := p_overbought_threshold c |};
                   take_profit := p_take_profit c; stop_loss := p_stop_loss c;
                   commission := COMMISSION_RATE |} data Hinc)
      as (trades & metrics & Hb).
    { simpl. apply Hper. left. reflexivity. }
    unfold evaluate. simpl. rewrite Hb. simpl. f_equal.
    apply IH. intros c' Hc'. apply Hper. right. exact Hc'. }
  assert (Hper : forall c, In c combinations -> (1 <= p_period c)%Z).
  { intros c Hin.
    apply (proj1 (product_combinations_members ranges RSI_PARAMS c)) in Hin.
    destruct Hin as (Hpe & _). simpl in Hpe.
    repeat (destruct Hpe as [<-|Hpe]; [lia|]). contradiction. }
  assert (Hmap : map row_params results = combinations).
  { rewrite Hres, map_map. simpl. rewrite <- (Hall combinations Hper) at 2.
    reflexivity. }
  split; [exact Hmap|].
  rewrite <- (length_map row_params), Hmap.
  unfold combinations.
  rewrite (product_combinations_length ranges RSI_PARAMS).
  unfold ranges. cbn [r_period r_oversold_threshold r_overbought_threshold length].
  lia.
Qed.

Lemma optimize_rsi_records_every_combination_witness :
  exists results best,
    optimize sample_risk sample_risk sample_risk sample_risk sample_risk
      (1 # 1000) 5 "RSI" sample_two_trades = Some (results, best) /\
    length results = 96%nat.
Proof.
  destruct (optimize_rsi_records_every_combination sample_risk sample_risk
              sample_risk sample_risk sample_risk (1 # 1000) 5 sample_two_trades)
    as (combinations & results & best & _ & Hopt & _ & Hlen).
  - apply increasing_timestamps_sound. reflexivity.
  - exists results, best. split; [exact Hopt|exact Hlen].
Defined.

(** ** Ties between combinations *)

Section OptimizerTies.

Variable COMMISSION_RATE : Q.
Variable MIN_TRADES_THRESHOLD : Z.
Variable algorithm_name : string.
Variable data : DataFrame.

Local Abbreviation evaluated_c := (evaluated COMMISSION_RATE algorithm_name data).
Local Abbreviation meets_c := (meets_threshold MIN_TRADES_THRESHOLD).

Local Abbreviation first_best_c := (first_best_of MIN_TRADES_THRESHOLD).

Hypothesis evaluate_fin :
  forall params trades metrics,
    evaluate COMMISSION_RATE algorithm_name data params = Some (trades, metrics) ->
    is_fin (total_profit metrics).

Lemma evaluated_fin_c combos pm :
  In pm (evaluated_c combos) -> is_fin (total_profit (snd pm)).
Proof.
  unfold evaluated. rewrite in_flat_map. intros (params & _ & Hin).
  destruct (evaluate COMMISSION_RATE algorithm_name data params)
    as [[trades metrics]|] eqn:Ev; [|contradiction].
  destruct Hin as [<-|[]]. simpl. eapply evaluate_fin; eauto.
Qed.

Lemma optimize_step_first done acc params :
  first_best_c (evaluated_c done) (snd acc) ->
  first_best_c (evaluated_c (done ++ [params]))
    (snd (optimize_step COMMISSION_RATE MIN_TRADES_THRESHOLD
            algorithm_name data acc params)).
Proof.
  destruct acc as [results best]; cbn [snd]. intro Hbest.
  assert (Hfin : forall pm, In pm (evaluated_c done) -> is_fin (total_profit (snd pm)))
    by (intros; eapply evaluated_fin_c; eauto).
  unfold evaluated in *. rewrite flat_map_app. simpl flat_map. rewrite app_nil_r.
  unfold optimize_step.
  destruct (evaluate COMMISSION_RATE algorithm_name data params)
    as [[trades metrics]|] eqn:Ev; [|rewrite app_nil_r; exact Hbest].
  destruct (evaluate_fin _ _ _ Ev) as [q Hq].
  set (E := flat_map _ done) in *.
  destruct (fgt (total_profit metrics) (best_total_profit best)
            && (MIN_TRADES_THRESHOLD <=? Z.of_nat (total_trades metrics))%Z)
    eqn:Econd; cbn [snd].
  - apply andb_true_iff in Econd as [Hgt Hthr]. apply Z.leb_le in Hthr.
    unfold first_best_c; cbn [best_parameters best_metrics best_total_profit].
    exists metrics, E, [].
    split; [reflexivity|]. split; [reflexivity|]. split; [exact Hthr|].
    split; [reflexivity|]. split; [|intros pm []].
    intros pm Hin Hm. destruct (Hfin pm Hin) as [q' Hq'].
    unfold first_best_c in Hbest.
    destruct (best_parameters best) as [bp|].
    + destruct Hbest as (m0 & E1 & E2 & HE & _ & Hm0 & Hbtp & Hlt & Hle).
      assert (Hin0 : In (bp, m0) E) by (rewrite HE; apply in_elt).
      destruct (Hfin _ Hin0) as [q0 Hq0]; cbn [snd] in Hq0.
      rewrite Hbtp, Hq0, Hq in Hgt. unfold fgt in Hgt. simpl in Hgt.
      apply Qltb_lt in Hgt. rewrite Hq', Hq. simpl. apply Qltb_lt.
      rewrite HE in Hin. apply in_app_or in Hin as [Hin|[<-|Hin]].
      * specialize (Hlt pm Hin Hm). rewrite Hq', Hq0 in Hlt. simpl in Hlt.
        apply Qltb_lt in Hlt. lra.
      * cbn [snd] in Hq'. rewrite Hq0 in Hq'. injection Hq' as <-. exact Hgt.
      * specialize (Hle pm Hin Hm). rewrite Hq', Hq0 in Hle. simpl in Hle.
        apply Qle_bool_iff in Hle. lra.
    + destruct Hbest as [_ Hnone]. exfalso. exact (Hnone pm Hin Hm).
  - apply andb_false_iff in Econd.
    unfold first_best_c in *. destruct (best_parameters best) as [bp|].
    + destruct Hbest as (m0 & E1 & E2 & HE & Hbm & Hm0 & Hbtp & Hlt & Hle).
      exists m0, E1, (E2 ++ [(params, metrics)]).
      split; [rewrite HE, <- app_assoc; reflexivity|].
      repeat split; auto.
      intros pm Hin Hm. apply in_app_or in Hin as [Hin|[<-|[]]]; [auto|].
      cbn [snd] in *.
      destruct Econd as [Hng|Hthr];
        [|apply Z.leb_gt in Hthr; unfold meets_threshold in Hm; lia].
      assert (Hin0 : In (bp, m0) E) by (rewrite HE; apply in_elt).
      destruct (Hfin _ Hin0) as [q0 Hq0]; cbn [snd] in Hq0.
      rewrite Hbtp, Hq0, Hq in Hng. rewrite Hq, Hq0.
      unfold fgt in Hng. simpl in *.
      apply Qltb_ge in Hng. apply Qle_bool_iff. exact Hng.
    + destruct Hbest as [Hinit Hnone]. split; [exact Hinit|].
      intros pm Hin Hm. apply in_app_or in Hin as [Hin|[<-|[]]];
        [exact (Hnone pm Hin Hm)|].
      cbn [snd] in *.
      destruct Econd as [Hng|Hthr];
        [|apply Z.leb_gt in Hthr; unfold meets_threshold in Hm; lia].
      rewrite Hinit, Hq in Hng. discriminate.
Qed.

Lemma optimize_fold_first combinations :
  forall done acc,
    first_best_c (evaluated_c done) (snd acc) ->
    first_best_c (evaluated_c (done ++ combinations))
      (snd (fold_left (optimize_step COMMISSION_RATE MIN_TRADES_THRESHOLD
                         algorithm_name data) combinations acc)).
Proof.
  induction combinations as [|c cs IH]; intros done acc Hbest.
  - simpl. rewrite app_nil_r. exact Hbest.
  - simpl fold_left.
    pose proof (optimize_step_first done acc c Hbest) as Hstep.
    specialize (IH (done ++ [c]) _ Hstep).
    rewrite <- app_assoc in IH. exact IH.
Qed.

End OptimizerTies.

(** X17.  Ties go to the earliest combination: on a frame with a
    strictly increasing index and positive prices, when [optimize]
    selects a combination, every combination evaluated before it that
    meets the minimum-trade threshold has a strictly smaller
    total_profit, and every one evaluated after it that meets the
    threshold has a total_profit that is not larger. *)
Theorem optimize_earliest_best_wins
  (RSI_PARAMS MACD_PARAMS SUPPORT_VOLUME_PARAMS VOL24_PARAMS SMA_PARAMS : RiskRanges)
  (COMMISSION_RATE : Q) (MIN_TRADES_THRESHOLD : Z)
  (algorithm_name : string) (data : DataFrame) (combinations : list ParamSet) :
  increasing_index data -> positive_prices data ->
  get_parameter_combinations RSI_PARAMS MACD_PARAMS SUPPORT_VOLUME_PARAMS
    VOL24_PARAMS SMA_PARAMS algorithm_name = Some combinations ->
  exists results best,
    optimize RSI_PARAMS MACD_PARAMS SUPPORT_VOLUME_PARAMS VOL24_PARAMS SMA_PARAMS
      COMMISSION_RATE MIN_TRADES_THRESHOLD algorithm_name data
    = Some (results, best) /\
    forall params, best_parameters best = Some params ->
      exists metrics E1 E2,
        evaluated COMMISSION_RATE algorithm_name data combinations
        = E1 ++ (params, metrics) :: E2 /\
        best_metrics best = Some metrics /\
        (forall pm, In pm E1 -> meets_threshold MIN_TRADES_THRESHOLD (snd pm) ->
                    flt (total_profit (snd pm)) (total_profit metrics) = true) /\
        (forall pm, In pm E2 -> meets_threshold MIN_TRADES_THRESHOLD (snd pm) ->
                    fle (total_profit (snd pm)) (total_profit metrics) = true).
Proof.
  intros Hinc Hpos Hcomb. unfold optimize. rewrite Hcomb. unfold optimize_loop.
  pose proof (optimize_fold_first COMMISSION_RATE MIN_TRADES_THRESHOLD
                algorithm_name data
                (fun params trades metrics =>
                   evaluate_total_profit_fin COMMISSION_RATE algorithm_name data
                     params trades metrics Hinc Hpos)
                combinations [] ([], initial_best)) as Hspec.
  destruct (fold_left _ combinations ([], initial_best)) as [results best].
  exists results, best. split; [reflexivity|].
  intros params Hsome. simpl in Hspec.
  assert (Hinit : first_best_of MIN_TRADES_THRESHOLD [] initial_best).
  { unfold first_best_of. simpl. split; [reflexivity|]. intros pm []. }
  specialize (Hspec Hinit). unfold first_best_of in Hspec.
  rewrite Hsome in Hspec.
  destruct Hspec as (metrics & E1 & E2 & HE & Hbm & _ & _ & Hlt & Hle).
  exists metrics, E1, E2. auto.
Qed.

Lemma optimize_earliest_best_wins_witness :
  exists results best,
    optimize sample_risk sample_risk sample_risk sample_risk sample_risk
      (1 # 1000) 1 "RSI" sample_two_trades = Some (results, best).
Proof.
  destruct (optimize_earliest_best_wins sample_risk sample_risk sample_risk
              sample_risk sample_risk (1 # 1000) 1 "RSI" sample_two_trades
              (product_combinations
                 (get_parameter_ranges
                    (AlgRSI {| rsi_period := 14; rsi_oversold_threshold := 30;
                               rsi_overbought_threshold := 70 |}))
                 sample_risk))
    as (results & best & Hopt & _).
  - apply increasing_timestamps_sound. reflexivity.
  - apply positive_prices_check. reflexivity.
  - reflexivity.
  - exists results, best. exact Hopt.
Defined.

(** ** The live panel's window and support *)

(** X18.  Fed a series one candle at a time from its initial state, the
    live panel holds after candle [i] the oscillator values it computed
    at the indices from [period] to [i], each on the frame fetched then
    (the latest [period + 50] candles), the last ten of them at most, in
    order; it never holds more than ten.  While [i] is below
    [period + 50] these are the batch oscillator values of those
    indices. *)
Theorem live_window_is_batch_tail (a : RSI1MinDoubleConfirmAlgorithm)
  (data : DataFrame) (rsi : list fl) (i : nat) (q : Panel.PAXGPanel) :
  calculate_rsi (dc_period a) (prices_of data) = Some rsi ->
  nth_error (feed (Panel.init (dc_period a) (dc_oversold_threshold a)
                              (dc_overbought_threshold a)) data) i = Some q ->
  Panel.last_rsi_values q
  = Panel.lastn 10 (skipn (Z.to_nat (dc_period a))
                      (firstn (S i) (live_rsi (dc_period a) data))) /\
  (length (Panel.last_rsi_values q) <= 10)%nat /\
  ((Z.of_nat i < dc_period a + 50)%Z ->
   Panel.last_rsi_values q
   = Panel.lastn 10 (skipn (Z.to_nat (dc_period a)) (firstn (S i) rsi))).
Proof.
  intros Hrsi Hq.
  pose proof (calculate_rsi_period _ _ _ Hrsi) as Hper.
  destruct (feed_tracks a data i q Hper Hq) as (Hin & (_ & _ & _ & Hv) & _).
  unfold fed_values in Hv. split; [exact Hv|]. split.
  - rewrite Hv. unfold Panel.lastn. rewrite length_skipn. lia.
  - intro Hw. rewrite Hv.
    rewrite (firstn_live_rsi _ _ _ (S i) Hrsi) by lia. reflexivity.
Qed.

Lemma live_window_is_batch_tail_witness :
  exists rsi q,
    calculate_rsi 10 (prices_of sample_jump_then_break) = Some rsi /\
    nth_error (feed bot_panel sample_jump_then_break) 12 = Some q /\
    Panel.last_rsi_values q = [nthf rsi 10; nthf rsi 11; nthf rsi 12].
Proof.
  destruct (calculate_rsi 10 (prices_of sample_jump_then_break)) as [rsi|] eqn:Hrsi;
    [|vm_compute in Hrsi; discriminate].
  destruct (nth_error (feed bot_panel sample_jump_then_break) 12) as [q|] eqn:Hq;
    [|vm_compute in Hq; discriminate].
  exists rsi, q. split; [reflexivity|]. split; [reflexivity|].
  destruct (live_window_is_batch_tail bot_dc sample_jump_then_break rsi 12 q Hrsi Hq)
    as (_ & _ & Hv).
  rewrite Hv by (vm_compute; reflexivity).
  vm_compute in Hrsi. injection Hrsi as <-. reflexivity.
Defined.

(** X19.  One call of [update_rsi_state] on a panel that holds at most
    ten oscillator values appends the new value and keeps the last ten:
    the panel again holds at most ten values, the new one last. *)
Theorem update_rsi_state_window (p : Panel.PAXGPanel) (current_rsi : fl)
  (df : DataFrame) :
  (length (Panel.last_rsi_values p) <= 10)%nat ->
  let p' := Panel.update_rsi_state p current_rsi df in
  Panel.last_rsi_values p'
  = Panel.lastn 10 (Panel.last_rsi_values p ++ [current_rsi]) /\
  (length (Panel.last_rsi_values p') <= 10)%nat /\
  last (Panel.last_rsi_values p') NaN = current_rsi.
Proof.
  intros Hlen p'. subst p'. unfold Panel.update_rsi_state.
  cbn [Panel.last_rsi_values].
  pose proof (lastn_snoc (Panel.last_rsi_values p) current_rsi) as Hs.
  cbv zeta in Hs. rewrite (lastn_all _ 10 Hlen) in Hs. rewrite Hs.
  split; [reflexivity|]. split.
  - unfold Panel.lastn. rewrite length_skipn. lia.
  - unfold Panel.lastn.
    rewrite skipn_app.
    rewrite length_app. simpl length.
    replace (length (Panel.last_rsi_values p) + 1 - 10
             - length (Panel.last_rsi_values p))%nat with 0%nat by lia.
    simpl skipn. apply last_last.
Qed.

Lemma update_rsi_state_window_witness :
  length (Panel.last_rsi_values
            (Panel.update_rsi_state sample_topped_panel (Fin 55) [])) = 10%nat.
Proof.
  destruct (update_rsi_state_window sample_topped_panel (Fin 55) []) as (H & _ & _).
  - simpl. lia.
  - rewrite H. reflexivity.
Defined.

Lemma last_In_lastn {A} (l : list A) n d :
  l <> [] -> (1 <= n)%nat -> In (last l d) (Panel.lastn n l).
Proof.
  intros Hne Hn. unfold Panel.lastn.
  destruct (exists_last Hne) as (l' & x & ->).
  rewrite last_last, skipn_app, length_app. simpl length.
  apply in_or_app. right.
  replace (length l' + 1 - n - length l')%nat with 0%nat by lia.
  left. reflexivity.
Qed.

(** X20.  The live short check cannot fire on the candle that has just
    set the support level: after [update_rsi_state] with a frame of at
    least ten candles, [check_short_signal] is false at every price that
    is not below the low of the frame's last candle, as the close of that
    candle is. *)
Theorem live_short_never_on_support_candle (p : Panel.PAXGPanel)
  (current_rsi : fl) (df : DataFrame) (current_price : Q) :
  (10 <= length df)%nat ->
  last (map low df) 0 <= current_price ->
  Panel.check_short_signal (Panel.update_rsi_state p current_rsi df)
                           current_rsi current_price = false.
Proof.
  intros Hlen Hlow. unfold Panel.check_short_signal, Panel.update_rsi_state.
  cbn [Panel.support_level Panel.rsi_topped Panel.last_rsi_values].
  destruct (10 <=? length df)%nat eqn:E; [|apply Nat.leb_gt in E; lia].
  assert (Hne : map low df <> []).
  { intro H. apply (f_equal (@length Q)) in H. rewrite length_map in H.
    simpl in H. lia. }
  destruct (pd_min_spec (Panel.lastn 10 (map low df))) as (m & Hm & _ & Hall).
  { intro H. apply (f_equal (@length Q)) in H.
    unfold Panel.lastn in H. rewrite length_skipn, length_map in H.
    simpl in H. lia. }
  rewrite Hm.
  assert (Hle : m <= current_price).
  { specialize (Hall (last (map low df) 0)
                     (last_In_lastn (map low df) 10 0 Hne ltac:(lia))). lra. }
  assert (Hflt : flt (Fin current_price) (Fin m) = false)
    by (simpl; apply Qltb_ge; exact Hle).
  rewrite Hflt. rewrite andb_false_r.
  destruct (negb _); reflexivity.
Qed.

Lemma live_short_never_on_support_candle_witness :
  Panel.check_short_signal
    (Panel.update_rsi_state sample_topped_panel (Fin 45) sample_jump_then_break)
    (Fin 45) 99 = false.
Proof.
  apply live_short_never_on_support_candle.
  - simpl. lia.
  - simpl. lra.
Defined.

(** ** Forced closes *)

Lemma trade_ok_exit_row e data b t :
  trade_ok e data b t ->
  exists x, at_row data x (exit_time t) (exit_price t) /\
            (exit_reason t = exit_market_close -> S x = length data).
Proof.
  intros (x & _ & Hat & Hc). exists x.
  destruct Hc as [(pr & Hsim & _ & Hx & _)|(Hend & -> & _ & Hx & _)].
  - split; [exact Hx|]. intro Hr.
    pose proof (at_row_price _ _ _ _ Hat) as Hentry.
    pose proof (simulate_trade_exit_spec _ _ _ _ _ _ _ _ Hentry Hsim) as Hspec.
    cbv zeta in Hspec. destruct Hspec as [_ Hspec]. rewrite Hr in Hspec.
    destruct Hspec as (-> & _). rewrite prices_of_length in *.
    destruct Hx as (row & Hrow & _).
    assert (length data - 1 < length data)%nat by (apply nth_error_Some; congruence).
    lia.
  - split; [exact Hx|]. intros _. exact Hend.
Qed.

(** X21.  Whenever the strategy yields its signals, a trade with exit
    reason market_close can only be the last trade of the list that
    [backtest] returns; its exit time and exit price are the timestamp
    and the close of the last candle. *)
Theorem market_close_trade_is_last (e : BacktestEngine) (data : DataFrame)
  (signals : list Z) :
  increasing_index data ->
  generate_signals (algorithm e) data = Some signals ->
  exists trades metrics,
    backtest e data = Some (trades, metrics) /\
    forall i t, nth_error trades i = Some t ->
      exit_reason t = exit_market_close ->
      S i = length trades /\
      exit_time t = last (map timestamp data) 0%Z /\
      exit_price t = last (prices_of data) 0.
Proof.
  intros Hinc Hsig.
  pose proof (generate_signals_length _ _ _ Hsig) as Hlen.
  destruct (backtest_trades_ok e data signals Hinc Hlen)
    as (trades & Hbt & Hch & Hok).
  exists trades, (calculate_performance_metrics trades).
  unfold backtest. rewrite Hsig, Hbt. split; [reflexivity|].
  intros i t Ht Hr. rewrite Forall_forall in Hok.
  assert (Hin : In t trades) by (eapply nth_error_In; eauto).
  destruct (trade_ok_exit_row _ _ _ _ (Hok t Hin)) as (x & Hx & Hlast).
  specialize (Hlast Hr).
  destruct Hx as (xrow & Hxrow & Hxt & Hxp).
  assert (Hidx : x = (length data - 1)%nat) by lia.
  split; [|split].
  - destruct (nth_error trades (S i)) as [t2|] eqn:Ht2.
    + exfalso.
      pose proof (chain_non_overlapping _ Hch i t t2 Ht Ht2) as Hlt.
      assert (Hin2 : In t2 trades) by (eapply nth_error_In; eauto).
      destruct (Hok t2 Hin2) as (x2 & _ & (er & Her & Het & _) & _).
      assert (Hlt2 : (entry_idx t2 < length data)%nat)
        by (apply nth_error_Some; congruence).
      destruct (Nat.eq_dec (entry_idx t2) x) as [Heq|Hneq].
      * rewrite Heq, Hxrow in Her. injection Her as <-. lia.
      * assert (Hts : (timestamp er < timestamp xrow)%Z).
        { eapply Hinc; eauto. lia. }
        lia.
    + apply nth_error_None in Ht2.
      assert (i < length trades)%nat by (apply nth_error_Some; congruence).
      lia.
  - rewrite <- Hxt. symmetry. apply last_nth_error.
    rewrite length_map, <- Hidx, nth_error_map, Hxrow. reflexivity.
  - rewrite <- Hxp. symmetry. apply last_nth_error.
    rewrite prices_of_length, <- Hidx. unfold prices_of.
    rewrite nth_error_map, Hxrow. reflexivity.
Qed.

Lemma market_close_trade_is_last_witness :
  exists trades metrics t,
    backtest sample_engine sample_entry_at_end = Some (trades, metrics) /\
    nth_error trades 0 = Some t /\ length trades = 1%nat /\
    exit_price t = last (prices_of sample_entry_at_end) 0.
Proof.
  destruct (market_close_trade_is_last sample_engine sample_entry_at_end
              [0; 0; 1]%Z) as (trades & metrics & Hb & Hall).
  - apply increasing_timestamps_sound. reflexivity.
  - reflexivity.
  - assert (Ht : exists t, nth_error trades 0 = Some t /\
                           exit_reason t = exit_market_close).
    { vm_compute in Hb. injection Hb as <- _. eexists. split; reflexivity. }
    destruct Ht as (t & Hnth & Hr).
    destruct (Hall 0%nat t Hnth Hr) as (Hlen & _ & Hp).
    exists trades, metrics, t. split; [exact Hb|]. split; [exact Hnth|].
    split; [symmetry; exact Hlen|exact Hp].
Defined.

(** ** Smaller pieces *)

(** X22.  The factory and its list of names agree: [create_algorithm]
    returns a strategy exactly for the names that
    [get_available_algorithms] lists, whatever the keyword arguments, and
    raises for every other name; the strategy it builds has the given
    period, or 14 when none is given. *)
Theorem create_algorithm_known_names (name : string)
  (period oversold overbought : option Z) :
  ((exists alg, create_algorithm name period oversold overbought = Some alg)
   <-> In name get_available_algorithms) /\
  (forall alg, create_algorithm name period oversold overbought = Some alg ->
     algorithm_period alg = match period with Some v => v | None => 14%Z end).
Proof.
  unfold create_algorithm, get_available_algorithms. split.
  - destruct (String.eqb name "RSI") eqn:E1.
    + apply String.eqb_eq in E1. split; [intros _; left; auto|eauto].
    + destruct (String.eqb name "RSI_1MIN_DOUBLE_CONFIRM") eqn:E2.
      * apply String.eqb_eq in E2. split; [intros _; right; left; auto|eauto].
      * split.
        -- intros [alg H]. discriminate.
        -- intros [H|[H|[]]]; subst name; simpl in *; discriminate.
  - intros alg.
    destruct (String.eqb name "RSI");
      [|destruct (String.eqb name "RSI_1MIN_DOUBLE_CONFIRM")];
      intro H; try discriminate; injection H as <-; reflexivity.
Qed.

(** X23.  The panel backtester asks the exchange for the same 1000
    one-minute candles whatever number of days, at least 1, it is given:
    a day already has 1440 minutes. *)
Theorem candle_limit_ignores_days (days : Z) :
  (1 <= days)%Z -> candle_limit days = 1000%Z.
Proof. intro H. unfold candle_limit. lia. Qed.

Lemma candle_limit_ignores_days_witness : candle_limit 7 = 1000%Z.
Proof. apply candle_limit_ignores_days. lia. Defined.

(** X24.  The bot log is bounded: on a log of at most [max_logs] entries
    (100 in the panel), [add_log] appends the stamped message, dropping
    the oldest entry exactly when the log was full; the log again has at
    most [max_logs] entries and, for a positive bound, the new entry
    last. *)
Theorem add_log_bounded (max_logs : nat) (bot_logs : list string)
  (timestamp message : string) :
  (length bot_logs <= max_logs)%nat ->
  let entry := ("[" ++ timestamp ++ "] " ++ message)%string in
  let logs' := add_log max_logs bot_logs timestamp message in
  (length logs' <= max_logs)%nat /\
  ((length bot_logs < max_logs)%nat -> logs' = bot_logs ++ [entry]) /\
  (length bot_logs = max_logs -> logs' = tl (bot_logs ++ [entry])) /\
  ((1 <= max_logs)%nat -> last logs' EmptyString = entry).
Proof.
  intros Hlen entry logs'. subst logs'. unfold add_log. fold entry.
  rewrite length_app. simpl length.
  destruct (max_logs <? length bot_logs + 1)%nat eqn:E.
  - apply Nat.ltb_lt in E.
    assert (Hfull : length bot_logs = max_logs) by lia.
    split; [|split; [lia|split; [reflexivity|]]].
    + destruct bot_logs as [|x l]; simpl in *; [lia|].
      rewrite length_app. simpl. lia.
    + intro H1. destruct bot_logs as [|x l]; simpl in *; [lia|].
      apply last_last.
  - apply Nat.ltb_ge in E.
    split; [rewrite length_app; simpl; lia|].
    split; [reflexivity|]. split; [lia|]. intros _. apply last_last.
Qed.

Lemma add_log_bounded_witness :
  add_log 2 ["[10:00:00] a"; "[10:00:01] b"]%string "10:00:02" "c"
  = ["[10:00:01] b"; "[10:00:02] c"]%string.
Proof.
  destruct (add_log_bounded 2 ["[10:00:00] a"; "[10:00:01] b"]%string
              "10:00:02" "c") as (_ & _ & H & _).
  - simpl. lia.
  - rewrite H by reflexivity. reflexivity.
Defined.
